(** * MCP calendar server: a shallow embedding of the request pipeline

    The development follows the layout of the Python sources:

    - [Py]            the fragment of Python's data model the code relies on
                      (values, insertion-ordered dicts, exceptions, truthiness);
    - [TransportAuth] [transport/auth.py]      bearer-token check;
    - [Audit]         [services/audit.py]      sanitising of audit records;
    - [Retry]         [adapters/retry.py]      quota marker and retry loop;
    - [Workers]       [adapters/workers.py]    bounded queue, submission, the
                                               pool at work;
    - [Schemas]       [tools/schemas.py], [tools/validators.py];
    - [Calendar]      [adapters/calendar.py]   request translation;
    - [Idempotency]   [router/idempotency.py]  fingerprint and cache;
    - [Router]        [router/queue.py]        the command router;
    - [StdioServer]   [mcp_server.py]          the stdio message handler.

    The models of all modules come first; the facts proved about them
    follow in the second half of the file, module by module. *)

From Stdlib Require Import ZArith QArith Qminmax Qabs Lia Lqa Bool Ascii String
  List Permutation DecimalString.
From stdpp Require Import base option gmap strings.

Import ListNotations.
Local Open Scope string_scope.
Local Open Scope Z_scope.

(* ===================================================================== *)
(** * Python data model *)
(* ===================================================================== *)

Module Py.

#[local] Set Warnings "-register-all".

(** Values that flow through the pipeline: JSON data received over JSON-RPC,
    plus [datetime] objects (produced by validation or handed in by callers
    that build argument dicts in-process).  A [datetime] is identified by
    its [isoformat()] text, a float by its [repr]. *)
Inductive pyval : Type :=
| PNone
| PBool (b : bool)
| PInt (n : Z)
| PFloat (repr : string)
| PStr (s : string)
| PDateTime (iso : string)
| PList (items : list pyval)
| PDict (entries : list (string * pyval)).

(** An insertion-ordered dict with string keys, as an association list.
    Python keeps keys unique; [dict_set] preserves that. *)
Definition dict (A : Type) : Type := list (string * A).

Section Dict.
Context {A : Type}.

(** [d.get(k)] *)
Fixpoint dict_get (k : string) (d : dict A) : option A :=
  match d with
  | [] => None
  | (k', v) :: rest => if String.eqb k k' then Some v else dict_get k rest
  end.

(** [k in d] *)
Definition dict_contains (k : string) (d : dict A) : bool :=
  match dict_get k d with Some _ => true | None => false end.

(** [d[k] = v]: an existing key keeps its position, a new key goes last. *)
Fixpoint dict_set (k : string) (v : A) (d : dict A) : dict A :=
  match d with
  | [] => [(k, v)]
  | (k', v') :: rest =>
      if String.eqb k k' then (k', v) :: rest
      else (k', v') :: dict_set k v rest
  end.

(** [list(d.keys())] *)
Definition dict_keys (d : dict A) : list string := map fst d.
End Dict.

(** Truth value testing ([if x:], [not x], [x and y]). *)
Definition str_truthy (s : string) : bool :=
  match s with EmptyString => false | _ => true end.

Definition truthy (v : pyval) : bool :=
  match v with
  | PNone => false
  | PBool b => b
  | PInt n => negb (n =? 0)
  | PFloat r => negb (String.eqb r "0.0" || String.eqb r "-0.0")
  | PStr s => str_truthy s
  | PDateTime _ => true
  | PList l => match l with [] => false | _ => true end
  | PDict d => match d with [] => false | _ => true end
  end.

(** [d.get(k)] on a dict whose values are Python values: a missing key
    reads as [None]. *)
Definition dict_get_or_none (k : string) (d : dict pyval) : pyval :=
  match dict_get k d with Some v => v | None => PNone end.

(** The response object of a failed HTTP call ([HttpError.resp], an
    [httplib2.Response]): the status and the response headers. *)
Record Response : Type := mkResponse {
  status : Z;
  resp_headers : dict string
}.

(** Exceptions raised by the modelled code. *)
Inductive exn : Type :=
| AttributeError (msg : string)
| TypeError (msg : string)
| KeyError (key : string)
| IndexError (msg : string)
| ValueError (msg : string)
| OverflowError (msg : string)
| ValidationError (errors : list (string * string))
| ValidationException (msg : string)
| HTTPException (status_code : Z) (detail : string)
| HttpError (resp : Response)
| QueueFull
| Exception (msg : string).

(** Computations that return or raise. *)
Inductive result (A : Type) : Type :=
| Ok (a : A)
| Raise (e : exn).
Arguments Ok {A} a.
Arguments Raise {A} e.

Definition bind {A B : Type} (m : result A) (f : A -> result B) : result B :=
  match m with
  | Ok a => f a
  | Raise e => Raise e
  end.

(** ASCII case folding, [str.lower()] on the ASCII range. *)
Definition lower_ascii (c : ascii) : ascii :=
  let n := nat_of_ascii c in
  if (Nat.leb 65 n && Nat.leb n 90)%bool then ascii_of_nat (n + 32) else c.

Fixpoint lower (s : string) : string :=
  match s with
  | EmptyString => EmptyString
  | String c s' => String (lower_ascii c) (lower s')
  end.

(** [s.startswith(p)] *)
Definition startswith (p s : string) : bool := String.prefix p s.

(** [needle in haystack] on strings. *)
Fixpoint str_in (needle haystack : string) : bool :=
  if String.prefix needle haystack then true
  else match haystack with
       | EmptyString => false
       | String _ rest => str_in needle rest
       end.

(** [s.split(c)] for a one-character separator: cut at every occurrence. *)
Fixpoint split_on (c : ascii) (s : string) : list string :=
  match s with
  | EmptyString => [EmptyString]
  | String a rest =>
      if Ascii.eqb a c then EmptyString :: split_on c rest
      else match split_on c rest with
           | [] => [String a EmptyString]
           | piece :: pieces => String a piece :: pieces
           end
  end.

(** [c not in s] *)
Fixpoint no_char (c : ascii) (s : string) : bool :=
  match s with
  | EmptyString => true
  | String a rest => negb (Ascii.eqb a c) && no_char c rest
  end.

(** The double-quote character, as a string. *)
Definition dquote : string := String (ascii_of_nat 34) EmptyString.

(** [v is None] *)
Definition is_none (v : pyval) : bool :=
  match v with PNone => true | _ => false end.

Definition type_name (v : pyval) : string :=
  match v with
  | PNone => "NoneType"
  | PBool _ => "bool"
  | PInt _ => "int"
  | PFloat _ => "float"
  | PStr _ => "str"
  | PDateTime _ => "datetime.datetime"
  | PList _ => "list"
  | PDict _ => "dict"
  end.

(** [v.get(k)]: only dicts have the method. *)
Definition method_get (v : pyval) (k : string) : result pyval :=
  match v with
  | PDict d => Ok (dict_get_or_none k d)
  | _ => Raise (AttributeError
                  ("'" +:+ type_name v +:+ "' object has no attribute 'get'"))
  end.

(** [v[k]] with a string key. *)
Definition subscript (v : pyval) (k : string) : result pyval :=
  match v with
  | PDict d =>
      match dict_get k d with
      | Some x => Ok x
      | None => Raise (KeyError k)
      end
  | PStr _ => Raise (TypeError "string indices must be integers")
  | PList _ => Raise (TypeError "list indices must be integers or slices, not str")
  | _ => Raise (TypeError
                  ("'" +:+ type_name v +:+ "' object is not subscriptable"))
  end.

(** [for x in v]: a list yields its items, a dict its keys, a string its
    characters; nothing else can be iterated. *)
Definition iterate (v : pyval) : result (list pyval) :=
  match v with
  | PList l => Ok l
  | PDict d => Ok (map PStr (dict_keys d))
  | PStr s => Ok (map (fun c => PStr (String c EmptyString))
                      (list_ascii_of_string s))
  | _ => Raise (TypeError
                  ("'" +:+ type_name v +:+ "' object is not iterable"))
  end.

Fixpoint mapM {A B : Type} (f : A -> result B) (l : list A) : result (list B) :=
  match l with
  | [] => Ok []
  | x :: rest =>
      match f x with
      | Raise e => Raise e
      | Ok y =>
          match mapM f rest with
          | Raise e => Raise e
          | Ok ys => Ok (y :: ys)
          end
      end
  end.

Definition decimal (n : Z) : string := NilZero.string_of_int (Z.to_int n).

(** [str(dt)] for a datetime: the ISO text with a blank for the [T]. *)
Fixpoint datetime_str (iso : string) : string :=
  match iso with
  | EmptyString => EmptyString
  | String c rest =>
      String (if Ascii.eqb c "T" then " "%char else c) (datetime_str rest)
  end.

Fixpoint join (sep : string) (parts : list string) : string :=
  match parts with
  | [] => EmptyString
  | [x] => x
  | x :: rest => x +:+ sep +:+ join sep rest
  end.

(** [repr(v)] and [str(v)].  Inside containers strings are shown in single
    quotes, without the quote selection and escaping [repr] performs. *)
Fixpoint py_repr (v : pyval) : string :=
  match v with
  | PNone => "None"
  | PBool b => if b then "True" else "False"
  | PInt n => decimal n
  | PFloat r => r
  | PStr s => "'" +:+ s +:+ "'"
  | PDateTime iso => "datetime.datetime.fromisoformat('" +:+ iso +:+ "')"
  | PList l => "[" +:+ join ", " (map py_repr l) +:+ "]"
  | PDict d =>
      "{" +:+ join ", " (map (fun kv => "'" +:+ fst kv +:+ "': "
                                        +:+ py_repr (snd kv)) d) +:+ "}"
  end.

Definition py_str (v : pyval) : string :=
  match v with
  | PStr s => s
  | PDateTime iso => datetime_str iso
  | _ => py_repr v
  end.

(** [str(e)] *)
Definition exn_str (e : exn) : string :=
  match e with
  | AttributeError m | TypeError m | IndexError m | ValueError m
  | OverflowError m | ValidationException m | Exception m => m
  | KeyError k => "'" +:+ k +:+ "'"
  | ValidationError errors =>
      decimal (Z.of_nat (length errors)) +:+ " validation errors"
  | HTTPException c d => decimal c +:+ ": " +:+ d
  | HttpError resp => "<HttpError " +:+ decimal (status resp) +:+ ">"
  | QueueFull => ""
  end.

End Py.

Notation "'do' x <- m ; k" := (Py.bind m (fun x => k))
  (at level 10, x name, m at level 100, k at level 200,
   format "'[v' 'do'  x  <-  m ;  '/' k ']'").

(* ===================================================================== *)
(** * transport/auth.py *)
(* ===================================================================== *)

Module TransportAuth.
Import Py.

(** The two settings the middleware reads ([services/config.py]). *)
Record Settings : Type := mkSettings {
  bearer_token : option string;
  mcp_protocol_version : string
}.

(** A request, as far as the middleware looks at it: the header list the
    server received, names in lower case as ASGI delivers them. *)
Record Request : Type := mkRequest {
  headers : dict string
}.

(** [request.headers.get(name)]: the lookup key is lower-cased, the first
    matching header wins. *)
Definition headers_get (name : string) (request : Request) : option string :=
  dict_get (lower name) (headers request).

(** [settings.bearer_token and token != settings.bearer_token] *)
Definition token_mismatch (settings : Settings) (token : string) : bool :=
  match bearer_token settings with
  | None => false
  | Some configured => str_truthy configured && negb (String.eqb token configured)
  end.

Definition verify_bearer_token (settings : Settings) (request : Request)
  : result string :=
  match headers_get "authorization" request with
  | None => Raise (HTTPException 401 "Authorization header required")
  | Some auth_header =>
      if negb (str_truthy auth_header) then
        Raise (HTTPException 401 "Authorization header required")
      else if negb (startswith "Bearer " auth_header) then
        Raise (HTTPException 401 "Bearer token required")
      else
        match nth_error (split_on " " auth_header) 1 with
        | None => Raise (IndexError "list index out of range")
        | Some token =>
            if token_mismatch settings token then
              Raise (HTTPException 401 "Invalid bearer token")
            else Ok token
        end
  end.

(** [verify_protocol_version] *)
Definition verify_protocol_version (settings : Settings) (request : Request)
  : result string :=
  match headers_get "MCP-Protocol-Version" request with
  | None => Raise (HTTPException 400 "MCP-Protocol-Version header required")
  | Some protocol_version =>
      if negb (str_truthy protocol_version) then
        Raise (HTTPException 400 "MCP-Protocol-Version header required")
      else if negb (String.eqb protocol_version (mcp_protocol_version settings))
      then
        Raise (HTTPException 400
                 ("Unsupported protocol version. Expected: "
                  +:+ mcp_protocol_version settings))
      else Ok protocol_version
  end.

(** Sample configurations and requests. *)
Definition unconfigured_settings : Settings :=
  {| bearer_token := None; mcp_protocol_version := "2025-06-18" |}.

Definition bearer_request (t : string) : Request :=
  {| headers := [("host", "localhost"); ("authorization", "Bearer " +:+ t)] |}.

Definition secured_settings : Settings :=
  {| bearer_token := Some "s3cret"; mcp_protocol_version := "2025-06-18" |}.

Definition versioned_request (v : string) : Request :=
  {| headers := [("mcp-protocol-version", v)] |}.

End TransportAuth.

(* ===================================================================== *)
(** * services/audit.py *)
(* ===================================================================== *)

Module Audit.
Import Py.

Inductive AuditAction : Type := CREATE | UPDATE | DELETE | READ.

Record AuditLogEntry : Type := mkAuditLogEntry {
  timestamp : string;
  operation : string;
  action : AuditAction;
  calendar_id : option string;
  event_id : option string;
  user_id : option string;
  before_state : option (dict pyval);
  after_state : option (dict pyval);
  arguments : option (dict pyval);
  success : bool;
  error : option string
}.

Definition REDACTED : pyval := PStr "***REDACTED***".

Definition sensitive_fields : list string :=
  ["password"; "token"; "secret"; "key"; "credential"].

(** The inner loop of the sanitisers:
    [for key in list(sanitized.keys()):
       if field.lower() in key.lower(): sanitized[key] = "***REDACTED***"] *)
Definition redact_field (field : string) (sanitized : dict pyval) : dict pyval :=
  fold_left
    (fun acc key =>
       if str_in (lower field) (lower key) then dict_set key REDACTED acc else acc)
    (dict_keys sanitized) sanitized.

(** The outer loop, [for field in sensitive_fields]. *)
Definition redact_fields (fields : list string) (sanitized : dict pyval)
  : dict pyval :=
  fold_left (fun acc field => redact_field field acc) fields sanitized.

(** [if not state: return None], then the loops over a shallow copy. *)
Definition _sanitize_state (state : option (dict pyval)) : option (dict pyval) :=
  match state with
  | None => None
  | Some [] => None
  | Some d => Some (redact_fields sensitive_fields d)
  end.

Definition _sanitize_arguments (arguments : option (dict pyval))
  : option (dict pyval) :=
  match arguments with
  | None => None
  | Some [] => None
  | Some d => Some (redact_fields sensitive_fields d)
  end.

Definition _determine_action (operation : string) : AuditAction :=
  if str_in "create" (lower operation) then CREATE
  else if str_in "update" (lower operation) || str_in "patch" (lower operation)
  then UPDATE
  else if str_in "delete" (lower operation) then DELETE
  else READ.

(** The entry [log_operation] builds and appends to the log; [now] is the
    timestamp it reads from the clock. *)
Definition log_operation_entry (now : string) (operation : string)
    (calendar_id event_id : option string)
    (before_state after_state arguments : option (dict pyval))
    (user_id : option string) (success : bool) (error : option string)
  : AuditLogEntry :=
  {| timestamp := now;
     operation := operation;
     action := _determine_action operation;
     calendar_id := calendar_id;
     event_id := event_id;
     user_id := user_id;
     before_state := _sanitize_state before_state;
     after_state := _sanitize_state after_state;
     arguments := _sanitize_arguments arguments;
     success := success;
     error := error |}.

(** A field name is sensitive when some marker word occurs in it, case
    ignored. *)
Definition is_sensitive (key : string) : bool :=
  existsb (fun field => str_in (lower field) (lower key)) sensitive_fields.

(** What the sanitisers do to one top-level field. *)
Definition redact_entry (kv : string * pyval) : string * pyval :=
  (fst kv, if is_sensitive (fst kv) then REDACTED else snd kv).

(** The sanitised form of a state: nothing for a missing or empty state,
    otherwise the same fields in the same order, redacted one by one. *)
Definition top_level_redacted (state : option (dict pyval))
  : option (dict pyval) :=
  match state with
  | None => None
  | Some [] => None
  | Some d => Some (map redact_entry d)
  end.

(** Redaction at every depth, as a check on a value: every dict field with
    a sensitive name, however deeply nested, holds the marker. *)
Fixpoint fully_redacted (v : pyval) : bool :=
  match v with
  | PList items => forallb fully_redacted items
  | PDict entries =>
      forallb
        (fun kv =>
           (if is_sensitive (fst kv)
            then match snd kv with
                 | PStr s => String.eqb s "***REDACTED***"
                 | _ => false
                 end
            else true)
           && fully_redacted (snd kv))
        entries
  | _ => true
  end.

(** A before-state whose secret sits one level down. *)
Definition nested_state : dict pyval :=
  [("summary", PStr "Standup");
   ("creator", PDict [("email", PStr "a@example.com");
                      ("access_token", PStr "ya29.secret")])].

Definition flat_state : dict pyval :=
  [("summary", PStr "Standup");
   ("API_Key", PStr "abc123");
   ("creator", PDict [("access_token", PStr "ya29.secret")])].

End Audit.

(* ===================================================================== *)
(** * adapters/retry.py *)
(* ===================================================================== *)

Module Retry.
Import Py.
Local Open Scope Q_scope.

(** Times and delays are seconds, as exact rationals; the three delay
    settings are floats, as [RetryConfig] declares them. *)
Record RetryConfig : Type := mkRetryConfig {
  max_retries : Z;
  base_delay : Q;
  max_delay : Q;
  exponential_base : Q;
  jitter : bool
}.

(** [RetryConfig()] *)
Definition default_config : RetryConfig :=
  {| max_retries := 3; base_delay := 1; max_delay := 60;
     exponential_base := 2; jitter := true |}.

(** ** QuotaManager *)

Record QuotaManager : Type := mkQuotaManager {
  quota_exceeded_until : option Q;
  request_count : Z;
  quota_reset_time : Q
}.

(** [QuotaManager()] *)
Definition new_quota_manager : QuotaManager :=
  {| quota_exceeded_until := None; request_count := 0; quota_reset_time := 0 |}.

Definition Qltb (a b : Q) : bool := negb (Qle_bool b a).

(** [check_quota], with [current_time] the clock reading. *)
Definition check_quota (current_time : Q) (qm : QuotaManager) : bool :=
  match quota_exceeded_until qm with
  | Some until =>
      if negb (Qeq_bool until 0) && Qltb current_time until then false else true
  | None => true
  end.

(** [handle_quota_exceeded]: [now] is what [time.time()] returns. *)
Definition handle_quota_exceeded (now : Q) (retry_after : option Z)
    (qm : QuotaManager) : QuotaManager :=
  match retry_after with
  | Some ra =>
      if (ra =? 0)%Z then
        {| quota_exceeded_until := Some (now + 60);
           request_count := request_count qm;
           quota_reset_time := quota_reset_time qm |}
      else
        {| quota_exceeded_until := Some (now + inject_Z ra);
           request_count := request_count qm;
           quota_reset_time := quota_reset_time qm |}
  | None =>
      {| quota_exceeded_until := Some (now + 60);
         request_count := request_count qm;
         quota_reset_time := quota_reset_time qm |}
  end.

(** The window a call opens: the retry-after when given and non-zero,
    60 seconds otherwise. *)
Definition quota_window (retry_after : option Z) : Q :=
  match retry_after with
  | Some ra => if (ra =? 0)%Z then 60 else inject_Z ra
  | None => 60
  end.

(** A sequence of [handle_quota_exceeded] calls, each with its clock
    reading and retry-after. *)
Definition handle_all (calls : list (Q * option Z)) (qm : QuotaManager)
  : QuotaManager :=
  fold_left (fun qm call => handle_quota_exceeded (fst call) (snd call) qm)
            calls qm.

(** ** exponential_backoff_retry *)

(** Built-in [min] and [max] on two arguments: the first one wins ties. *)
Definition py_min (a b : Q) : Q := if Qltb b a then b else a.
Definition py_max (a b : Q) : Q := if Qltb a b then b else a.

(** *** Float range

    Delays are floats in the code and exact rationals here.  What is kept
    of the float format is its range: a result whose magnitude reaches
    [float_limit], the least one that rounds to infinity, cannot be
    represented.  A power out of range raises [OverflowError], and so does
    the conversion of an int out of range to a float. *)
Definition float_limit : Q := inject_Z (2 ^ 1024 - 2 ^ 970)%Z.

Definition in_float_range (x : Q) : bool := Qltb (Qabs x) float_limit.

(** [x ** n], a float to the power of a non-negative int. *)
Definition float_pow (x : Q) (n : nat) : result Q :=
  let power := x ^ Z.of_nat n in
  if in_float_range power then Ok power
  else Raise (OverflowError "(34, 'Numerical result out of range')").

(** [min(base_delay * exponential_base ** attempt, max_delay)], scaled by
    [0.5 + random.random() * 0.5] when jitter is on.  The product of two
    floats does not raise: out of range it is an infinity, which [min]
    replaces by [max_delay] as it replaces the exact product. *)
Definition backoff_delay (config : RetryConfig) (attempt : nat) (rnd : Q)
  : result Q :=
  do power <- float_pow (exponential_base config) attempt;
  let delay := py_min (base_delay config * power) (max_delay config) in
  Ok (if jitter config then delay * ((1 # 2) + rnd * (1 # 2)) else delay).

(** The delay is a float until [max] picks the Retry-After seconds, which
    are an int. *)
Inductive number : Type :=
| Float (x : Q)
| Int (n : Z).

Definition seconds (delay : number) : Q :=
  match delay with
  | Float x => x
  | Int n => inject_Z n
  end.

(** [f"{delay:.2f}"] in the log line before the sleep: an int is
    converted to a float to be formatted. *)
Definition format_delay (delay : number) : result unit :=
  match delay with
  | Float _ => Ok tt
  | Int n =>
      if in_float_range (inject_Z n) then Ok tt
      else Raise (OverflowError "int too large to convert to float")
  end.

Definition non_retryable_status (status_code : Z) : bool :=
  existsb (Z.eqb status_code) [400; 401; 403; 404]%Z.

Definition retryable_status (status_code : Z) : bool :=
  existsb (Z.eqb status_code) [429; 500; 502; 503; 504]%Z.

(** What the engine does, in order: invocations of the callable and
    backoff sleeps. *)
Inductive event : Type :=
| Called (attempt : nat)
| Slept (delay : Q).

Definition run (A : Type) : Type := (result A * list event)%type.

Definition after {A : Type} (events : list event) (r : run A) : run A :=
  (fst r, (events ++ snd r)%list).

Section Engine.

(** [int(s)] on a header value, the interpreter's reading of a string as
    an integer; [None] stands for its [ValueError]. *)
Variable py_int : string -> option Z.

(** The Retry-After handling: with a header that is present, non-empty
    and an integer, the delay becomes [max(delay, retry_after_seconds)],
    which is the int only when it is the greater. *)
Definition apply_retry_after (resp : Response) (delay : Q) : number :=
  match dict_get "retry-after" (resp_headers resp) with
  | Some retry_after =>
      if str_truthy retry_after then
        match py_int retry_after with
        | Some retry_after_seconds =>
            if Qltb delay (inject_Z retry_after_seconds)
            then Int retry_after_seconds
            else Float delay
        | None => Float delay
        end
      else Float delay
  | None => Float delay
  end.

(** The loop [for attempt in range(config.max_retries + 1)].
    [func k] is the outcome of the invocation made at attempt [k],
    [random k] the value [random.random()] yields there, [remaining] the
    iterations left, [last_exception] the variable of that name.  An
    error raised while a handler computes or logs the delay leaves the
    loop: it is not caught by the handler beside it. *)
Fixpoint retry_loop {A : Type} (config : RetryConfig)
    (func : nat -> result A) (random : nat -> Q)
    (remaining attempt : nat) (last_exception : option exn) : run A :=
  match remaining with
  | O =>
      match last_exception with
      | Some e => (Raise e, [])
      | None => (Raise (TypeError "exceptions must derive from BaseException"), [])
      end
  | S remaining' =>
      match func attempt with
      | Ok result => (Ok result, [Called attempt])
      | Raise (HttpError resp) =>
          if non_retryable_status (status resp) then
            (Raise (HttpError resp), [Called attempt])
          else if retryable_status (status resp) then
            if (Z.of_nat attempt >=? max_retries config)%Z then
              (Raise (HttpError resp), [Called attempt])
            else
              match backoff_delay config attempt (random attempt) with
              | Raise error => (Raise error, [Called attempt])
              | Ok delay =>
                  let delay := apply_retry_after resp delay in
                  match format_delay delay with
                  | Raise error => (Raise error, [Called attempt])
                  | Ok _ =>
                      after [Called attempt; Slept (seconds delay)]
                        (retry_loop config func random remaining' (S attempt)
                           (Some (HttpError resp)))
                  end
              end
          else (Raise (HttpError resp), [Called attempt])
      | Raise e =>
          if (Z.of_nat attempt >=? max_retries config)%Z then
            (Raise e, [Called attempt])
          else
            match backoff_delay config attempt (random attempt) with
            | Raise error => (Raise error, [Called attempt])
            | Ok delay =>
                after [Called attempt; Slept delay]
                  (retry_loop config func random remaining' (S attempt) (Some e))
            end
      end
  end.

Definition exponential_backoff_retry {A : Type} (config : RetryConfig)
    (func : nat -> result A) (random : nat -> Q) : run A :=
  retry_loop config func random (Z.to_nat (max_retries config + 1)) 0 None.

(** *** Reading a run *)

(** The sleep the loop takes after the failure of attempt [attempt] when
    attempts remain, or the error that computing or logging it raises. *)
Definition delay_after {A : Type} (config : RetryConfig)
    (func : nat -> result A) (random : nat -> Q) (attempt : nat) : result Q :=
  match func attempt with
  | Raise (HttpError resp) =>
      do delay <- backoff_delay config attempt (random attempt);
      let delay := apply_retry_after resp delay in
      do _ <- format_delay delay;
      Ok (seconds delay)
  | _ => backoff_delay config attempt (random attempt)
  end.

End Engine.

(** The failures after which the loop goes round again while attempts
    remain: an HTTP error with one of the retried statuses, and every
    exception that is not an HTTP error. *)
Definition retried (e : exn) : bool :=
  match e with
  | HttpError resp =>
      negb (non_retryable_status (status resp)) && retryable_status (status resp)
  | _ => true
  end.

(** Failed rounds from attempt [first] on, one for each delay: call,
    sleep, call, sleep, ... *)
Fixpoint failed_rounds (first : nat) (delays : list Q) : list event :=
  match delays with
  | [] => []
  | delay :: rest => Called first :: Slept delay :: failed_rounds (S first) rest
  end.

Definition calls (trace : list event) : nat :=
  length (List.filter (fun ev => match ev with Called _ => true | _ => false end)
                      trace).

Definition sleeps (trace : list event) : nat :=
  length (List.filter (fun ev => match ev with Slept _ => true | _ => false end)
                      trace).

(** ** RateLimiter *)

Record RateLimiter : Type := mkRateLimiter {
  max_requests_per_second : Q;
  min_interval : Q;
  last_request_time : Q
}.

(** [RateLimiter(max_requests_per_second)]; [None] stands for the
    [ZeroDivisionError] of [1.0 / 0]. *)
Definition new_rate_limiter (max_requests_per_second : Q) : option RateLimiter :=
  if Qeq_bool max_requests_per_second 0 then None
  else Some {| max_requests_per_second := max_requests_per_second;
               min_interval := 1 / max_requests_per_second;
               last_request_time := 0 |}.

(** The sleep [wait_if_needed] asks for when the clock reads
    [current_time], if any. *)
Definition sleep_needed (current_time : Q) (rl : RateLimiter) : option Q :=
  let time_since_last := current_time - last_request_time rl in
  if Qltb time_since_last (min_interval rl)
  then Some (min_interval rl - time_since_last)
  else None.

(** [wait_if_needed]: [current_time] is the first clock reading,
    [resumed] the one taken after the sleep, if any.  Returned are the
    sleep asked for and the limiter afterwards. *)
Definition wait_if_needed (current_time resumed : Q) (rl : RateLimiter)
  : option Q * RateLimiter :=
  (sleep_needed current_time rl,
   {| max_requests_per_second := max_requests_per_second rl;
      min_interval := min_interval rl;
      last_request_time := resumed |}).

(** A stand-in for [int] to run the engine on: it reads ASCII numerals
    (blanks around, a sign, decimal digits, single underscores between
    digits), on which it agrees with the interpreter up to the latter's
    limit on the number of digits, and it rejects everything else. *)
Definition is_blank (c : ascii) : bool :=
  match c with
  | "009" | "010" | "011" | "012" | "013" | " " => true
  | _ => false
  end%char.

Definition digit_value (c : ascii) : option Z :=
  let n := nat_of_ascii c in
  if (Nat.leb 48 n && Nat.leb n 57)%bool then Some (Z.of_nat (n - 48)) else None.

Fixpoint lstrip (s : string) : string :=
  match s with
  | String c rest => if is_blank c then lstrip rest else s
  | EmptyString => EmptyString
  end.

Fixpoint rstrip (s : string) : string :=
  match s with
  | EmptyString => EmptyString
  | String c rest =>
      match rstrip rest with
      | EmptyString => if is_blank c then EmptyString else String c EmptyString
      | rest' => String c rest'
      end
  end.

(** Digits after the first one; [after_digit] tells whether the previous
    character was a digit (an underscore must sit between two digits). *)
Fixpoint int_digits (s : string) (acc : Z) (after_digit : bool) : option Z :=
  match s with
  | EmptyString => if after_digit then Some acc else None
  | String c rest =>
      match digit_value c with
      | Some d => int_digits rest (10 * acc + d)%Z true
      | None =>
          if (Ascii.eqb c "_" && after_digit)%bool
          then int_digits rest acc false
          else None
      end
  end.

Definition ascii_int (s : string) : option Z :=
  match rstrip (lstrip s) with
  | String "-" body => option_map Z.opp (int_digits body 0%Z false)
  | String "+" body => int_digits body 0%Z false
  | body => int_digits body 0%Z false
  end.

(** Sample failures. *)
Definition unauthorized : Response := {| status := 401; resp_headers := [] |}.

Definition rate_limited (retry_after : string) : Response :=
  {| status := 429; resp_headers := [("retry-after", retry_after)] |}.

(** The adapter's configuration ([GoogleCalendarAdapter.__init__]). *)
Definition adapter_config : RetryConfig :=
  {| max_retries := 3; base_delay := 1; max_delay := 30;
     exponential_base := 2; jitter := true |}.

Definition unavailable : Response := {| status := 503; resp_headers := [] |}.

(** A 5xx failure outside the retried statuses, with a Retry-After. *)
Definition not_implemented : Response :=
  {| status := 501; resp_headers := [("retry-after", "2")] |}.

(** The numeral of [10 ** 400]: an integer, and beyond the float range. *)
Definition zeros (n : nat) : string := string_of_list_ascii (repeat "0"%char n).

Definition googol4 : string := "1" +:+ zeros 400.

(** A callable that fails with 503 until attempt [k], then returns. *)
Definition flaky (k : nat) (attempt : nat) : result pyval :=
  if Nat.ltb attempt k then Raise (HttpError unavailable) else Ok (PStr "success").

(** A run without jitter, to have fixed delays. *)
Definition steady_config : RetryConfig :=
  {| max_retries := 3; base_delay := 1; max_delay := 30;
     exponential_base := 2; jitter := false |}.

(** The default limiter ([max_requests_per_second = 10]) after a request
    at time 100. *)
Definition busy_limiter : RateLimiter :=
  {| max_requests_per_second := 10; min_interval := 1 / 10;
     last_request_time := 100 |}.

End Retry.

(* ===================================================================== *)
(** * adapters/workers.py *)
(* ===================================================================== *)

Module Workers.
Import Py.

(** A unit of work.  The callable is named rather than carried: the
    submission path never runs it. *)
Record WorkerTask : Type := mkWorkerTask {
  id : string;
  func : string;
  args : list pyval;
  kwargs : dict pyval;
  created_at : string;
  priority : Z
}.

(** ** asyncio.Queue *)

(** [asyncio.Queue(maxsize)]: the items waiting, oldest first. *)
Record Queue : Type := mkQueue {
  maxsize : Z;
  items : list WorkerTask
}.

Definition qsize (q : Queue) : Z := Z.of_nat (length (items q)).

(** [Queue.full()]: a queue with [maxsize <= 0] is never full. *)
Definition full (q : Queue) : bool :=
  if maxsize q <=? 0 then false else qsize q >=? maxsize q.

Definition enqueue (item : WorkerTask) (q : Queue) : Queue :=
  {| maxsize := maxsize q; items := (items q ++ [item])%list |}.

(** [Queue.put_nowait(item)] raises [QueueFull] on a full queue. *)
Definition put_nowait (item : WorkerTask) (q : Queue) : result Queue :=
  if full q then Raise QueueFull else Ok (enqueue item q).

(** What awaiting a coroutine comes to, seen from its caller: it finishes
    (returning or raising), or it is parked until some other task acts. *)
Inductive wait_reason : Type :=
| FreeSlot.

Inductive awaited (A : Type) : Type :=
| Finished (r : result A)
| Parked (on : wait_reason).
Arguments Finished {A} r.
Arguments Parked {A} on.

(** [await Queue.put(item)]: [while self.full(): await putter], then
    [put_nowait].  On a full queue the caller is parked on a putter future
    until a consumer frees a slot. *)
Definition put (item : WorkerTask) (q : Queue) : awaited Queue :=
  if full q then Parked FreeSlot else Finished (put_nowait item q).

(** ** WorkerPool *)

Record WorkerPool : Type := mkWorkerPool {
  max_workers : Z;
  queue : Queue;
  workers : list string;
  is_running : bool;
  completed_tasks : Z;
  failed_tasks : Z
}.

(** [WorkerPool(max_workers, max_requests_per_second, queue_size)]; the
    rate limiter and quota manager play no part in submission. *)
Definition new_pool (max_workers queue_size : Z) : WorkerPool :=
  {| max_workers := max_workers;
     queue := {| maxsize := queue_size; items := [] |};
     workers := [];
     is_running := false;
     completed_tasks := 0;
     failed_tasks := 0 |}.

(** [WorkerPool()] *)
Definition default_pool : WorkerPool := new_pool 5 100.

Definition worker_name (i : nat) : string :=
  "worker-" +:+ NilZero.string_of_uint (Nat.to_uint i).

(** [start]: one worker task per slot, unless already running. *)
Definition start (pool : WorkerPool) : WorkerPool :=
  if is_running pool then pool
  else
    {| max_workers := max_workers pool;
       queue := queue pool;
       workers :=
         (workers pool
          ++ map worker_name (seq 0 (Z.to_nat (max_workers pool))))%list;
       is_running := true;
       completed_tasks := completed_tasks pool;
       failed_tasks := failed_tasks pool |}.

Definition with_queue (q : Queue) (pool : WorkerPool) : WorkerPool :=
  {| max_workers := max_workers pool;
     queue := q;
     workers := workers pool;
     is_running := is_running pool;
     completed_tasks := completed_tasks pool;
     failed_tasks := failed_tasks pool |}.

(** [submit_task].  [now] is the clock reading in ISO form, [func] the
    callable's name (standing in for [id(func)] in a generated task id).
    The pool after the call is returned alongside what the submitter
    observes. *)
Definition submit_task (pool : WorkerPool) (now : string) (func : string)
    (args : list pyval) (task_id : option string) (priority : Z)
    (kwargs : dict pyval) : awaited string * WorkerPool :=
  let pool := if negb (is_running pool) then start pool else pool in
  let task_id :=
    match task_id with
    | Some t => if str_truthy t then t else "task-" +:+ now +:+ "-" +:+ func
    | None => "task-" +:+ now +:+ "-" +:+ func
    end in
  let task :=
    {| id := task_id; func := func; args := args; kwargs := kwargs;
       created_at := now; priority := priority |} in
  match put task (queue pool) with
  | Finished (Ok q) => (Finished (Ok task_id), with_queue q pool)
  | Finished (Raise QueueFull) =>
      (Finished (Raise (Exception "Worker pool queue is full")), pool)
  | Finished (Raise e) => (Finished (Raise e), pool)
  | Parked on => (Parked on, pool)
  end.

(** [stop]: nothing on a pool that is not running; otherwise the worker
    tasks are cancelled and forgotten.  The queue is not touched. *)
Definition stop (pool : WorkerPool) : WorkerPool :=
  if negb (is_running pool) then pool
  else
    {| max_workers := max_workers pool;
       queue := queue pool;
       workers := [];
       is_running := false;
       completed_tasks := completed_tasks pool;
       failed_tasks := failed_tasks pool |}.

(** The pool's quota manager and rate limiter. *)
Record Limits : Type := mkLimits {
  quota_manager : Retry.QuotaManager;
  rate_limiter : Retry.RateLimiter
}.

(** The clock readings one pass takes: in [check_quota], at the start of
    [wait_if_needed], after its sleep, and in [handle_quota_exceeded]. *)
Record Readings : Type := mkReadings {
  at_check : Q;
  at_rate : Q;
  resumed : Q;
  at_failure : Q
}.

(** ["quota" in str(e).lower() or "rate limit" in str(e).lower()] *)
Definition mentions_quota (e : exn) : bool :=
  str_in "quota" (lower (exn_str e)) || str_in "rate limit" (lower (exn_str e)).

(** The limits after a call has come to [outcome]: the limiter has noted
    the request, and a failure that mentions quota opens the default
    window. *)
Definition limits_after {A : Type} (clock : Readings) (outcome : result A)
    (limits : Limits) : Limits :=
  {| quota_manager :=
       match outcome with
       | Raise e =>
           if mentions_quota e
           then Retry.handle_quota_exceeded (at_failure clock) None
                  (quota_manager limits)
           else quota_manager limits
       | Ok _ => quota_manager limits
       end;
     rate_limiter :=
       snd (Retry.wait_if_needed (at_rate clock) (resumed clock)
              (rate_limiter limits)) |}.

(** What [execute_sync] comes to: the result or exception, the pool and
    limits afterwards, and whether the callable was invoked. *)
Record Executed : Type := mkExecuted {
  result_of : result pyval;
  pool_after : WorkerPool;
  limits_of : Limits;
  invoked : bool
}.

(** [execute_sync].  [outcome] is what awaiting the callable (under the
    timeout) comes to, should it be invoked. *)
Definition execute_sync (pool : WorkerPool) (limits : Limits)
    (clock : Readings) (outcome : result pyval) : Executed :=
  let pool := if negb (is_running pool) then start pool else pool in
  if negb (Retry.check_quota (at_check clock) (quota_manager limits)) then
    {| result_of := Raise (Exception "API quota exceeded");
       pool_after := pool; limits_of := limits; invoked := false |}
  else
    {| result_of := outcome;
       pool_after := pool;
       limits_of := limits_after clock outcome limits;
       invoked := true |}.

(** ** The pool at work

    The workers and the submitters are coroutines on one event loop that
    share the queue, the counters and the quota manager.  Each runs
    without interruption from one suspension point to the next, and any
    of the others may run in between.  An [action] is one such stretch of
    [_worker] or [submit_task]; a run of the pool is a sequence of actions
    in any order.  The rate limiter and the thread pool only delay a call
    and are left out; [stop], which cancels the workers, is not among the
    actions. *)

(** Where a worker is in its loop body. *)
Inductive worker_state : Type :=
| Idle
| Holding (task : WorkerTask)
| Requeueing (task : WorkerTask)
| Running (task : WorkerTask).

(** [Idle]: in [wait_for(self.queue.get())].  [Holding]: [get] has handed
    over the task and the worker has not run since.  [Requeueing]: parked
    in [self.queue.put(task)] on a full queue.  [Running]: past the quota
    check, in the rate limiter or in the call itself. *)
Record Activity : Type := mkActivity {
  pool : WorkerPool;
  quota : Retry.QuotaManager;
  states : list worker_state;
  submitters : list WorkerTask
}.

Inductive action : Type :=
| Submit (task : WorkerTask)
| SubmitterResumes (i : nat)
| Get (w : nat)
| Proceed (w : nat) (now : Q)
| PutterResumes (w : nat)
| Returns (w : nat) (outcome : result pyval) (now : Q)
| QuotaExceeded (now : Q) (retry_after : option Z).

(** [Submit]: [submit_task] with the task it has built, up to its
    [queue.put]; on a full queue the submitter is parked with the task.
    [SubmitterResumes i]: the [i]-th parked submitter is woken and tries
    again.  [Get w]: the [queue.get()] of worker [w] returns.
    [Proceed w now]: worker [w] runs on from [wait_for] with the clock at
    [now]: the quota check, then either the put-back or the way to the
    call.  [PutterResumes w]: worker [w], parked in the put-back, is woken
    and tries again.  [Returns w outcome now]: the call of worker [w] has
    come to [outcome]; counters and quota marker are updated.
    [QuotaExceeded]: another coroutine ([execute_sync] after a failure)
    calls [handle_quota_exceeded] on the shared quota manager. *)

Definition with_pool (p : WorkerPool) (a : Activity) : Activity :=
  {| pool := p; quota := quota a; states := states a;
     submitters := submitters a |}.

Definition with_state (w : nat) (st : worker_state) (a : Activity) : Activity :=
  {| pool := pool a; quota := quota a; states := <[w := st]> (states a);
     submitters := submitters a |}.

Definition with_counts (completed failed : Z) (pool : WorkerPool) : WorkerPool :=
  {| max_workers := max_workers pool;
     queue := queue pool;
     workers := workers pool;
     is_running := is_running pool;
     completed_tasks := completed;
     failed_tasks := failed |}.

(** One action.  Returned with the pool's new state is the task whose
    call has ended in this action, if any.  An action that does not apply
    (no such worker, a worker that is elsewhere in its loop, an empty
    queue) changes nothing. *)
Definition step (act : action) (a : Activity) : Activity * list WorkerTask :=
  match act with
  | Submit task =>
      let a :=
        if negb (is_running (pool a)) then
          {| pool := start (pool a); quota := quota a;
             states :=
               (states a
                ++ repeat Idle (Z.to_nat (max_workers (pool a))))%list;
             submitters := submitters a |}
        else a in
      match put task (queue (pool a)) with
      | Finished (Ok q) => (with_pool (with_queue q (pool a)) a, [])
      | Finished (Raise _) => (a, [])
      | Parked _ =>
          ({| pool := pool a; quota := quota a; states := states a;
              submitters := (submitters a ++ [task])%list |}, [])
      end
  | SubmitterResumes i =>
      match submitters a !! i with
      | Some task =>
          match put task (queue (pool a)) with
          | Finished (Ok q) =>
              ({| pool := with_queue q (pool a); quota := quota a;
                  states := states a;
                  submitters := base.delete i (submitters a) |}, [])
          | Finished (Raise _) =>
              ({| pool := pool a; quota := quota a; states := states a;
                  submitters := base.delete i (submitters a) |}, [])
          | Parked _ => (a, [])
          end
      | None => (a, [])
      end
  | Get w =>
      match states a !! w, items (queue (pool a)) with
      | Some Idle, task :: rest =>
          (with_state w (Holding task)
             (with_pool
                (with_queue {| maxsize := maxsize (queue (pool a));
                               items := rest |} (pool a)) a), [])
      | _, _ => (a, [])
      end
  | Proceed w now =>
      match states a !! w with
      | Some (Holding task) =>
          if negb (Retry.check_quota now (quota a)) then
            match put task (queue (pool a)) with
            | Finished (Ok q) =>
                (with_state w Idle (with_pool (with_queue q (pool a)) a), [])
            | Finished (Raise _) => (with_state w Idle a, [])
            | Parked _ => (with_state w (Requeueing task) a, [])
            end
          else (with_state w (Running task) a, [])
      | _ => (a, [])
      end
  | PutterResumes w =>
      match states a !! w with
      | Some (Requeueing task) =>
          match put task (queue (pool a)) with
          | Finished (Ok q) =>
              (with_state w Idle (with_pool (with_queue q (pool a)) a), [])
          | Finished (Raise _) => (with_state w Idle a, [])
          | Parked _ => (a, [])
          end
      | _ => (a, [])
      end
  | Returns w outcome now =>
      match states a !! w with
      | Some (Running task) =>
          match outcome with
          | Ok _ =>
              (with_state w Idle
                 (with_pool
                    (with_counts (completed_tasks (pool a) + 1)
                       (failed_tasks (pool a)) (pool a)) a), [task])
          | Raise e =>
              ({| pool := with_counts (completed_tasks (pool a))
                            (failed_tasks (pool a) + 1) (pool a);
                  quota :=
                    if mentions_quota e
                    then Retry.handle_quota_exceeded now None (quota a)
                    else quota a;
                  states := <[w := Idle]> (states a);
                  submitters := submitters a |}, [task])
          end
      | _ => (a, [])
      end
  | QuotaExceeded now retry_after =>
      ({| pool := pool a;
          quota := Retry.handle_quota_exceeded now retry_after (quota a);
          states := states a; submitters := submitters a |}, [])
  end.

(** A run: the actions in order.  Returned are the final state and the
    tasks whose calls have ended, in that order. *)
Fixpoint run (acts : list action) (a : Activity) : Activity * list WorkerTask :=
  match acts with
  | [] => (a, [])
  | act :: rest =>
      let (a1, ended1) := step act a in
      let (a2, ended2) := run rest a1 in
      (a2, (ended1 ++ ended2)%list)
  end.

(** The tasks submitted in a run. *)
Definition submitted (acts : list action) : list WorkerTask :=
  flat_map (fun act => match act with Submit task => [task] | _ => [] end) acts.

(** The task a worker has in hand. *)
Definition in_hand (st : worker_state) : list WorkerTask :=
  match st with
  | Idle => []
  | Holding task | Requeueing task | Running task => [task]
  end.

(** The tasks the pool still owes: waiting in the queue, parked with
    their submitter, or in a worker's hand. *)
Definition pending (a : Activity) : list WorkerTask :=
  (items (queue (pool a)) ++ submitters a ++ flat_map in_hand (states a))%list.

Definition running (st : worker_state) : bool :=
  match st with
  | Running _ => true
  | _ => false
  end.

(** The queue respects its capacity, as every [asyncio.Queue] does. *)
Definition within_capacity (q : Queue) : Prop :=
  maxsize q <= 0 \/ qsize q <= maxsize q.

(** Fresh limits, and sample clock readings. *)
Definition fresh_limits : Limits :=
  {| quota_manager := Retry.new_quota_manager;
     rate_limiter := Retry.busy_limiter |}.

Definition readings (t : Q) : Readings :=
  {| at_check := t; at_rate := t; resumed := t; at_failure := t |}.

(** A pool whose queue holds [n] waiting tasks. *)
Definition filler (i : nat) : WorkerTask :=
  {| id := "task-" +:+ NilZero.string_of_uint (Nat.to_uint i);
     func := "api_call"; args := []; kwargs := [];
     created_at := "2024-01-15T10:00:00"; priority := 0 |}.

Definition pool_with_backlog (n : nat) : WorkerPool :=
  with_queue {| maxsize := 100; items := map filler (seq 0 n) |}
             (start default_pool).

(** A running pool of one worker whose queue of two is full, with the
    quota window closed until 1060. *)
Definition crowded : Activity :=
  {| pool := with_queue {| maxsize := 2; items := map filler (seq 0 2) |}
               (start (new_pool 1 2));
     quota := Retry.handle_quota_exceeded 1000 None Retry.new_quota_manager;
     states := [Idle];
     submitters := [] |}.

(** A submitter arrives at the full queue, the worker takes a task, the
    submitter takes the free slot, and the worker, finding the window
    closed, has nowhere to put its task back. *)
Definition squeeze : list action :=
  [Submit (filler 7); Get 0; SubmitterResumes 0; Proceed 0 1030;
   PutterResumes 0].

End Workers.

(* ===================================================================== *)
(** * tools/schemas.py and tools/validators.py *)
(* ===================================================================== *)

Module Schemas.
Import Py.

(** ** Model validation

    The schemas are pydantic models.  What the library does with a model
    class is modelled here as far as the schemas use it: fields are
    handled in declaration order; a field missing from the input takes its
    default, or is an error when required; a field present in the input is
    coerced to its annotated type and then handed to the validators
    registered for it, together with [values], the fields accepted so far
    (never the field itself, nor any declared after it); keys that are no
    field are dropped; all errors are collected.  The project runs on
    pydantic 2 ([services/config.py] needs [pydantic_settings]), where a
    validator also sees a value given as [None]. *)

(** A field validator: [validator(cls, v, values)]. *)
Definition validator : Type := pyval -> dict pyval -> result pyval.

Record Field : Type := mkField {
  name : string;
  required : bool;
  default : pyval;
  annotation : pyval -> option pyval;
  validators : list validator
}.

Definition errors : Type := list (string * string).

Fixpoint run_validators (vs : list validator) (v : pyval) (values : dict pyval)
  : result pyval :=
  match vs with
  | [] => Ok v
  | f :: rest =>
      match f v values with
      | Ok v' => run_validators rest v' values
      | Raise e => Raise e
      end
  end.

Definition validate_field (raw : dict pyval) (st : dict pyval * errors)
    (f : Field) : dict pyval * errors :=
  let (values, errs) := st in
  match dict_get (name f) raw with
  | None =>
      if required f then (values, (errs ++ [(name f, "Field required")])%list)
      else (dict_set (name f) (default f) values, errs)
  | Some x =>
      match annotation f x with
      | None => (values, (errs ++ [(name f, "Input should be a valid value")])%list)
      | Some v =>
          match run_validators (validators f) v values with
          | Ok v' => (dict_set (name f) v' values, errs)
          | Raise e => (values, (errs ++ [(name f, exn_str e)])%list)
          end
      end
  end.

(** Calling the model class on the raw keyword arguments: the accepted
    field values, every declared field included, or the collected errors. *)
Definition validate_fields (fields : list Field) (raw : dict pyval)
  : result (dict pyval) :=
  match fold_left (validate_field raw) fields ([], []) with
  | (values, []) => Ok values
  | (_, errs) => Raise (ValidationError errs)
  end.

(** A model instance: its field values and the names of the fields that
    were given in the input. *)
Record BaseModel : Type := mkBaseModel {
  model_fields : dict pyval;
  model_fields_set : list string
}.

Definition construct (fields : list Field) (raw : dict pyval)
  : result BaseModel :=
  do values <- validate_fields fields raw;
  Ok {| model_fields := values;
        model_fields_set :=
          filter (fun k => dict_contains k raw) (map name fields) |}.

(** [instance.dict()]: every field, set or not; nested models are kept as
    their own field dicts. *)
Definition dict_ (m : BaseModel) : dict pyval := model_fields m.

(** ** Annotations *)

Section Annotations.
(** The library's reading of a value that is not a [datetime] object as
    a datetime (ISO 8601 text, epoch numbers); the result is the
    [isoformat()] of the datetime read. *)
Variable parse_datetime : pyval -> option string.

Definition t_str (v : pyval) : option pyval :=
  match v with PStr _ => Some v | _ => None end.

Definition t_datetime (v : pyval) : option pyval :=
  match v with
  | PDateTime _ => Some v
  | _ => option_map PDateTime (parse_datetime v)
  end.

Definition t_bool (v : pyval) : option pyval :=
  match v with
  | PBool _ => Some v
  | PInt 0 => Some (PBool false)
  | PInt 1 => Some (PBool true)
  | PFloat r =>
      if String.eqb r "0.0" then Some (PBool false)
      else if String.eqb r "1.0" then Some (PBool true) else None
  | PStr s =>
      if existsb (String.eqb (lower s)) ["0"; "off"; "f"; "false"; "n"; "no"]
      then Some (PBool false)
      else if existsb (String.eqb (lower s)) ["1"; "on"; "t"; "true"; "y"; "yes"]
      then Some (PBool true) else None
  | _ => None
  end.

Definition t_enum (members : list string) (v : pyval) : option pyval :=
  match v with
  | PStr s => if existsb (String.eqb s) members then Some v else None
  | _ => None
  end.

Definition t_optional (t : pyval -> option pyval) (v : pyval) : option pyval :=
  match v with PNone => Some PNone | _ => t v end.

Fixpoint all_some {A : Type} (l : list (option A)) : option (list A) :=
  match l with
  | [] => Some []
  | None :: _ => None
  | Some x :: rest => option_map (cons x) (all_some rest)
  end.

Definition t_list (t : pyval -> option pyval) (v : pyval) : option pyval :=
  match v with
  | PList l => option_map PList (all_some (map t l))
  | _ => None
  end.

Definition t_dict_any (v : pyval) : option pyval :=
  match v with PDict _ => Some v | _ => None end.

Definition t_dict_str (v : pyval) : option pyval :=
  match v with
  | PDict d =>
      if forallb (fun kv => match snd kv with PStr _ => true | _ => false end) d
      then Some v else None
  | _ => None
  end.

Definition t_model (fields : list Field) (v : pyval) : option pyval :=
  match v with
  | PDict d =>
      match validate_fields fields d with
      | Ok values => Some (PDict values)
      | Raise _ => None
      end
  | _ => None
  end.

Definition opt (name : string) (t : pyval -> option pyval) (default : pyval)
  : Field :=
  {| name := name; required := false; default := default;
     annotation := t_optional t; validators := [] |}.

Definition req (name : string) (t : pyval -> option pyval) : Field :=
  {| name := name; required := true; default := PNone;
     annotation := t; validators := [] |}.

(** ** The schemas *)

Definition EventVisibility : list string := ["default"; "public"; "private"].
Definition EventStatus : list string := ["tentative"; "confirmed"; "cancelled"].
Definition AttendeeStatus : list string :=
  ["needsAction"; "declined"; "tentative"; "accepted"].

Definition Attendee : list Field :=
  [ req "email" t_str;
    opt "displayName" t_str PNone;
    opt "optional" t_bool (PBool false);
    opt "responseStatus" (t_enum AttendeeStatus) (PStr "needsAction");
    opt "comment" t_str PNone ].

(** [EventDateTime.validate_datetime_or_date] *)
Definition validate_datetime_or_date : validator :=
  fun v values =>
    if is_none v && negb (truthy (dict_get_or_none "date" values)) then
      Raise (ValueError "Either dateTime or date must be provided")
    else if negb (is_none v) && truthy (dict_get_or_none "date" values) then
      Raise (ValueError "Cannot specify both dateTime and date")
    else Ok v.

Definition EventDateTime : list Field :=
  [ {| name := "dateTime"; required := false; default := PNone;
       annotation := t_optional t_datetime;
       validators := [validate_datetime_or_date] |};
    {| name := "date"; required := false; default := PNone;
       annotation := t_optional t_str;
       validators := [validate_datetime_or_date] |};
    opt "timeZone" t_str PNone ].

Definition Recurrence : list Field :=
  [ req "rrule" (t_list t_str);
    opt "exdate" (t_list t_str) PNone;
    opt "rdate" (t_list t_str) PNone ].

Definition CreateEventSchema : list Field :=
  [ req "calendarId" t_str;
    req "summary" t_str;
    opt "description" t_str PNone;
    req "start" (t_model EventDateTime);
    req "end" (t_model EventDateTime);
    opt "location" t_str PNone;
    opt "attendees" (t_list (t_model Attendee)) PNone;
    opt "visibility" (t_enum EventVisibility) (PStr "default");
    opt "status" (t_enum EventStatus) (PStr "confirmed");
    opt "recurrence" (t_model Recurrence) PNone;
    opt "reminders" t_dict_any PNone;
    opt "conferenceData" t_dict_any PNone ].

Definition UpdateEventSchema : list Field :=
  [ req "calendarId" t_str;
    req "eventId" t_str;
    opt "summary" t_str PNone;
    opt "description" t_str PNone;
    opt "start" (t_model EventDateTime) PNone;
    opt "end" (t_model EventDateTime) PNone;
    opt "location" t_str PNone;
    opt "attendees" (t_list (t_model Attendee)) PNone;
    opt "visibility" (t_enum EventVisibility) PNone;
    opt "status" (t_enum EventStatus) PNone;
    opt "recurrence" (t_model Recurrence) PNone;
    opt "reminders" t_dict_any PNone;
    opt "conferenceData" t_dict_any PNone ].

Definition DeleteEventSchema : list Field :=
  [ req "calendarId" t_str;
    req "eventId" t_str;
    opt "sendUpdates" t_str (PStr "all") ].

(** [FreeBusyQuerySchema.validate_items] *)
Definition validate_items : validator :=
  fun v _ =>
    if negb (truthy v) then
      Raise (ValueError "At least one calendar must be specified")
    else
      match v with
      | PList items =>
          if forallb (fun item => match item with
                                  | PDict d => dict_contains "id" d
                                  | _ => false
                                  end) items
          then Ok v
          else Raise (ValueError ("Each item must be a dict with an " +:+ dquote
                             +:+ "id" +:+ dquote +:+ " key"))
      | _ => Ok v
      end.

Definition FreeBusyQuerySchema : list Field :=
  [ req "timeMin" t_datetime;
    req "timeMax" t_datetime;
    opt "timeZone" t_str PNone;
    {| name := "items"; required := true; default := PNone;
       annotation := t_list t_dict_str;
       validators := [validate_items] |} ].

(** ** ToolValidator *)

Definition SCHEMA_MAP : dict (list Field) :=
  [ ("create_event", CreateEventSchema);
    ("update_event", UpdateEventSchema);
    ("delete_event", DeleteEventSchema);
    ("freebusy_query", FreeBusyQuerySchema) ].

Definition validate_tool_args (tool_name : string) (arguments : dict pyval)
  : result BaseModel :=
  match dict_get tool_name SCHEMA_MAP with
  | None => Raise (ValidationException ("Unknown tool: " +:+ tool_name))
  | Some schema_class =>
      match construct schema_class arguments with
      | Ok validated_args => Ok validated_args
      | Raise (ValidationError _) =>
          Raise (ValidationException
                   ("Validation failed for tool '" +:+ tool_name +:+ "'"))
      | Raise e => Raise e
      end
  end.

End Annotations.

(** [ToolResponse(...).dict()] *)
Definition ToolResponse (success : bool) (message : string)
    (data : pyval) (error : pyval) : dict pyval :=
  [("success", PBool success); ("message", PStr message);
   ("data", data); ("error", error)].

Definition create_error_response (message : string) (error : option string)
  : dict pyval :=
  ToolResponse false message PNone
    (match error with Some e => PStr e | None => PNone end).

Definition create_success_response (message : string) (data : pyval)
  : dict pyval :=
  ToolResponse true message data PNone.

(** An item of a free/busy query names a calendar: a dict with an [id]. *)
Definition has_id (item : pyval) : bool :=
  match item with
  | PDict d => dict_contains "id" d
  | _ => false
  end.

(** A reader of datetimes that accepts [datetime] objects only. *)
Definition no_parse (v : pyval) : option string := None.

(** Raw start/end values. *)
Definition both_given : dict pyval :=
  [("dateTime", PDateTime "2024-01-15T10:00:00"); ("date", PStr "2024-01-15")].

Definition neither_given : dict pyval := [].

Definition date_only : dict pyval := [("date", PStr "2024-01-15")].

End Schemas.

(* ===================================================================== *)
(** * adapters/calendar.py *)
(* ===================================================================== *)

Module Calendar.
Import Py.

(** [_convert_datetime] *)
Definition _convert_datetime (dt_obj : pyval) : result (dict pyval) :=
  do date_time <- method_get dt_obj "dateTime";
  if truthy date_time then
    let dt := match date_time with
              | PDateTime iso => PStr iso
              | other => other
              end in
    let result := dict_set "dateTime" dt [] in
    do time_zone <- method_get dt_obj "timeZone";
    if truthy time_zone then Ok (dict_set "timeZone" time_zone result)
    else Ok result
  else
    do date <- method_get dt_obj "date";
    if truthy date then Ok (dict_set "date" date [])
    else Ok [].

(** [if key in arguments: update_body[key] = arguments[key]] *)
Definition copy_field (key : string) (arguments update_body : dict pyval)
  : dict pyval :=
  match dict_get key arguments with
  | Some v => dict_set key v update_body
  | None => update_body
  end.

(** [if key in arguments:
       update_body[key] = self._convert_datetime(arguments[key])] *)
Definition copy_datetime (key : string) (arguments update_body : dict pyval)
  : result (dict pyval) :=
  match dict_get key arguments with
  | Some v =>
      do converted <- _convert_datetime v;
      Ok (dict_set key (PDict converted) update_body)
  | None => Ok update_body
  end.

(** One element of the attendee comprehension. *)
Definition attendee_entry (attendee : pyval) : result pyval :=
  do email <- subscript attendee "email";
  do display_name <- method_get attendee "displayName";
  match attendee with
  | PDict a =>
      Ok (PDict
            [("email", email);
             ("displayName", display_name);
             ("optional",
              match dict_get "optional" a with
              | Some v => v
              | None => PBool false
              end);
             ("responseStatus",
              match dict_get "responseStatus" a with
              | Some v => v
              | None => PStr "needsAction"
              end);
             ("comment", dict_get_or_none "comment" a)])
  | _ => Raise (TypeError "attendee is not a mapping")
  end.

Definition copy_attendees (arguments update_body : dict pyval)
  : result (dict pyval) :=
  match dict_get "attendees" arguments with
  | Some attendees =>
      do items <- iterate attendees;
      do entries <- mapM attendee_entry items;
      Ok (dict_set "attendees" (PList entries) update_body)
  | None => Ok update_body
  end.

(** The recurrence block: the rules, then the exception dates appended
    as [EXDATE:] lines. *)
Definition copy_recurrence (arguments update_body : dict pyval)
  : result (dict pyval) :=
  match dict_get "recurrence" arguments with
  | Some recurrence =>
      do rrule <- subscript recurrence "rrule";
      let update_body := dict_set "recurrence" rrule update_body in
      do exdate <- method_get recurrence "exdate";
      if truthy exdate then
        match rrule with
        | PList rules =>
            do dates <- iterate exdate;
            Ok (dict_set "recurrence"
                  (PList (rules
                          ++ map (fun date => PStr ("EXDATE:" +:+ py_str date))
                                 dates)%list)
                  update_body)
        | _ => Raise (AttributeError
                        ("'" +:+ type_name rrule
                         +:+ "' object has no attribute 'extend'"))
        end
      else Ok update_body
  | None => Ok update_body
  end.

(** [_build_update_body] *)
Definition _build_update_body (arguments : dict pyval) : result (dict pyval) :=
  let update_body := [] in
  let update_body := copy_field "summary" arguments update_body in
  let update_body := copy_field "description" arguments update_body in
  do update_body <- copy_datetime "start" arguments update_body;
  do update_body <- copy_datetime "end" arguments update_body;
  let update_body := copy_field "location" arguments update_body in
  do update_body <- copy_attendees arguments update_body;
  let update_body := copy_field "visibility" arguments update_body in
  let update_body := copy_field "status" arguments update_body in
  do update_body <- copy_recurrence arguments update_body;
  let update_body := copy_field "reminders" arguments update_body in
  let update_body := copy_field "conferenceData" arguments update_body in
  Ok update_body.

(** [if arguments.get(key): event_body[key] = arguments[key]] *)
Definition take_field (key : string) (arguments event_body : dict pyval)
  : dict pyval :=
  if truthy (dict_get_or_none key arguments)
  then dict_set key (dict_get_or_none key arguments) event_body
  else event_body.

(** [_build_event_body] *)
Definition _build_event_body (arguments : dict pyval) : result (dict pyval) :=
  do summary <- subscript (PDict arguments) "summary";
  do start_arg <- subscript (PDict arguments) "start";
  do start <- _convert_datetime start_arg;
  do end_arg <- subscript (PDict arguments) "end";
  do end_ <- _convert_datetime end_arg;
  let event_body :=
    [("summary", summary); ("start", PDict start); ("end", PDict end_)] in
  let event_body := take_field "description" arguments event_body in
  let event_body := take_field "location" arguments event_body in
  do event_body <-
    (if truthy (dict_get_or_none "attendees" arguments)
     then copy_attendees arguments event_body else Ok event_body);
  let event_body := take_field "visibility" arguments event_body in
  let event_body := take_field "status" arguments event_body in
  do event_body <-
    (if truthy (dict_get_or_none "recurrence" arguments)
     then copy_recurrence arguments event_body else Ok event_body);
  let event_body := take_field "reminders" arguments event_body in
  let event_body := take_field "conferenceData" arguments event_body in
  Ok event_body.

(** The fields an event body always has, and those it may have. *)
Definition required_event_fields : list string := ["summary"; "start"; "end"].

Definition optional_event_fields : list string :=
  ["description"; "location"; "attendees"; "visibility"; "status";
   "recurrence"; "reminders"; "conferenceData"].

(** The event fields a patch can carry. *)
Definition event_fields : list string :=
  ["summary"; "description"; "start"; "end"; "location"; "attendees";
   "visibility"; "status"; "recurrence"; "reminders"; "conferenceData"].

(** An [update_event] request that names only the summary. *)
Definition summary_only (calendar_id event_id summary : string) : dict pyval :=
  [("calendarId", PStr calendar_id); ("eventId", PStr event_id);
   ("summary", PStr summary)].

(** The form of an attendee the comprehension can read: a dict with an
    [email]. *)
Definition is_attendee (v : pyval) : Prop :=
  exists a, v = PDict a /\ dict_contains "email" a = true.

(** An all-day start that also names a time zone, and a patch made by
    hand. *)
Definition all_day_with_zone : dict pyval :=
  [("date", PStr "2024-01-15"); ("timeZone", PStr "Europe/Paris")].

Definition hand_made_patch : dict pyval :=
  [("calendarId", PStr "cal1"); ("eventId", PStr "evt1");
   ("location", PStr ""); ("start", PDict all_day_with_zone);
   ("colorId", PStr "7")].

Definition standup_arguments : dict pyval :=
  [("calendarId", PStr "cal1"); ("summary", PStr "Standup");
   ("start", PDict all_day_with_zone); ("end", PDict all_day_with_zone);
   ("description", PStr ""); ("location", PStr "Room 1")].

(** Scenario A: an all-day stand-up, and what validation makes of it. *)
Definition standup_request : dict pyval :=
  [("calendarId", PStr "cal1"); ("summary", PStr "Standup");
   ("start", PDict [("date", PStr "2024-01-15")]);
   ("end", PDict [("date", PStr "2024-01-15")])].

Definition standup_validated : Schemas.BaseModel :=
  {| Schemas.model_fields :=
       [("calendarId", PStr "cal1"); ("summary", PStr "Standup");
        ("description", PNone);
        ("start", PDict [("dateTime", PNone); ("date", PStr "2024-01-15");
                         ("timeZone", PNone)]);
        ("end", PDict [("dateTime", PNone); ("date", PStr "2024-01-15");
                       ("timeZone", PNone)]);
        ("location", PNone); ("attendees", PNone);
        ("visibility", PStr "default"); ("status", PStr "confirmed");
        ("recurrence", PNone); ("reminders", PNone);
        ("conferenceData", PNone)];
     Schemas.model_fields_set := ["calendarId"; "summary"; "start"; "end"] |}.

(** The model instance validation builds for
    [summary_only "cal1" "evt1" "Standup"]. *)
Definition summary_only_validated : Schemas.BaseModel :=
  {| Schemas.model_fields :=
       [("calendarId", PStr "cal1"); ("eventId", PStr "evt1");
        ("summary", PStr "Standup"); ("description", PNone);
        ("start", PNone); ("end", PNone); ("location", PNone);
        ("attendees", PNone); ("visibility", PNone); ("status", PNone);
        ("recurrence", PNone); ("reminders", PNone);
        ("conferenceData", PNone)];
     Schemas.model_fields_set := ["calendarId"; "eventId"; "summary"] |}.

End Calendar.

(* ===================================================================== *)
(** * router/idempotency.py *)
(* ===================================================================== *)

Module Idempotency.
Import Py.

(** ** json.dumps *)

(** [sorted(items)] on (key, text) pairs with distinct keys: insertion by
    key, in code-point order. *)
Fixpoint insert_item (kv : string * string) (l : list (string * string))
  : list (string * string) :=
  match l with
  | [] => [kv]
  | h :: t =>
      if String.leb (fst kv) (fst h) then kv :: h :: t
      else h :: insert_item kv t
  end.

Fixpoint sort_items (l : list (string * string)) : list (string * string) :=
  match l with
  | [] => []
  | kv :: rest => insert_item kv (sort_items rest)
  end.

(** Floats are written as their [repr], but for the three special values. *)
Definition float_json (r : string) : string :=
  if String.eqb r "nan" then "NaN"
  else if String.eqb r "inf" then "Infinity"
  else if String.eqb r "-inf" then "-Infinity"
  else r.

Section Encoder.
(** The encoder's string escaping ([ensure_ascii] is on): the text of a
    JSON string literal, quotes included. *)
Variable encode_string : string -> string.

(** SHA-256 of a text, as lower-case hex ([hashlib]). *)
Variable sha256_hexdigest : string -> string.

(** [json.dumps(v, sort_keys=sort_keys, default=str)].  With [sort_keys]
    the encoder sorts a dict's items by key before writing them; the
    member values are encoded first here and the pairs sorted after,
    which yields the same text, as sorting looks at keys only. *)
Fixpoint dumps (sort_keys : bool) (v : pyval) : string :=
  match v with
  | PNone => "null"
  | PBool b => if b then "true" else "false"
  | PInt n => decimal n
  | PFloat r => float_json r
  | PStr s => encode_string s
  | PDateTime iso => encode_string (datetime_str iso)
  | PList l => "[" +:+ join ", " (map (dumps sort_keys) l) +:+ "]"
  | PDict d =>
      let members := map (fun kv => (fst kv, dumps sort_keys (snd kv))) d in
      let members := if sort_keys then sort_items members else members in
      "{" +:+ join ", " (map (fun kt => encode_string (fst kt) +:+ ": "
                                        +:+ snd kt) members) +:+ "}"
  end.

(** [generate_key] *)
Definition generate_key (tool_name : string) (arguments : dict pyval)
    (user_id : option string) : string :=
  let key_data :=
    PDict [("tool", PStr tool_name);
           ("args", PDict arguments);
           ("user", match user_id with Some u => PStr u | None => PNone end)] in
  let key_json := dumps true key_data in
  let key_hash := sha256_hexdigest key_json in
  "mcp:idempotency:" +:+ key_hash.
End Encoder.

(** Two argument structures that differ only in the order in which dicts
    enumerate their keys, at any depth: the congruence generated by
    permuting the items of a dict (whose keys are distinct, as in every
    Python dict). *)
Inductive reordered : pyval -> pyval -> Prop :=
| reordered_refl v : reordered v v
| reordered_trans u v w : reordered u v -> reordered v w -> reordered u w
| reordered_keys d d' :
    List.NoDup (dict_keys d) -> Permutation d d' ->
    reordered (PDict d) (PDict d')
| reordered_member pre k v v' post :
    reordered v v' ->
    reordered (PDict (pre ++ (k, v) :: post)%list)
              (PDict (pre ++ (k, v') :: post)%list)
| reordered_item pre v v' post :
    reordered v v' ->
    reordered (PList (pre ++ v :: post)%list) (PList (pre ++ v' :: post)%list).

(** ** The cache *)

(** What the store holds under a key: the JSON document written there.
    [setex] is given [json.dumps(result, default=str)] and [get] is
    followed by [json.loads]; the pair is modelled by the document itself,
    in which values JSON cannot carry have become their [str]. *)
Fixpoint jsonable (v : pyval) : pyval :=
  match v with
  | PDateTime iso => PStr (datetime_str iso)
  | PList l => PList (map jsonable l)
  | PDict d => PDict (map (fun kv => (fst kv, jsonable (snd kv))) d)
  | other => other
  end.

(** The two clients behind the cache: a Redis server, which may be out of
    reach and which drops an entry when its time is up, and the in-process
    stand-in used when no server answers at start-up, which keeps entries
    for ever. *)
Inductive RedisClient : Type :=
| Redis (reachable : bool) (entries : gmap string (pyval * Z))
| MockRedisClient (_data : gmap string pyval).

(** [redis_client.get(key)] at time [now]. *)
Definition client_get (now : Z) (client : RedisClient) (key : string)
  : result (option pyval) :=
  match client with
  | Redis reachable entries =>
      if reachable then
        match entries !! key with
        | Some (document, expires_at) =>
            if now <? expires_at then Ok (Some document) else Ok None
        | None => Ok None
        end
      else Raise (Exception "Error connecting to Redis")
  | MockRedisClient _data => Ok (_data !! key)
  end.

(** [redis_client.setex(key, ttl, value)] at time [now]. *)
Definition client_setex (now : Z) (client : RedisClient) (key : string)
    (ttl : Z) (document : pyval) : result RedisClient :=
  match client with
  | Redis reachable entries =>
      if reachable then
        if ttl <=? 0 then Raise (Exception "invalid expire time in setex")
        else Ok (Redis reachable (<[key := (document, now + ttl)]> entries))
      else Raise (Exception "Error connecting to Redis")
  | MockRedisClient _data => Ok (MockRedisClient (<[key := document]> _data))
  end.

Record IdempotencyCache : Type := mkIdempotencyCache {
  redis_client : RedisClient;
  default_ttl : Z
}.

(** [IdempotencyCache.get]: any failure of the store reads as a miss. *)
Definition get (now : Z) (cache : IdempotencyCache) (key : string)
  : option pyval :=
  match client_get now (redis_client cache) key with
  | Ok (Some document) => Some document
  | Ok None => None
  | Raise _ => None
  end.

(** [IdempotencyCache.set]: [ttl or self.default_ttl], then [setex]; a
    failure of the store is reported as [False]. *)
Definition set (now : Z) (cache : IdempotencyCache) (key : string)
    (result : pyval) (ttl : option Z) : bool * IdempotencyCache :=
  let ttl := match ttl with
             | Some t => if t =? 0 then default_ttl cache else t
             | None => default_ttl cache
             end in
  match client_setex now (redis_client cache) key ttl (jsonable result) with
  | Ok client => (true, {| redis_client := client;
                           default_ttl := default_ttl cache |})
  | Raise _ => (false, cache)
  end.

(** [IdempotencyCache.check_and_set]: an entry found is returned and
    nothing is written; otherwise a non-empty [result] is stored and
    [None] returned.  Any failure of the store reads as [None]. *)
Definition check_and_set (now : Z) (cache : IdempotencyCache) (key : string)
    (result : pyval) (ttl : option Z) : option pyval * IdempotencyCache :=
  let ttl := match ttl with
             | Some t => if t =? 0 then default_ttl cache else t
             | None => default_ttl cache
             end in
  match client_get now (redis_client cache) key with
  | Ok (Some existing_result) => (Some existing_result, cache)
  | Ok None =>
      if truthy result then
        match client_setex now (redis_client cache) key ttl (jsonable result) with
        | Ok client => (None, {| redis_client := client;
                                 default_ttl := default_ttl cache |})
        | Raise _ => (None, cache)
        end
      else (None, cache)
  | Raise _ => (None, cache)
  end.

(** [redis_client.delete(key)] *)
Definition client_delete (client : RedisClient) (key : string)
  : result RedisClient :=
  match client with
  | Redis reachable entries =>
      if reachable then Ok (Redis reachable (base.delete key entries))
      else Raise (Exception "Error connecting to Redis")
  | MockRedisClient _data => Ok (MockRedisClient (base.delete key _data))
  end.

(** [IdempotencyCache.delete] *)
Definition delete (cache : IdempotencyCache) (key : string)
  : bool * IdempotencyCache :=
  match client_delete (redis_client cache) key with
  | Ok client => (true, {| redis_client := client;
                           default_ttl := default_ttl cache |})
  | Raise _ => (false, cache)
  end.

(** The store answers: it is the in-process client or a server in reach. *)
Definition in_reach (cache : IdempotencyCache) : Prop :=
  match redis_client cache with
  | MockRedisClient _ => True
  | Redis reachable _ => reachable = true
  end.

(** Stand-ins to run the fingerprint on: strings quoted without escaping,
    and the text itself in place of its digest. *)
Definition quote_only (s : string) : string := dquote +:+ s +:+ dquote.
Definition text_as_digest (s : string) : string := s.

(** The same [create_event] arguments, keys enumerated in two orders, at
    the top and inside [start]. *)
Definition arguments_one_order : dict pyval :=
  [("calendarId", PStr "cal1");
   ("start", PDict [("date", PStr "2024-01-15"); ("timeZone", PStr "UTC")])].

Definition arguments_other_order : dict pyval :=
  [("start", PDict [("timeZone", PStr "UTC"); ("date", PStr "2024-01-15")]);
   ("calendarId", PStr "cal1")].

(** The store keeps until [now] what is written at [later] with the
    default lifetime: always so for the in-process client; for a server,
    when it is in reach, the lifetime is positive and has not run out. *)
Definition keeps_until (now later : Z) (cache : IdempotencyCache) : Prop :=
  match redis_client cache with
  | MockRedisClient _ => True
  | Redis reachable _ =>
      reachable = true /\ 0 < default_ttl cache
      /\ now < later + default_ttl cache
  end.

(** A fresh cache over the in-process client, and over a reachable server. *)
Definition mock_cache : IdempotencyCache :=
  {| redis_client := MockRedisClient ∅; default_ttl := 300 |}.

Definition redis_cache : IdempotencyCache :=
  {| redis_client := Redis true ∅; default_ttl := 300 |}.

Definition unreachable_cache : IdempotencyCache :=
  {| redis_client := Redis false ∅; default_ttl := 300 |}.

End Idempotency.

(* ===================================================================== *)
(** * router/queue.py *)
(* ===================================================================== *)

Module Router.
Import Py.

Section CommandQueue.
Variable parse_datetime : pyval -> option string.
Variable encode_string : string -> string.
Variable sha256_hexdigest : string -> string.

(** The calendar adapter behind the router: the remote calendar's state
    and what each adapter method ([create_event], [update_event],
    [delete_event], [freebusy_query]) returns and does to it.  Every
    method answers with an envelope; none lets an exception escape. *)
Variable Remote : Type.
Variable calendar_adapter :
  string -> dict pyval -> Remote -> dict pyval * Remote.

Record CommandQueue : Type := mkCommandQueue {
  idempotency_cache : Idempotency.IdempotencyCache;
  max_workers : Z;
  workers : list string;
  is_running : bool;
  _initialized : bool;
  remote : Remote;
  (** every adapter method invoked so far, oldest first *)
  adapter_calls : list (string * dict pyval)
}.

Definition worker_name (i : nat) : string :=
  "worker-" +:+ NilZero.string_of_uint (Nat.to_uint i).

(** [_ensure_initialized] with [_start_workers] *)
Definition _ensure_initialized (self : CommandQueue) : CommandQueue :=
  if _initialized self then self
  else
    {| idempotency_cache := idempotency_cache self;
       max_workers := max_workers self;
       workers :=
         if is_running self then workers self
         else (workers self
               ++ map worker_name (seq 0 (Z.to_nat (max_workers self))))%list;
       is_running := true;
       _initialized := true;
       remote := remote self;
       adapter_calls := adapter_calls self |}.

Definition invoke_adapter (self : CommandQueue) (method : string)
    (arguments : dict pyval) : dict pyval * CommandQueue :=
  let (response, remote') := calendar_adapter method arguments (remote self) in
  (response,
   {| idempotency_cache := idempotency_cache self;
      max_workers := max_workers self;
      workers := workers self;
      is_running := is_running self;
      _initialized := _initialized self;
      remote := remote';
      adapter_calls := (adapter_calls self ++ [(method, arguments)])%list |}).

(** [_process_job] *)
Definition _process_job (self : CommandQueue) (tool_name : string)
    (arguments : dict pyval) : dict pyval * CommandQueue :=
  if String.eqb tool_name "create_event" then
    invoke_adapter self "create_event" arguments
  else if String.eqb tool_name "update_event" then
    invoke_adapter self "update_event" arguments
  else if String.eqb tool_name "delete_event" then
    invoke_adapter self "delete_event" arguments
  else if String.eqb tool_name "freebusy_query" then
    invoke_adapter self "freebusy_query" arguments
  else
    (Schemas.create_error_response ("Unknown tool: " +:+ tool_name) None, self).

Definition with_cache (cache : Idempotency.IdempotencyCache)
    (self : CommandQueue) : CommandQueue :=
  {| idempotency_cache := cache;
     max_workers := max_workers self;
     workers := workers self;
     is_running := is_running self;
     _initialized := _initialized self;
     remote := remote self;
     adapter_calls := adapter_calls self |}.

(** The argument dict of the job the router builds,
    [validated_args.dict()]. *)
Definition job_arguments (tool_name : string) (arguments : dict pyval)
  : result (dict pyval) :=
  do validated_args <- Schemas.validate_tool_args parse_datetime tool_name arguments;
  Ok (Schemas.dict_ validated_args).

(** The miss path of [enqueue_tool_call]: run the job, store a
    non-empty result at time [later], return it. *)
Definition dispatch (later : Z) (self : CommandQueue) (tool_name : string)
    (job_args : dict pyval) (idempotency_key : string)
  : list pyval * CommandQueue :=
  let (result, self) := _process_job self tool_name job_args in
  if truthy (PDict result) then
    ([PDict result],
     with_cache (snd (Idempotency.set later (idempotency_cache self)
                        idempotency_key (PDict result) None)) self)
  else ([PDict result], self).

(** [enqueue_tool_call].  [now] is the time of the cache lookup,
    [later] the time at which a fresh result is stored. *)
Definition enqueue_tool_call (now later : Z) (self : CommandQueue)
    (tool_name : string) (arguments : dict pyval) (user_id : option string)
  : list pyval * CommandQueue :=
  let self := _ensure_initialized self in
  match Schemas.validate_tool_args parse_datetime tool_name arguments with
  | Ok validated_args =>
      let idempotency_key :=
        Idempotency.generate_key encode_string sha256_hexdigest
          tool_name arguments user_id in
      match Idempotency.get now (idempotency_cache self) idempotency_key with
      | Some cached_result =>
          if truthy cached_result then ([cached_result], self)
          else dispatch later self tool_name (Schemas.dict_ validated_args)
                 idempotency_key
      | None =>
          dispatch later self tool_name (Schemas.dict_ validated_args)
            idempotency_key
      end
  | Raise (ValidationException msg) =>
      ([PDict (Schemas.create_error_response
                 ("Validation failed for " +:+ tool_name) (Some msg))], self)
  | Raise e =>
      ([PDict (Schemas.create_error_response
                 ("Failed to enqueue " +:+ tool_name) (Some (exn_str e)))], self)
  end.

(** [CommandQueue()] over a given cache and remote state. *)
Definition new_queue (cache : Idempotency.IdempotencyCache) (r : Remote)
  : CommandQueue :=
  {| idempotency_cache := cache; max_workers := 5; workers := [];
     is_running := false; _initialized := false; remote := r;
     adapter_calls := [] |}.
End CommandQueue.

(** A small instance to run the router on: no datetime parsing, strings
    quoted without escaping, the text itself standing in for its digest,
    and an adapter that answers every call with the same envelope. *)
Definition no_parse : pyval -> option string := Schemas.no_parse.
Definition quote_only : string -> string := Idempotency.quote_only.
Definition text_as_digest : string -> string := Idempotency.text_as_digest.

Definition deleted_envelope : dict pyval :=
  Schemas.create_success_response "Event deleted successfully"
    (PDict [("deleted", PBool true); ("calendar_id", PStr "cal1");
            ("event_id", PStr "evt1"); ("send_updates", PStr "all")]).

Definition constant_adapter (method : string) (arguments : dict pyval)
    (r : unit) : dict pyval * unit :=
  (deleted_envelope, r).

Definition delete_request : dict pyval :=
  [("calendarId", PStr "cal1"); ("eventId", PStr "evt1")].


(** What validation makes of [delete_request]. *)
Definition delete_validated : Schemas.BaseModel :=
  {| Schemas.model_fields :=
       [("calendarId", PStr "cal1"); ("eventId", PStr "evt1");
        ("sendUpdates", PStr "all")];
     Schemas.model_fields_set := ["calendarId"; "eventId"] |}.


End Router.

(* ===================================================================== *)
(** * mcp_server.py *)
(* ===================================================================== *)

Module StdioServer.
Import Py.

Section Handler.
Variable parse_datetime : pyval -> option string.

(** [str(v)] on a JSON value, as the f-strings of the messages use it. *)
Variable str_of : pyval -> string.

(** The JSON schema pydantic derives for a tool's model. *)
Variable input_schema : string -> pyval.

(** [tool_registry.validate_tool_call(name, arguments)] on what the
    message carries: a name that cannot be a dict key fails the look-up
    in [SCHEMA_MAP], any other name that is no tool is unknown, and the
    arguments of a known tool must be a mapping to be passed as keyword
    arguments. *)
Definition validate_tool_call (tool_name arguments : pyval)
  : result Schemas.BaseModel :=
  match tool_name with
  | PList _ | PDict _ =>
      Raise (TypeError ("unhashable type: '" +:+ type_name tool_name +:+ "'"))
  | PStr s =>
      match dict_get s (Schemas.SCHEMA_MAP parse_datetime) with
      | None => Raise (ValidationException ("Unknown tool: " +:+ s))
      | Some _ =>
          match arguments with
          | PDict d => Schemas.validate_tool_args parse_datetime s d
          | _ => Raise (TypeError
                          ("argument after ** must be a mapping, not "
                           +:+ type_name arguments))
          end
      end
  | other => Raise (ValidationException ("Unknown tool: " +:+ str_of other))
  end.

Definition rpc_error (msg_id : pyval) (code : Z) (message : string) : pyval :=
  PDict [("jsonrpc", PStr "2.0"); ("id", msg_id);
         ("error", PDict [("code", PInt code); ("message", PStr message)])].

Definition rpc_result (msg_id : pyval) (result : pyval) : pyval :=
  PDict [("jsonrpc", PStr "2.0"); ("id", msg_id); ("result", result)].

(** [method == name] *)
Definition is_method (method : pyval) (name : string) : bool :=
  match method with
  | PStr s => String.eqb s name
  | _ => false
  end.

(** The four tools of the registry, as [tools/list] shows them. *)
Definition tool_descriptions : dict string :=
  [("create_event", "Create a new Google Calendar event");
   ("update_event", "Update an existing Google Calendar event");
   ("delete_event", "Delete a Google Calendar event");
   ("freebusy_query", "Query free/busy information for Google Calendar")].

Definition tools_dict : pyval :=
  PList (map (fun tool =>
                PDict [("name", PStr (fst tool));
                       ("description", PStr (snd tool));
                       ("inputSchema", input_schema (fst tool))])
             tool_descriptions).

(** The body of the [tools/call] branch, inside its [try]. *)
Definition call_tool (message : dict pyval) : result pyval :=
  let params := match dict_get "params" message with
                | Some p => p
                | None => PDict []
                end in
  do tool_name <- method_get params "name";
  let arguments := match params with
                   | PDict p => match dict_get "arguments" p with
                                | Some a => a
                                | None => PDict []
                                end
                   | _ => PNone
                   end in
  do validated <- validate_tool_call tool_name arguments;
  Ok (PDict
        [("content",
          PList [PDict [("type", PStr "text");
                        ("text",
                         PStr ("Google Calendar tool '" +:+ str_of tool_name
                               +:+ "' called successfully with arguments: "
                               +:+ str_of arguments
                               +:+ ". (Note: This is a mock response - configure Google API credentials to use real functionality)"))]])]).

(** [handle_message].  The state is the global [initialized];
    [components_ok] is what [init_components()] returns.  The answer is
    the response to print, if any, and the state afterwards; a message
    that is no JSON object has no [get] and makes the handler raise. *)
Definition handle_message (components_ok : bool) (initialized : bool)
    (message : pyval) : result (option pyval * bool) :=
  do method <- method_get message "method";
  do msg_id <- method_get message "id";
  if is_none msg_id then Ok (None, initialized)
  else if is_method method "initialize" then
    if negb components_ok then
      Ok (Some (rpc_error msg_id (-32603)
                  "Failed to initialize server components"), initialized)
    else
      Ok (Some (rpc_result msg_id
                  (PDict [("protocolVersion", PStr "2025-06-18");
                          ("capabilities", PDict [("tools", PDict [])]);
                          ("serverInfo",
                           PDict [("name", PStr "google-calendar-mcp");
                                  ("version", PStr "1.0.0")])])),
          true)
  else if is_method method "tools/list" then
    if negb initialized then
      Ok (Some (rpc_error msg_id (-32002) "Server not initialized"), initialized)
    else
      Ok (Some (rpc_result msg_id (PDict [("tools", tools_dict)])), initialized)
  else if is_method method "tools/call" then
    if negb initialized then
      Ok (Some (rpc_error msg_id (-32002) "Server not initialized"), initialized)
    else
      match message with
      | PDict m =>
          match call_tool m with
          | Ok result => Ok (Some (rpc_result msg_id result), initialized)
          | Raise e =>
              Ok (Some (rpc_error msg_id (-32603)
                          ("Error calling tool: " +:+ exn_str e)), initialized)
          end
      | _ => Raise (AttributeError "object has no attribute 'get'")
      end
  else
    Ok (Some (rpc_error msg_id (-32601) ("Method not found: " +:+ str_of method)),
        initialized).

(** The messages of a session, handled one after the other from the
    state [initialized]: the responses printed, and the state at the end.
    The loop of [main] ends at the first message the handler raises on. *)
Fixpoint handle_all (components_ok : bool) (initialized : bool)
    (messages : list pyval) : list pyval * bool :=
  match messages with
  | [] => ([], initialized)
  | message :: rest =>
      match handle_message components_ok initialized message with
      | Ok (response, initialized') =>
          let (responses, final) := handle_all components_ok initialized' rest in
          (match response with
           | Some r => r :: responses
           | None => responses
           end, final)
      | Raise _ => ([], initialized)
      end
  end.

End Handler.

(** A [tools/call] request, with and without an id. *)
Definition call_request (msg_id : pyval) : pyval :=
  PDict [("jsonrpc", PStr "2.0"); ("id", msg_id); ("method", PStr "tools/call");
         ("params", PDict [("name", PStr "delete_event");
                           ("arguments",
                            PDict [("calendarId", PStr "cal1");
                                   ("eventId", PStr "evt1")])])].

Definition no_schema (tool : string) : pyval := PDict [].

(** An [initialize] request: the method, and an id. *)
Definition is_initialize_request (message : pyval) : bool :=
  match message with
  | PDict d =>
      is_method (dict_get_or_none "method" d) "initialize"
      && negb (is_none (dict_get_or_none "id" d))
  | _ => false
  end.

(** An error response: a JSON object with an [error] and no [result]. *)
Definition is_error_response (response : pyval) : bool :=
  match response with
  | PDict r => dict_contains "error" r && negb (dict_contains "result" r)
  | _ => false
  end.

(** A session that calls a tool without initializing the server first:
    the [initialized] notification, a list request and a valid call. *)
Definition eager_session : list pyval :=
  [PDict [("jsonrpc", PStr "2.0"); ("method", PStr "initialized")];
   PDict [("jsonrpc", PStr "2.0"); ("id", PInt 1); ("method", PStr "tools/list")];
   call_request (PInt 2)].

Definition call_params : dict pyval :=
  [("name", PStr "delete_event");
   ("arguments", PDict [("calendarId", PStr "cal1"); ("eventId", PStr "evt1")])].

End StdioServer.

(* ===================================================================== *)
(** * Facts *)
(* ===================================================================== *)

(** ** transport/auth.py *)

Section TransportAuthFacts.
Import Py TransportAuth.

Lemma split_on_no_sep (c : ascii) (s : string) :
  no_char c s = true -> split_on c s = [s].
Proof.
  induction s as [|a s IH]; simpl; [reflexivity|].
  intros H. apply andb_true_iff in H as [Ha Hs].
  apply negb_true_iff in Ha. rewrite Ha, (IH Hs). reflexivity.
Qed.

Lemma startswith_append (p t : string) : startswith p (p +:+ t) = true.
Proof.
  unfold startswith. induction p as [|a p IH]; simpl.
  - destruct t; reflexivity.
  - destruct (ascii_dec a a) as [_|Hne]; [exact IH | contradiction].
Qed.

Lemma split_bearer (t : string) :
  no_char " " t = true ->
  nth_error (split_on " " ("Bearer " +:+ t)) 1 = Some t.
Proof.
  intros H. simpl. change ("" +:+ t) with t.
  rewrite (split_on_no_sep _ _ H). reflexivity.
Qed.

Lemma token_mismatch_unconfigured settings token :
  bearer_token settings = None \/ bearer_token settings = Some "" ->
  token_mismatch settings token = false.
Proof.
  unfold token_mismatch. intros [-> | ->]; reflexivity.
Qed.

Lemma token_mismatch_configured settings token :
  token_mismatch settings token = true ->
  exists s, bearer_token settings = Some s /\ s <> "" /\ token <> s.
Proof.
  unfold token_mismatch. destruct (bearer_token settings) as [s|]; [|discriminate].
  intros H. apply andb_true_iff in H as [Hs Hne].
  exists s. split; [reflexivity|]. split.
  - intros ->. discriminate.
  - intros ->. rewrite String.eqb_refl in Hne. discriminate.
Qed.

(** C10.  With no bearer token configured (unset or empty), every request
    whose Authorization header is [Bearer t], for any space-free token [t],
    is accepted and [t] is returned; the "Invalid bearer token" rejection
    only occurs under a non-empty configured token; and a request without
    Authorization header, or with one that does not start with [Bearer ],
    is rejected with status 401 under every configuration. *)
Theorem verify_bearer_token_policy :
  (forall settings request t,
      bearer_token settings = None \/ bearer_token settings = Some "" ->
      no_char " " t = true ->
      headers_get "authorization" request = Some ("Bearer " +:+ t) ->
      verify_bearer_token settings request = Ok t)
  /\ (forall settings request,
      verify_bearer_token settings request
        = Raise (HTTPException 401 "Invalid bearer token") ->
      exists s, bearer_token settings = Some s /\ s <> "")
  /\ (forall settings request,
      headers_get "authorization" request = None
      \/ (exists h, headers_get "authorization" request = Some h
                    /\ startswith "Bearer " h = false) ->
      exists detail,
        verify_bearer_token settings request = Raise (HTTPException 401 detail)).
Proof.
  split; [|split].
  - intros settings request t Hcfg Ht Hh. unfold verify_bearer_token.
    rewrite Hh. cbn [str_truthy String.append negb].
    rewrite startswith_append. cbn [negb]. rewrite (split_bearer t Ht).
    rewrite (token_mismatch_unconfigured _ _ Hcfg). reflexivity.
  - intros settings request. unfold verify_bearer_token.
    destruct (headers_get "authorization" request) as [h|]; [|discriminate].
    destruct (negb (str_truthy h)); [discriminate|].
    destruct (negb (startswith "Bearer " h)); [discriminate|].
    destruct (nth_error (split_on " " h) 1) as [token|]; [|discriminate].
    destruct (token_mismatch settings token) eqn:Hm; [|discriminate].
    intros _. destruct (token_mismatch_configured _ _ Hm) as (s & Hs & Hne & _).
    exists s. split; assumption.
  - intros settings request [Hnone | (h & Hh & Hp)]; unfold verify_bearer_token.
    + rewrite Hnone. eexists. reflexivity.
    + rewrite Hh, Hp. destruct (str_truthy h); eexists; reflexivity.
Qed.

(** The policy at concrete requests: an unconfigured server hands back
    whatever token it is sent. *)
Lemma verify_bearer_token_policy_witness :
  verify_bearer_token unconfigured_settings (bearer_request "anything") = Ok "anything".
Proof.
  apply (proj1 verify_bearer_token_policy).
  - left. reflexivity.
  - reflexivity.
  - reflexivity.
Defined.

End TransportAuthFacts.

(** ** services/audit.py *)

Section AuditFacts.
Import Py Audit.

(** Assigning to a key that is absent from the rest of a dict leaves the
    rest as it is. *)
Lemma map_update_absent (k : string) (v : pyval) (d : dict pyval) :
  ~ In k (dict_keys d) ->
  map (fun kv => (fst kv, if String.eqb k (fst kv) then v else snd kv)) d = d.
Proof.
  induction d as [|[k' v'] d IH]; simpl; intros Hn; [reflexivity|].
  destruct (String.eqb_spec k k') as [->|Hne].
  - exfalso. apply Hn. left. reflexivity.
  - rewrite IH; [reflexivity|]. intros Hin. apply Hn. right. exact Hin.
Qed.

(** Item assignment to an existing key, read entry by entry. *)
Lemma dict_set_existing (k : string) (v : pyval) (d : dict pyval) :
  List.NoDup (dict_keys d) -> In k (dict_keys d) ->
  dict_set k v d
  = map (fun kv => (fst kv, if String.eqb k (fst kv) then v else snd kv)) d.
Proof.
  induction d as [|[k' v'] d IH]; simpl; intros Hnd Hin; [contradiction|].
  inversion Hnd as [|? ? Hnotin Hnd']; subst.
  destruct (String.eqb_spec k k') as [->|Hne].
  - rewrite map_update_absent by exact Hnotin. reflexivity.
  - destruct Hin as [Heq|Hin]; [congruence|].
    rewrite IH by assumption. reflexivity.
Qed.

Lemma dict_keys_map_value (f : string * pyval -> pyval) (d : dict pyval) :
  dict_keys (map (fun kv => (fst kv, f kv)) d) = dict_keys d.
Proof.
  unfold dict_keys. rewrite map_map. reflexivity.
Qed.

(** The key loop, for any test [p] on keys and any list [ks] of keys of
    the dict: the entries whose key is listed and passes the test are
    overwritten, in place. *)
Lemma redact_loop_spec (p : string -> bool) (ks : list string) :
  forall acc : dict pyval,
    List.NoDup (dict_keys acc) -> incl ks (dict_keys acc) ->
    fold_left (fun acc key => if p key then dict_set key REDACTED acc else acc)
              ks acc
    = map (fun kv =>
             (fst kv,
              if p (fst kv) && existsb (String.eqb (fst kv)) ks
              then REDACTED else snd kv)) acc.
Proof.
  induction ks as [|k ks IH]; intros acc Hnd Hincl; simpl.
  - rewrite <- (map_id acc) at 1. apply map_ext. intros [k' v']; simpl.
    rewrite andb_false_r. reflexivity.
  - assert (Hk : In k (dict_keys acc)) by (apply Hincl; left; reflexivity).
    assert (Hks : incl ks (dict_keys acc))
      by (intros x Hx; apply Hincl; right; exact Hx).
    destruct (p k) eqn:Hp.
    + rewrite (dict_set_existing k REDACTED acc Hnd Hk).
      rewrite IH.
      * rewrite map_map. apply map_ext. intros [k' v']; simpl.
        rewrite (String.eqb_sym k' k).
        destruct (String.eqb_spec k k') as [->|Hne]; simpl.
        -- rewrite Hp. simpl. destruct (existsb _ ks); reflexivity.
        -- reflexivity.
      * rewrite dict_keys_map_value. exact Hnd.
      * rewrite dict_keys_map_value. exact Hks.
    + rewrite IH by assumption. apply map_ext. intros [k' v']; simpl.
      destruct (String.eqb_spec k' k) as [->|Hne]; simpl; [|reflexivity].
      rewrite Hp. reflexivity.
Qed.

Lemma existsb_own_key (d : dict pyval) (kv : string * pyval) :
  In kv d -> existsb (String.eqb (fst kv)) (dict_keys d) = true.
Proof.
  intros Hin. apply existsb_exists. exists (fst kv). split.
  - unfold dict_keys. apply in_map. exact Hin.
  - apply String.eqb_refl.
Qed.

Lemma redact_field_spec (field : string) (d : dict pyval) :
  List.NoDup (dict_keys d) ->
  redact_field field d
  = map (fun kv =>
           (fst kv,
            if str_in (lower field) (lower (fst kv)) then REDACTED else snd kv)) d.
Proof.
  intros Hnd. unfold redact_field.
  rewrite (redact_loop_spec (fun key => str_in (lower field) (lower key)))
    by (assumption || apply incl_refl).
  apply map_ext_in. intros kv Hin.
  rewrite (existsb_own_key d kv Hin), andb_true_r. reflexivity.
Qed.

Lemma redact_fields_spec (fields : list string) :
  forall d : dict pyval,
    List.NoDup (dict_keys d) ->
    redact_fields fields d
    = map (fun kv =>
             (fst kv,
              if existsb (fun field => str_in (lower field) (lower (fst kv))) fields
              then REDACTED else snd kv)) d.
Proof.
  unfold redact_fields.
  induction fields as [|f fs IH]; intros d Hnd; simpl.
  - rewrite <- (map_id d) at 1. apply map_ext. intros [k v]. reflexivity.
  - rewrite (redact_field_spec f d Hnd), IH
      by (rewrite dict_keys_map_value; exact Hnd).
    rewrite map_map. apply map_ext. intros [k v]; simpl.
    destruct (str_in (lower f) (lower k)); simpl; [|reflexivity].
    destruct (existsb _ fs); reflexivity.
Qed.

Lemma sanitize_state_spec (state : option (dict pyval)) :
  (forall d, state = Some d -> List.NoDup (dict_keys d)) ->
  _sanitize_state state = top_level_redacted state.
Proof.
  intros Hnd. destruct state as [[|kv d]|]; try reflexivity.
  unfold _sanitize_state, top_level_redacted.
  rewrite redact_fields_spec by (apply Hnd; reflexivity). reflexivity.
Qed.

Lemma sanitize_arguments_spec (arguments : option (dict pyval)) :
  (forall d, arguments = Some d -> List.NoDup (dict_keys d)) ->
  _sanitize_arguments arguments = top_level_redacted arguments.
Proof.
  intros Hnd. destruct arguments as [[|kv d]|]; try reflexivity.
  unfold _sanitize_arguments, top_level_redacted.
  rewrite redact_fields_spec by (apply Hnd; reflexivity). reflexivity.
Qed.

(** C9, as the code has it.  In every audit record the before-state, the
    after-state and the arguments keep all their top-level fields, in
    order; a top-level field whose name contains one of the marker words
    (case ignored) holds the redaction marker, every other top-level field
    keeps its value, nested fields included; a missing or empty state is
    recorded as missing. *)
Theorem audit_entry_redacts_top_level
    (now operation : string) (calendar_id event_id user_id : option string)
    (before after args : option (dict pyval))
    (success : bool) (error : option string) :
  (forall d, before = Some d -> List.NoDup (dict_keys d)) ->
  (forall d, after = Some d -> List.NoDup (dict_keys d)) ->
  (forall d, args = Some d -> List.NoDup (dict_keys d)) ->
  let entry := log_operation_entry now operation calendar_id event_id
                 before after args user_id success error in
  before_state entry = top_level_redacted before
  /\ after_state entry = top_level_redacted after
  /\ arguments entry = top_level_redacted args.
Proof.
  intros Hb Ha Hargs entry. unfold entry, log_operation_entry; simpl.
  rewrite (sanitize_state_spec before Hb), (sanitize_state_spec after Ha),
    (sanitize_arguments_spec args Hargs).
  repeat split.
Qed.

Lemma NoDup_flat_state : List.NoDup (dict_keys flat_state).
Proof.
  unfold flat_state, dict_keys; simpl.
  repeat constructor; simpl; intuition discriminate.
Qed.

Lemma audit_entry_redacts_top_level_witness :
  let entry := log_operation_entry "2024-01-15T10:00:00+00:00" "update_event"
                 (Some "cal1") (Some "evt1") (Some flat_state) None
                 (Some flat_state) None true None in
  before_state entry
    = Some [("summary", PStr "Standup");
            ("API_Key", REDACTED);
            ("creator", PDict [("access_token", PStr "ya29.secret")])]
  /\ after_state entry = None
  /\ arguments entry = top_level_redacted (Some flat_state).
Proof.
  apply (audit_entry_redacts_top_level
           "2024-01-15T10:00:00+00:00" "update_event"
           (Some "cal1") (Some "evt1") None
           (Some flat_state) None (Some flat_state) true None).
  - intros d Hd. injection Hd as <-. exact NoDup_flat_state.
  - intros d Hd. discriminate Hd.
  - intros d Hd. injection Hd as <-. exact NoDup_flat_state.
Defined.

(** C9 as stated fails below the top level: a token nested in the
    creator record reaches the audit log unredacted. *)
Lemma nested_secret_not_redacted :
  before_state
    (log_operation_entry "2024-01-15T10:00:00+00:00" "update_event"
       (Some "cal1") (Some "evt1") (Some nested_state) None None None true None)
  = Some nested_state
  /\ fully_redacted (PDict nested_state) = false.
Proof. split; reflexivity. Qed.

End AuditFacts.

(** ** adapters/retry.py *)

Section RetryFacts.
Import Py Retry.
Local Open Scope Q_scope.

(** *** The quota marker *)

Lemma handle_quota_exceeded_marker (now : Q) (retry_after : option Z)
    (qm : QuotaManager) :
  quota_exceeded_until (handle_quota_exceeded now retry_after qm)
  = Some (now + quota_window retry_after).
Proof.
  unfold handle_quota_exceeded, quota_window.
  destruct retry_after as [ra|]; [destruct (ra =? 0)%Z|]; reflexivity.
Qed.

(** C4, as the code has it.  A call to [handle_quota_exceeded] at clock
    reading [now] overwrites the marker with [now] plus the window (the
    retry-after when given and non-zero, 60 seconds otherwise), without
    looking at the previous value; the write therefore leaves the marker
    no earlier than before whenever the previous value is at most that new
    value, as it is when the previous window has run out and the window is
    not negative. *)
Theorem quota_marker_overwritten (now : Q) (retry_after : option Z)
    (qm : QuotaManager) :
  quota_exceeded_until (handle_quota_exceeded now retry_after qm)
  = Some (now + quota_window retry_after)
  /\ (forall old new,
        quota_exceeded_until qm = Some old ->
        quota_exceeded_until (handle_quota_exceeded now retry_after qm)
        = Some new ->
        (old <= now + quota_window retry_after
         \/ (old <= now /\ 0 <= quota_window retry_after)) ->
        old <= new).
Proof.
  split; [apply handle_quota_exceeded_marker|].
  intros old new _ Hnew Hold.
  rewrite handle_quota_exceeded_marker in Hnew. injection Hnew as <-.
  destruct Hold as [Hle | [Hexp Hpos]]; [exact Hle|].
  apply Qle_trans with (y := now + 0).
  - rewrite Qplus_0_r. exact Hexp.
  - apply Qplus_le_r. exact Hpos.
Qed.

Lemma quota_marker_overwritten_witness :
  quota_exceeded_until
    (handle_quota_exceeded 1100 (Some 30%Z)
       (handle_quota_exceeded 1000 None new_quota_manager))
  = Some (1100 + 30)
  /\ 1000 + 60 <= 1100 + 30.
Proof.
  pose proof (quota_marker_overwritten 1100 (Some 30%Z)
                (handle_quota_exceeded 1000 None new_quota_manager))
    as [Hval Hmono].
  split; [exact Hval|].
  apply (Hmono (1000 + 60) (1100 + 30)).
  - reflexivity.
  - reflexivity.
  - right. split; discriminate.
Defined.

(** C4 as stated fails: a 60-second default window written one second
    into a one-hour window pulls the marker back by almost an hour. *)
Lemma quota_marker_moves_backward :
  quota_exceeded_until
    (handle_quota_exceeded 1000 (Some 3600%Z) new_quota_manager)
  = Some (1000 + 3600)
  /\ quota_exceeded_until
       (handle_quota_exceeded 1001 None
          (handle_quota_exceeded 1000 (Some 3600%Z) new_quota_manager))
     = Some (1001 + 60)
  /\ ~ (1000 + 3600 <= 1001 + 60).
Proof.
  split; [reflexivity|]. split; [reflexivity|].
  intros H. vm_compute in H. apply H. reflexivity.
Qed.

(** *** The retry loop *)

Lemma Z_to_nat_succ (n : Z) :
  (0 <= n)%Z -> Z.to_nat (n + 1) = S (Z.to_nat n).
Proof. intros H. rewrite Z2Nat.inj_add by lia. simpl. lia. Qed.

Lemma status_classes_disjoint (status_code : Z) :
  retryable_status status_code = true ->
  non_retryable_status status_code = false.
Proof.
  unfold retryable_status, non_retryable_status. simpl.
  rewrite !orb_false_r, !orb_true_iff, !Z.eqb_eq.
  intros H.
  repeat (apply orb_false_iff; split); apply Z.eqb_neq; lia.
Qed.

(** A non-retryable HTTP failure ends the loop at once, wherever it
    occurs. *)
Lemma retry_loop_non_retryable {A : Type} (py_int : string -> option Z)
    (config : RetryConfig)
    (func : nat -> result A) (random : nat -> Q)
    (remaining attempt : nat) (last : option exn) (resp : Response) :
  func attempt = Raise (HttpError resp) ->
  non_retryable_status (status resp) = true ->
  retry_loop py_int config func random (S remaining) attempt last
  = (Raise (HttpError resp), [Called attempt]).
Proof.
  intros Hf Hs. simpl. rewrite Hf, Hs. reflexivity.
Qed.

(** C5.  When the callable fails with an HTTP error of status 400, 401,
    403 or 404, the engine has invoked it exactly once, performs no
    backoff sleep, and propagates that error. *)
Theorem non_retryable_single_attempt {A : Type} (py_int : string -> option Z)
    (config : RetryConfig)
    (func : nat -> result A) (random : nat -> Q) (resp : Response) :
  (0 <= max_retries config)%Z ->
  func 0%nat = Raise (HttpError resp) ->
  In (status resp) [400; 401; 403; 404]%Z ->
  exponential_backoff_retry py_int config func random
  = (Raise (HttpError resp), [Called 0]).
Proof.
  intros Hmax Hf Hs. unfold exponential_backoff_retry.
  rewrite (Z_to_nat_succ _ Hmax).
  apply retry_loop_non_retryable; [exact Hf|].
  unfold non_retryable_status. apply existsb_exists.
  exists (status resp). split; [exact Hs | apply Z.eqb_refl].
Qed.

Lemma non_retryable_single_attempt_witness :
  exponential_backoff_retry ascii_int adapter_config
    (fun _ => @Raise pyval (HttpError unauthorized)) (fun _ => 0)
  = (Raise (HttpError unauthorized), [Called 0]).
Proof.
  apply non_retryable_single_attempt.
  - discriminate.
  - reflexivity.
  - simpl. right. left. reflexivity.
Defined.

(** With a negative [max_retries] the loop body never runs: the callable
    is not invoked at all, which is why the statement above asks for a
    configuration that allows at least the first attempt. *)
Lemma negative_max_retries_no_attempt {A : Type} (py_int : string -> option Z)
    (config : RetryConfig)
    (func : nat -> result A) (random : nat -> Q) :
  (max_retries config < 0)%Z ->
  exponential_backoff_retry py_int config func random
  = (Raise (TypeError "exceptions must derive from BaseException"), []).
Proof.
  intros H. unfold exponential_backoff_retry.
  replace (Z.to_nat (max_retries config + 1)) with 0%nat by lia.
  reflexivity.
Qed.

(** An HTTP failure whose status is in neither list (a 501, say) is not
    retried either: the retryable 5xx statuses are 500, 502, 503 and 504
    only. *)
Lemma other_http_errors_propagate {A : Type} (py_int : string -> option Z)
    (config : RetryConfig)
    (func : nat -> result A) (random : nat -> Q)
    (remaining attempt : nat) (last : option exn) (resp : Response) :
  func attempt = Raise (HttpError resp) ->
  retryable_status (status resp) = false ->
  retry_loop py_int config func random (S remaining) attempt last
  = (Raise (HttpError resp), [Called attempt]).
Proof.
  intros Hf Hs. simpl. rewrite Hf, Hs.
  destruct (non_retryable_status (status resp)); reflexivity.
Qed.

Lemma Qltb_true (a b : Q) : Qltb a b = true <-> a < b.
Proof.
  unfold Qltb. rewrite negb_true_iff. split.
  - intros H. apply Qnot_le_lt. intros Hle.
    apply Qle_bool_iff in Hle. congruence.
  - intros H. destruct (Qle_bool b a) eqn:E; [|reflexivity].
    apply Qle_bool_iff in E. exfalso. exact (Qlt_not_le _ _ H E).
Qed.

Lemma Qltb_false (a b : Q) : Qltb a b = false <-> b <= a.
Proof.
  unfold Qltb. rewrite negb_false_iff. apply Qle_bool_iff.
Qed.

(** The built-in [max] is the maximum. *)
Lemma py_max_is_max (a b : Q) :
  py_max a b == Qmax a b /\ a <= py_max a b /\ b <= py_max a b.
Proof.
  unfold py_max. destruct (Qltb a b) eqn:E.
  - apply Qltb_true in E. apply Qlt_le_weak in E. repeat split.
    + symmetry. apply Q.max_r. exact E.
    + exact E.
    + apply Qle_refl.
  - apply Qltb_false in E. repeat split.
    + symmetry. apply Q.max_l. exact E.
    + apply Qle_refl.
    + exact E.
Qed.

(** The built-in [min] is the minimum. *)
Lemma py_min_is_min (a b : Q) : py_min a b == Qmin a b.
Proof.
  unfold py_min. destruct (Qltb b a) eqn:E.
  - apply Qltb_true in E. symmetry. apply Q.min_r. apply Qlt_le_weak. exact E.
  - apply Qltb_false in E. symmetry. apply Q.min_l. exact E.
Qed.

(** The statuses the loop retries, spelled out. *)
Lemma retried_statuses (status_code : Z) :
  In status_code [429; 500; 502; 503; 504]%Z ->
  retryable_status status_code = true
  /\ non_retryable_status status_code = false.
Proof.
  intros H.
  assert (Hr : retryable_status status_code = true).
  { unfold retryable_status. apply existsb_exists.
    exists status_code. split; [exact H | apply Z.eqb_refl]. }
  split; [exact Hr | exact (status_classes_disjoint _ Hr)].
Qed.

(** A power within the float range is computed as it is. *)
Lemma backoff_delay_in_range (config : RetryConfig) (attempt : nat) (rnd : Q) :
  in_float_range (exponential_base config ^ Z.of_nat attempt) = true ->
  backoff_delay config attempt rnd
  = Ok (if jitter config
        then py_min (base_delay config
                     * exponential_base config ^ Z.of_nat attempt)
               (max_delay config) * ((1 # 2) + rnd * (1 # 2))
        else py_min (base_delay config
                     * exponential_base config ^ Z.of_nat attempt)
               (max_delay config)).
Proof.
  intros H. unfold backoff_delay, float_pow. cbn zeta. rewrite H. reflexivity.
Qed.

(** A power out of the float range raises, whatever the other settings. *)
Lemma backoff_delay_out_of_range (config : RetryConfig) (attempt : nat)
    (rnd : Q) :
  in_float_range (exponential_base config ^ Z.of_nat attempt) = false ->
  backoff_delay config attempt rnd
  = Raise (OverflowError "(34, 'Numerical result out of range')").
Proof.
  intros H. unfold backoff_delay, float_pow. cbn zeta. rewrite H. reflexivity.
Qed.

(** With an integer Retry-After the delay is the greater of the two, and
    it is logged without error when the integer is within the float
    range. *)
Lemma apply_retry_after_integer (py_int : string -> option Z)
    (resp : Response) (delay : Q) (s : string) (n : Z) :
  dict_get "retry-after" (resp_headers resp) = Some s ->
  s <> "" ->
  py_int s = Some n ->
  seconds (apply_retry_after py_int resp delay) = py_max delay (inject_Z n)
  /\ (in_float_range (inject_Z n) = true ->
      format_delay (apply_retry_after py_int resp delay) = Ok tt).
Proof.
  intros Hh Hs Hn. unfold apply_retry_after, py_max.
  rewrite Hh, Hn.
  assert (Ht : str_truthy s = true) by (destruct s; [contradiction | reflexivity]).
  rewrite Ht.
  destruct (Qltb delay (inject_Z n)); simpl.
  - split; [reflexivity|]. intros ->. reflexivity.
  - split; reflexivity.
Qed.

(** C6, as the code has it.  When an attempt that still has retries left
    fails with status 429, 500, 502, 503 or 504, the response carries a
    non-empty Retry-After that reads as the integer [n], and both
    [exponential_base ** attempt] and [n] are within the float range, the
    engine sleeps before the next attempt for the maximum of the computed
    backoff, [min(base_delay * exponential_base ** attempt, max_delay)]
    scaled by [0.5 + 0.5 * random] when jitter is on, and [n]; so the
    wait is at least [n] seconds whatever the jitter draw. *)
Theorem retry_after_raises_delay {A : Type} (py_int : string -> option Z)
    (config : RetryConfig)
    (func : nat -> result A) (random : nat -> Q)
    (remaining attempt : nat) (last : option exn)
    (resp : Response) (s : string) (n : Z) :
  func attempt = Raise (HttpError resp) ->
  In (status resp) [429; 500; 502; 503; 504]%Z ->
  (Z.of_nat attempt < max_retries config)%Z ->
  dict_get "retry-after" (resp_headers resp) = Some s ->
  s <> "" ->
  py_int s = Some n ->
  Qabs (exponential_base config ^ Z.of_nat attempt) < float_limit ->
  Qabs (inject_Z n) < float_limit ->
  exists waited : Q,
    retry_loop py_int config func random (S remaining) attempt last
    = after [Called attempt; Slept waited]
        (retry_loop py_int config func random remaining (S attempt)
           (Some (HttpError resp)))
    /\ waited
       == Qmax (Qmin (base_delay config
                      * exponential_base config ^ Z.of_nat attempt)
                     (max_delay config)
                * (if jitter config
                   then (1 # 2) + (1 # 2) * random attempt
                   else 1))
               (inject_Z n)
    /\ inject_Z n <= waited.
Proof.
  intros Hf Hs Hlt Hh Hne Hn Hpow Hint.
  apply Qltb_true in Hpow. apply Qltb_true in Hint.
  destruct (retried_statuses _ Hs) as [Hr Hnr].
  pose proof (backoff_delay_in_range config attempt (random attempt) Hpow)
    as Hback.
  set (computed := if jitter config
                   then py_min (base_delay config
                                * exponential_base config ^ Z.of_nat attempt)
                          (max_delay config)
                        * ((1 # 2) + random attempt * (1 # 2))
                   else py_min (base_delay config
                                * exponential_base config ^ Z.of_nat attempt)
                          (max_delay config)) in *.
  destruct (apply_retry_after_integer py_int resp computed s n Hh Hne Hn)
    as [Hsec Hfmt].
  exists (py_max computed (inject_Z n)).
  split; [|split].
  - simpl. rewrite Hf, Hnr, Hr.
    replace (Z.of_nat attempt >=? max_retries config)%Z with false
      by (symmetry; rewrite Z.geb_leb; apply Z.leb_gt; exact Hlt).
    rewrite Hback, (Hfmt Hint), Hsec. reflexivity.
  - destruct (py_max_is_max computed (inject_Z n)) as (Hmax & _ & _).
    rewrite Hmax. apply Q.max_compat; [|reflexivity].
    unfold computed.
    destruct (jitter config); rewrite py_min_is_min; ring.
  - destruct (py_max_is_max computed (inject_Z n)) as (_ & _ & Hge).
    exact Hge.
Qed.

Lemma retry_after_raises_delay_witness :
  exists waited : Q,
    retry_loop ascii_int adapter_config
      (fun _ => @Raise pyval (HttpError (rate_limited "2"))) (fun _ => 0)
      4 0 None
    = after [Called 0; Slept waited]
        (retry_loop ascii_int adapter_config
           (fun _ => @Raise pyval (HttpError (rate_limited "2"))) (fun _ => 0)
           3 1 (Some (HttpError (rate_limited "2"))))
    /\ 2 <= waited.
Proof.
  destruct (retry_after_raises_delay ascii_int adapter_config
              (fun _ => @Raise pyval (HttpError (rate_limited "2")))
              (fun _ => 0) 3 0 None (rate_limited "2") "2" 2%Z)
    as (waited & Hrun & _ & Hge).
  - reflexivity.
  - simpl. left. reflexivity.
  - reflexivity.
  - reflexivity.
  - discriminate.
  - reflexivity.
  - reflexivity.
  - reflexivity.
  - exists waited. split; [exact Hrun | exact Hge].
Defined.

(** C6 as stated fails in two ways.  A failure with status 501, a 5xx,
    is not retried at all: the engine raises it without any wait, its
    Retry-After notwithstanding.  And a 429 whose Retry-After is an
    integer beyond the float range (here 1 followed by 400 zeros) ends
    the engine with an [OverflowError] raised by the log line, before any
    sleep. *)
Lemma retry_after_wait_not_universal :
  exponential_backoff_retry ascii_int default_config
    (fun _ => @Raise pyval (HttpError not_implemented)) (fun _ => 0)
  = (Raise (HttpError not_implemented), [Called 0])
  /\ dict_get "retry-after" (resp_headers not_implemented) = Some "2"
  /\ ascii_int "2" = Some 2%Z
  /\ exponential_backoff_retry ascii_int default_config
       (fun _ => @Raise pyval (HttpError (rate_limited googol4)))
       (fun _ => 0)
     = (Raise (OverflowError "int too large to convert to float"),
        [Called 0])
  /\ ascii_int googol4 = Some (10 ^ 400)%Z.
Proof.
  repeat split; vm_compute; reflexivity.
Qed.

End RetryFacts.

(** ** adapters/workers.py *)

Section WorkersFacts.
Import Py Workers.

(** [Queue.put] never raises: on a full queue it parks the caller. *)
Lemma put_never_raises (item : WorkerTask) (q : Queue) (e : exn) :
  put item q <> Finished (Raise e).
Proof.
  unfold put, put_nowait. destruct (full q); discriminate.
Qed.

Lemma put_full (item : WorkerTask) (q : Queue) :
  full q = true -> put item q = Parked FreeSlot.
Proof. unfold put. intros ->. reflexivity. Qed.

Lemma start_keeps_queue (pool : WorkerPool) : queue (start pool) = queue pool.
Proof. unfold start. destruct (is_running pool); reflexivity. Qed.

(** No submission ever fails: the [except asyncio.QueueFull] branch of
    [submit_task] is out of reach. *)
Lemma submit_task_never_raises (pool : WorkerPool) (now func : string)
    (args : list pyval) (task_id : option string) (priority : Z)
    (kwargs : dict pyval) (e : exn) :
  fst (submit_task pool now func args task_id priority kwargs)
  <> Finished (Raise e).
Proof.
  unfold submit_task, put, put_nowait.
  destruct (full (queue (if negb (is_running pool) then start pool else pool)));
    simpl; discriminate.
Qed.

(** C3, what the code does instead.  A submission to a pool whose bounded
    queue is full does not fail: the submitter is parked, waiting for a
    free slot, and the pool's queue is left as it was. *)
Theorem submit_task_full_queue_parks (pool : WorkerPool) (now func : string)
    (args : list pyval) (task_id : option string) (priority : Z)
    (kwargs : dict pyval) :
  full (queue pool) = true ->
  fst (submit_task pool now func args task_id priority kwargs) = Parked FreeSlot
  /\ queue (snd (submit_task pool now func args task_id priority kwargs))
     = queue pool.
Proof.
  intros Hfull. unfold submit_task.
  set (pool' := if negb (is_running pool) then start pool else pool).
  assert (Hq : queue pool' = queue pool).
  { unfold pool'. destruct (negb (is_running pool));
      [apply start_keeps_queue | reflexivity]. }
  rewrite put_full by (rewrite Hq; exact Hfull).
  simpl. split; [reflexivity | exact Hq].
Qed.

(** The default capacity of 100, used up. *)
Lemma submit_task_full_queue_parks_witness :
  fst (submit_task (pool_with_backlog 100) "2024-01-15T10:00:01" "api_call"
         [] None 0 [])
  = Parked FreeSlot
  /\ queue (snd (submit_task (pool_with_backlog 100) "2024-01-15T10:00:01"
                   "api_call" [] None 0 []))
     = queue (pool_with_backlog 100).
Proof.
  apply submit_task_full_queue_parks. reflexivity.
Defined.

End WorkersFacts.

(** ** tools/schemas.py *)

Section SchemasFacts.
Import Py Schemas.
Variable parse_datetime : pyval -> option string.

(** The validator only rejects on what [values] holds under [date]; with
    nothing there, it lets every value through but an explicit [None]. *)
Lemma validate_datetime_or_date_without_date (v : pyval) (values : dict pyval) :
  dict_get "date" values = None ->
  validate_datetime_or_date v values
  = if is_none v
    then Raise (ValueError "Either dateTime or date must be provided")
    else Ok v.
Proof.
  intros H. unfold validate_datetime_or_date, dict_get_or_none. rewrite H.
  destruct (is_none v); reflexivity.
Qed.

(** C2, what the code does instead.  A start/end value that gives both a
    dateTime and a date passes validation unchanged, and so does one that
    gives neither: when the validator runs for [dateTime] no field has been
    accepted yet, and when it runs for [date] only [dateTime] has, so its
    look-up of [date] among the accepted fields never finds anything; for
    a field left out it does not run at all. *)
Theorem one_of_rule_not_enforced (iso d : string) :
  validate_fields (EventDateTime parse_datetime)
    [("dateTime", PDateTime iso); ("date", PStr d)]
  = Ok [("dateTime", PDateTime iso); ("date", PStr d); ("timeZone", PNone)]
  /\ validate_fields (EventDateTime parse_datetime) neither_given
     = Ok [("dateTime", PNone); ("date", PNone); ("timeZone", PNone)].
Proof. split; reflexivity. Qed.

(** The same through the tool validator: a [create_event] call whose start
    gives both and whose end gives neither is accepted. *)
Lemma create_event_accepts_broken_times :
  exists validated,
    validate_tool_args parse_datetime "create_event"
      [("calendarId", PStr "cal1"); ("summary", PStr "Standup");
       ("start", PDict both_given); ("end", PDict neither_given)]
    = Ok validated
    /\ dict_get "start" (dict_ validated)
       = Some (PDict [("dateTime", PDateTime "2024-01-15T10:00:00");
                      ("date", PStr "2024-01-15"); ("timeZone", PNone)])
    /\ dict_get "end" (dict_ validated)
       = Some (PDict [("dateTime", PNone); ("date", PNone);
                      ("timeZone", PNone)]).
Proof. eexists. repeat split; reflexivity. Qed.

(** Whatever the input, it is never turned down for giving both: the
    message of that check is absent from every error list. *)
Lemma both_given_never_reported (raw : dict pyval) (errs : errors) (loc : string) :
  validate_fields (EventDateTime parse_datetime) raw
  = Raise (ValidationError errs) ->
  ~ In (loc, "Cannot specify both dateTime and date") errs.
Proof.
  unfold validate_fields, EventDateTime. cbn [fold_left].
  unfold validate_field at 3.
  cbn [name required default annotation validators run_validators].
  destruct (dict_get "dateTime" raw) as [x|];
    [destruct (t_optional (t_datetime parse_datetime) x) as [v|];
       [rewrite validate_datetime_or_date_without_date by reflexivity;
        destruct (is_none v)|]|];
    unfold validate_field at 2;
    cbn [name required default annotation validators run_validators];
    (destruct (dict_get "date" raw) as [y|];
       [destruct (t_optional t_str y) as [w|];
          [rewrite validate_datetime_or_date_without_date by reflexivity;
           destruct (is_none w)|]|]);
    unfold validate_field, opt;
    cbn [name required default annotation validators run_validators];
    (destruct (dict_get "timeZone" raw) as [z|];
       [destruct (t_optional t_str z) as [u|]|]);
    simpl; intros H; try discriminate; injection H as <-; simpl;
    intuition discriminate.
Qed.

(** The well-formed cases are accepted, as the tests expect. *)
Lemma date_only_accepted :
  validate_fields (EventDateTime parse_datetime) date_only
  = Ok [("dateTime", PNone); ("date", PStr "2024-01-15"); ("timeZone", PNone)].
Proof. reflexivity. Qed.

(** *** What an accepted model holds *)

Lemma dict_get_set_eq (k : string) (v : pyval) (d : dict pyval) :
  dict_get k (dict_set k v d) = Some v.
Proof.
  induction d as [|[k' v'] d IH]; simpl.
  - rewrite String.eqb_refl. reflexivity.
  - destruct (String.eqb k k') eqn:E; simpl; rewrite E; [reflexivity | exact IH].
Qed.

Lemma dict_get_set_ne (k k' : string) (v : pyval) (d : dict pyval) :
  k <> k' -> dict_get k (dict_set k' v d) = dict_get k d.
Proof.
  intros Hne. induction d as [|[k0 v0] d IH]; simpl.
  - apply String.eqb_neq in Hne. rewrite Hne. reflexivity.
  - destruct (String.eqb_spec k' k0) as [->|Hk]; simpl.
    + apply String.eqb_neq in Hne. rewrite Hne. reflexivity.
    + rewrite IH. reflexivity.
Qed.

(** Errors, once recorded, stay. *)
Lemma validate_field_errors (raw : dict pyval) (st : dict pyval * errors)
    (f : Field) :
  snd (validate_field raw st f) = [] -> snd st = [].
Proof.
  destruct st as [values errs]. unfold validate_field.
  destruct (dict_get (name f) raw) as [x|].
  - destruct (annotation f x) as [v|]; simpl.
    + destruct (run_validators (validators f) v values); simpl; [auto|].
      intros H. apply app_eq_nil in H as [H _]. exact H.
    + intros H. apply app_eq_nil in H as [H _]. exact H.
  - destruct (required f); simpl; [|auto].
    intros H. apply app_eq_nil in H as [H _]. exact H.
Qed.

Lemma validate_fields_errors (raw : dict pyval) (fields : list Field) :
  forall st, snd (fold_left (validate_field raw) fields st) = [] -> snd st = [].
Proof.
  induction fields as [|f fields IH]; simpl; intros st H; [exact H|].
  apply (validate_field_errors raw st f). apply IH. exact H.
Qed.

(** A field only writes under its own name. *)
Lemma validate_field_other (raw : dict pyval) (st : dict pyval * errors)
    (f : Field) (k : string) :
  k <> name f ->
  dict_get k (fst (validate_field raw st f)) = dict_get k (fst st).
Proof.
  intros Hne. destruct st as [values errs]. unfold validate_field.
  destruct (dict_get (name f) raw) as [x|].
  - destruct (annotation f x) as [v|]; simpl; [|reflexivity].
    destruct (run_validators (validators f) v values); simpl; [|reflexivity].
    apply dict_get_set_ne. exact Hne.
  - destruct (required f); simpl; [reflexivity|].
    apply dict_get_set_ne. exact Hne.
Qed.

Lemma validate_fields_other (raw : dict pyval) (fields : list Field)
    (k : string) :
  ~ In k (map name fields) ->
  forall st,
    dict_get k (fst (fold_left (validate_field raw) fields st))
    = dict_get k (fst st).
Proof.
  induction fields as [|f fields IH]; simpl; intros Hk st; [reflexivity|].
  rewrite IH by (intros H; apply Hk; right; exact H).
  apply validate_field_other. intros ->. apply Hk. left. reflexivity.
Qed.

(** An accepted field is recorded under its name; when the input leaves
    it out, what is recorded is its default. *)
Lemma validate_field_own (raw : dict pyval) (st : dict pyval * errors)
    (f : Field) :
  snd (validate_field raw st f) = [] ->
  dict_contains (name f) (fst (validate_field raw st f)) = true
  /\ (dict_get (name f) raw = None ->
      dict_get (name f) (fst (validate_field raw st f)) = Some (default f)).
Proof.
  destruct st as [values errs]. unfold validate_field, dict_contains.
  destruct (dict_get (name f) raw) as [x|].
  - destruct (annotation f x) as [v|]; simpl.
    + destruct (run_validators (validators f) v values); simpl.
      * intros _. rewrite dict_get_set_eq. split; [reflexivity | discriminate].
      * intros H. apply app_eq_nil in H as [_ H]. discriminate.
    + intros H. apply app_eq_nil in H as [_ H]. discriminate.
  - destruct (required f); simpl.
    + intros H. apply app_eq_nil in H as [_ H]. discriminate.
    + intros _. rewrite dict_get_set_eq. split; reflexivity.
Qed.

Lemma validate_fields_own (raw : dict pyval) (fields : list Field) :
  List.NoDup (map name fields) ->
  forall st f,
    In f fields ->
    snd (fold_left (validate_field raw) fields st) = [] ->
    dict_contains (name f) (fst (fold_left (validate_field raw) fields st)) = true
    /\ (dict_get (name f) raw = None ->
        dict_get (name f) (fst (fold_left (validate_field raw) fields st))
        = Some (default f)).
Proof.
  induction fields as [|g fields IH]; simpl; intros Hnd st f Hin Herr;
    [contradiction|].
  inversion Hnd as [|? ? Hg Hnd']; subst.
  destruct Hin as [->|Hin].
  - pose proof (validate_fields_errors raw fields _ Herr) as Hstep.
    destruct (validate_field_own raw st f Hstep) as [Hc Hd].
    unfold dict_contains in *.
    rewrite (validate_fields_other raw fields (name f) Hg). split; assumption.
  - apply IH; assumption.
Qed.

(** Every declared field is a key of [dict()] of an accepted model, and a
    field the input left out is there with its default. *)
Lemma accepted_model_holds_every_field (fields : list Field)
    (raw values : dict pyval) (f : Field) :
  List.NoDup (map name fields) ->
  In f fields ->
  validate_fields fields raw = Ok values ->
  dict_contains (name f) values = true
  /\ (dict_get (name f) raw = None -> dict_get (name f) values = Some (default f)).
Proof.
  intros Hnd Hin. unfold validate_fields.
  destruct (fold_left (validate_field raw) fields ([], [])) as [vals errs] eqn:E.
  destruct errs; [|discriminate]. intros H. injection H as <-.
  pose proof (validate_fields_own raw fields Hnd ([], []) f Hin) as Hown.
  rewrite E in Hown. apply Hown. reflexivity.
Qed.

End SchemasFacts.

(** ** adapters/calendar.py *)

Section CalendarFacts.
Import Py Schemas Calendar.
Variable parse_datetime : pyval -> option string.

(** What [validated_args.dict()] holds for a summary-only request: every
    field of the schema, the ones left out as [None]. *)
Lemma summary_only_job_arguments (c e s : string) :
  Router.job_arguments parse_datetime "update_event" (summary_only c e s)
  = Ok [("calendarId", PStr c); ("eventId", PStr e); ("summary", PStr s);
        ("description", PNone); ("start", PNone); ("end", PNone);
        ("location", PNone); ("attendees", PNone); ("visibility", PNone);
        ("status", PNone); ("recurrence", PNone); ("reminders", PNone);
        ("conferenceData", PNone)].
Proof. reflexivity. Qed.

(** On the caller's own dict the builder does what its docstring says:
    only the fields present go into the body. *)
Lemma build_update_body_of_raw_request (c e s : string) :
  _build_update_body (summary_only c e s) = Ok [("summary", PStr s)].
Proof. reflexivity. Qed.

Lemma update_schema_names_distinct :
  List.NoDup (map name (UpdateEventSchema parse_datetime)).
Proof.
  simpl. repeat constructor; simpl; intuition discriminate.
Qed.

Lemma validated_update_fields (raw : dict pyval) (validated : BaseModel) :
  validate_tool_args parse_datetime "update_event" raw = Ok validated ->
  validate_fields (UpdateEventSchema parse_datetime) raw
  = Ok (dict_ validated).
Proof.
  unfold validate_tool_args. simpl. unfold construct.
  destruct (validate_fields (UpdateEventSchema parse_datetime) raw)
    as [values|e]; simpl.
  - intros H. injection H as <-. reflexivity.
  - destruct e; discriminate.
Qed.

(** For every summary-only request the outcome is the same failure. *)
Lemma summary_only_update_builds_no_body (c e s : string) :
  (do arguments <- Router.job_arguments parse_datetime "update_event"
                     (summary_only c e s);
   _build_update_body arguments)
  = Raise (AttributeError "'NoneType' object has no attribute 'get'").
Proof. reflexivity. Qed.

(** C1, what the code does instead.  The argument dict the router hands to
    the adapter for a validated [update_event] request carries every event
    field of the schema as a key, whether the caller gave it or not; the
    builder therefore treats them all as present, and whenever the caller
    left out [start] (as in a summary-only request) it fails on it with
    AttributeError: no update body is produced, let alone one holding the
    summary alone. *)
Theorem absent_fields_reach_the_builder (raw : dict pyval)
    (validated : BaseModel) :
  validate_tool_args parse_datetime "update_event" raw = Ok validated ->
  (forall field, In field event_fields ->
                 dict_contains field (dict_ validated) = true)
  /\ (dict_get "start" raw = None ->
      _build_update_body (dict_ validated)
      = Raise (AttributeError "'NoneType' object has no attribute 'get'")).
Proof.
  intros Hv. apply validated_update_fields in Hv.
  pose proof update_schema_names_distinct as Hnd.
  split.
  - intros field Hin.
    assert (Hf : exists f, In f (UpdateEventSchema parse_datetime)
                           /\ name f = field).
    { change event_fields
        with (map name (skipn 2 (UpdateEventSchema parse_datetime))) in Hin.
      apply in_map_iff in Hin as (f & Hname & Hf).
      exists f. split; [|exact Hname].
      simpl in Hf |- *. right. right. exact Hf. }
    destruct Hf as (f & Hf & <-).
    apply (accepted_model_holds_every_field _ raw _ f Hnd Hf Hv).
  - intros Habsent.
    destruct (accepted_model_holds_every_field
                (UpdateEventSchema parse_datetime) raw (dict_ validated)
                (opt "start" (t_model (EventDateTime parse_datetime)) PNone)
                Hnd) as [_ Hstart]; [simpl; tauto | exact Hv |].
    specialize (Hstart Habsent). simpl in Hstart.
    unfold _build_update_body, copy_datetime at 1.
    rewrite Hstart. reflexivity.
Qed.

(** Had the time fields been given, the absent fields would still travel
    as [None] and the builder would stop at the attendees. *)
Lemma absent_attendees_break_the_builder (c e s : string) :
  (do arguments <- Router.job_arguments parse_datetime "update_event"
                     (summary_only c e s
                      ++ [("start", PDict date_only); ("end", PDict date_only)])%list;
   _build_update_body arguments)
  = Raise (TypeError "'NoneType' object is not iterable").
Proof. reflexivity. Qed.

End CalendarFacts.

(** The summary-only request of scenario B. *)
Lemma absent_fields_reach_the_builder_witness :
  Py.dict_contains "description"
    (Schemas.dict_ Calendar.summary_only_validated) = true
  /\ Calendar._build_update_body (Schemas.dict_ Calendar.summary_only_validated)
     = Py.Raise (Py.AttributeError "'NoneType' object has no attribute 'get'").
Proof.
  destruct (absent_fields_reach_the_builder Schemas.no_parse
              (Calendar.summary_only "cal1" "evt1" "Standup")
              Calendar.summary_only_validated eq_refl) as [Hall Hstart].
  split.
  - apply Hall. simpl. tauto.
  - apply Hstart. reflexivity.
Defined.

(** ** router/idempotency.py *)

Section IdempotencyFacts.
Import Py Idempotency.

(** *** The order on keys *)

Lemma ascii_compare_lt_trans (a b c : ascii) :
  Ascii.compare a b = Lt -> Ascii.compare b c = Lt -> Ascii.compare a c = Lt.
Proof.
  unfold Ascii.compare. rewrite !N.compare_lt_iff. apply N.lt_trans.
Qed.

Lemma string_leb_trans (a : string) :
  forall b c, String.leb a b = true -> String.leb b c = true ->
              String.leb a c = true.
Proof.
  unfold String.leb.
  induction a as [|a0 a IH]; intros [|b0 b] [|c0 c]; simpl;
    try reflexivity; try discriminate.
  destruct (Ascii.compare a0 b0) eqn:Eab; try discriminate;
    destruct (Ascii.compare b0 c0) eqn:Ebc; try discriminate; intros Hab Hbc.
  - apply Ascii.compare_eq_iff in Eab, Ebc. subst.
    replace (Ascii.compare c0 c0) with Eq
      by (symmetry; unfold Ascii.compare; apply N.compare_refl).
    apply (IH b c); assumption.
  - apply Ascii.compare_eq_iff in Eab. subst. rewrite Ebc. reflexivity.
  - apply Ascii.compare_eq_iff in Ebc. subst. rewrite Eab. reflexivity.
  - rewrite (ascii_compare_lt_trans _ _ _ Eab Ebc). reflexivity.
Qed.

(** *** Sorting the members *)

Lemma insert_item_comm (x y : string * string) :
  fst x <> fst y ->
  forall l, insert_item x (insert_item y l) = insert_item y (insert_item x l).
Proof.
  intros Hne.
  assert (Hxy : String.leb (fst x) (fst y) = true ->
                String.leb (fst y) (fst x) = false).
  { intros H. destruct (String.leb (fst y) (fst x)) eqn:E; [|reflexivity].
    exfalso. apply Hne. apply String.leb_antisym; assumption. }
  assert (Hyx : String.leb (fst x) (fst y) = false ->
                String.leb (fst y) (fst x) = true).
  { intros H. destruct (String.leb_total (fst x) (fst y)); congruence. }
  induction l as [|h t IH]; simpl.
  - destruct (String.leb (fst x) (fst y)) eqn:E.
    + rewrite (Hxy eq_refl). reflexivity.
    + rewrite (Hyx eq_refl). reflexivity.
  - destruct (String.leb (fst y) (fst h)) eqn:Eyh;
      destruct (String.leb (fst x) (fst h)) eqn:Exh; simpl;
      rewrite ?Eyh, ?Exh.
    + destruct (String.leb (fst x) (fst y)) eqn:E.
      * rewrite (Hxy eq_refl), ?Eyh. reflexivity.
      * rewrite (Hyx eq_refl), ?Exh. reflexivity.
    + destruct (String.leb (fst x) (fst y)) eqn:E; [|reflexivity].
      rewrite (string_leb_trans _ _ _ E Eyh) in Exh. discriminate.
    + destruct (String.leb (fst y) (fst x)) eqn:E; [|reflexivity].
      rewrite (string_leb_trans _ _ _ E Exh) in Eyh. discriminate.
    + rewrite IH. reflexivity.
Qed.

(** Sorting forgets the order in which distinct keys came in. *)
Lemma sort_items_permutation (l l' : list (string * string)) :
  Permutation l l' -> List.NoDup (map fst l) -> sort_items l = sort_items l'.
Proof.
  induction 1 as [|x l l' Hp IH|x y l|l l' l'' Hp1 IH1 Hp2 IH2];
    simpl; intros Hnd.
  - reflexivity.
  - inversion Hnd; subst. rewrite IH by assumption. reflexivity.
  - inversion Hnd as [|? ? Hy Hnd']; subst.
    apply insert_item_comm. intros Heq. apply Hy. left. symmetry. exact Heq.
  - rewrite IH1 by assumption. apply IH2.
    apply (Permutation_NoDup (Permutation_map fst Hp1) Hnd).
Qed.

(** *** The encoder *)

Section WithEncoder.
Variable encode_string : string -> string.
Variable sha256_hexdigest : string -> string.

Lemma dumps_dict (sort_keys : bool) (d : dict pyval) :
  dumps encode_string sort_keys (PDict d)
  = let members :=
      map (fun kv => (fst kv, dumps encode_string sort_keys (snd kv))) d in
    let members := if sort_keys then sort_items members else members in
    "{" +:+ join ", " (map (fun kt => encode_string (fst kt) +:+ ": "
                                      +:+ snd kt) members) +:+ "}".
Proof. reflexivity. Qed.

Lemma dumps_list (sort_keys : bool) (l : list pyval) :
  dumps encode_string sort_keys (PList l)
  = "[" +:+ join ", " (map (dumps encode_string sort_keys) l) +:+ "]".
Proof. reflexivity. Qed.

(** With [sort_keys], the text does not depend on key order. *)
Lemma dumps_reordered (u v : pyval) :
  reordered u v -> dumps encode_string true u = dumps encode_string true v.
Proof.
  induction 1 as [v|u v w _ IH1 _ IH2|d d' Hnd Hp|pre k v v' post _ IH
                 |pre v v' post _ IH].
  - reflexivity.
  - congruence.
  - rewrite !dumps_dict. cbv zeta.
    rewrite (sort_items_permutation
               (map (fun kv => (fst kv, dumps encode_string true (snd kv))) d)
               (map (fun kv => (fst kv, dumps encode_string true (snd kv))) d')).
    + reflexivity.
    + apply Permutation_map. exact Hp.
    + rewrite map_map. exact Hnd.
  - rewrite !dumps_dict. cbv zeta. rewrite !map_app. simpl. rewrite IH.
    reflexivity.
  - rewrite !dumps_list, !map_app. simpl. rewrite IH. reflexivity.
Qed.

(** C8.  The fingerprint is a function of operation name, arguments and
    caller (so calling it again on the same inputs gives the same key),
    and it does not see the order in which the argument dicts enumerate
    their keys, at any nesting depth. *)
Theorem generate_key_order_independent (tool_name : string)
    (arguments arguments' : dict pyval) (user_id : option string) :
  reordered (PDict arguments) (PDict arguments') ->
  generate_key encode_string sha256_hexdigest tool_name arguments user_id
  = generate_key encode_string sha256_hexdigest tool_name arguments' user_id.
Proof.
  intros H. unfold generate_key. do 2 f_equal.
  apply dumps_reordered.
  apply (reordered_member [("tool", PStr tool_name)] "args"
           (PDict arguments) (PDict arguments')
           [("user", match user_id with Some u => PStr u | None => PNone end)]).
  exact H.
Qed.

End WithEncoder.

Lemma arguments_reordered :
  reordered (PDict arguments_one_order) (PDict arguments_other_order).
Proof.
  apply reordered_trans
    with (v := PDict [("start", PDict [("date", PStr "2024-01-15");
                                       ("timeZone", PStr "UTC")]);
                      ("calendarId", PStr "cal1")]).
  - apply reordered_keys.
    + repeat constructor; simpl; intuition discriminate.
    + apply perm_swap.
  - apply (reordered_member [] "start" _ _ [("calendarId", PStr "cal1")]).
    apply reordered_keys.
    + repeat constructor; simpl; intuition discriminate.
    + apply perm_swap.
Qed.

Lemma generate_key_order_independent_witness :
  generate_key quote_only text_as_digest "create_event"
    arguments_one_order (Some "alice")
  = generate_key quote_only text_as_digest "create_event"
      arguments_other_order (Some "alice").
Proof.
  apply generate_key_order_independent. exact arguments_reordered.
Defined.

(** The canonical text both orders are hashed from. *)
Lemma canonical_text_example :
  dumps quote_only true (PDict arguments_other_order)
  = dumps quote_only true (PDict arguments_one_order)
  /\ dumps quote_only false (PDict arguments_other_order)
     <> dumps quote_only false (PDict arguments_one_order).
Proof. split; [reflexivity | discriminate]. Qed.

End IdempotencyFacts.

(** ** router/queue.py *)

Section RouterFacts.
Import Py Router.
Import Idempotency (jsonable).
Variable parse_datetime : pyval -> option string.
Variable encode_string : string -> string.
Variable sha256_hexdigest : string -> string.
Variable Remote : Type.
Variable calendar_adapter : string -> dict pyval -> Remote -> dict pyval * Remote.

#[local] Abbreviation enqueue :=
  (enqueue_tool_call parse_datetime encode_string sha256_hexdigest
     Remote calendar_adapter).
#[local] Abbreviation key_of :=
  (Idempotency.generate_key encode_string sha256_hexdigest).
#[local] Abbreviation queue := (CommandQueue Remote).

Lemma ensure_initialized_keeps (self : queue) :
  idempotency_cache Remote (_ensure_initialized Remote self)
  = idempotency_cache Remote self
  /\ adapter_calls Remote (_ensure_initialized Remote self)
     = adapter_calls Remote self
  /\ remote Remote (_ensure_initialized Remote self) = remote Remote self.
Proof.
  unfold _ensure_initialized. destruct (_initialized Remote self);
    repeat split; reflexivity.
Qed.

(** The hit path, as a function of the state after initialisation. *)
Lemma enqueue_hit (now later : Z) (self : queue) (tool_name : string)
    (arguments : dict pyval) (user_id : option string)
    (validated : Schemas.BaseModel) (cached : pyval) :
  Schemas.validate_tool_args parse_datetime tool_name arguments = Ok validated ->
  Idempotency.get now (idempotency_cache Remote self)
    (key_of tool_name arguments user_id) = Some cached ->
  truthy cached = true ->
  enqueue now later self tool_name arguments user_id
  = ([cached], _ensure_initialized Remote self).
Proof.
  intros Hv Hget Htrue. unfold enqueue_tool_call.
  destruct (ensure_initialized_keeps self) as (Hc & _ & _).
  rewrite Hv, Hc, Hget, Htrue. reflexivity.
Qed.


(** What the router stores is never empty, so a stored entry always
    counts as a hit. *)
Lemma jsonable_truthy (d : dict pyval) :
  truthy (jsonable (PDict d)) = truthy (PDict d).
Proof. destruct d; reflexivity. Qed.

Lemma get_after_set (now later : Z) (cache : Idempotency.IdempotencyCache)
    (key : string) (result : pyval) :
  Idempotency.keeps_until now later cache ->
  Idempotency.get now (snd (Idempotency.set later cache key result None)) key
  = Some (jsonable result).
Proof.
  unfold Idempotency.keeps_until, Idempotency.get, Idempotency.set.
  destruct cache as [[reachable entries | data] ttl]; simpl.
  - intros (-> & Hpos & Hlive). simpl.
    replace (ttl <=? 0) with false by (symmetry; apply Z.leb_gt; exact Hpos).
    simpl. rewrite lookup_insert_eq.
    replace (now <? later + ttl) with true
      by (symmetry; apply Z.ltb_lt; exact Hlive).
    reflexivity.
  - intros _. rewrite lookup_insert_eq. reflexivity.
Qed.

(** A tool that passes validation is one of the four the router knows:
    its job goes to the adapter method of the same name. *)
Lemma process_job_validated (self : queue) (tool_name : string)
    (arguments job_args : dict pyval) (validated : Schemas.BaseModel) :
  Schemas.validate_tool_args parse_datetime tool_name arguments = Ok validated ->
  _process_job Remote calendar_adapter self tool_name job_args
  = invoke_adapter Remote calendar_adapter self tool_name job_args.
Proof.
  unfold Schemas.validate_tool_args, Schemas.SCHEMA_MAP, _process_job. simpl.
  destruct (String.eqb_spec tool_name "create_event") as [->|_]; [reflexivity|].
  destruct (String.eqb_spec tool_name "update_event") as [->|_]; [reflexivity|].
  destruct (String.eqb_spec tool_name "delete_event") as [->|_]; [reflexivity|].
  destruct (String.eqb_spec tool_name "freebusy_query") as [->|_]; [reflexivity|].
  discriminate.
Qed.

(** The miss path: one adapter invocation, and the envelope stored. *)
Lemma enqueue_miss (now later : Z) (self : queue) (tool_name : string)
    (arguments : dict pyval) (user_id : option string)
    (validated : Schemas.BaseModel) :
  Schemas.validate_tool_args parse_datetime tool_name arguments = Ok validated ->
  Idempotency.get now (idempotency_cache Remote self)
    (key_of tool_name arguments user_id) = None ->
  let response :=
    fst (calendar_adapter tool_name (Schemas.dict_ validated)
           (remote Remote self)) in
  response <> [] ->
  let out := enqueue now later self tool_name arguments user_id in
  fst out = [PDict response]
  /\ adapter_calls Remote (snd out)
     = (adapter_calls Remote self
        ++ [(tool_name, Schemas.dict_ validated)])%list
  /\ _initialized Remote (snd out) = true
  /\ idempotency_cache Remote (snd out)
     = snd (Idempotency.set later (idempotency_cache Remote self)
              (key_of tool_name arguments user_id) (PDict response) None).
Proof.
  intros Hv Hget response Hne out. unfold out, enqueue_tool_call.
  destruct (ensure_initialized_keeps self) as (Hc & Ha & Hr).
  rewrite Hv, Hc, Hget. unfold dispatch.
  rewrite (process_job_validated _ _ arguments _ validated Hv).
  unfold invoke_adapter. rewrite Hr.
  fold response.
  destruct (calendar_adapter tool_name (Schemas.dict_ validated)
              (remote Remote self)) as [resp remote'] eqn:E.
  subst response. simpl in Hne |- *.
  destruct resp as [|kv resp]; [contradiction|]. simpl.
  rewrite Hc, Ha.
  repeat split; try reflexivity.
  unfold _ensure_initialized.
  destruct (_initialized Remote self) eqn:Ei; [exact Ei | reflexivity].
Qed.

(** X24 (scenario D).  The same validated request twice, the second time while
    the store still keeps the first result: the second call returns what
    the first one stored and the adapter has been invoked once in all. *)
Lemma repeated_call_served_from_cache (now later now' later' : Z)
    (self : queue) (tool_name : string) (arguments : dict pyval)
    (user_id : option string) (validated : Schemas.BaseModel) :
  Schemas.validate_tool_args parse_datetime tool_name arguments = Ok validated ->
  Idempotency.get now (idempotency_cache Remote self)
    (key_of tool_name arguments user_id) = None ->
  fst (calendar_adapter tool_name (Schemas.dict_ validated)
         (remote Remote self)) <> [] ->
  Idempotency.keeps_until now' later (idempotency_cache Remote self) ->
  let first := enqueue now later self tool_name arguments user_id in
  let second := enqueue now' later' (snd first) tool_name arguments user_id in
  fst second = map jsonable (fst first)
  /\ adapter_calls Remote (snd second)
     = (adapter_calls Remote self
        ++ [(tool_name, Schemas.dict_ validated)])%list.
Proof.
  intros Hv Hmiss Hne Hkeep first second.
  destruct (enqueue_miss now later self tool_name arguments user_id
              validated Hv Hmiss Hne) as (Hout & Hcalls & Hinit & Hcache).
  fold first in Hout, Hcalls, Hinit, Hcache.
  assert (Hhit : Idempotency.get now' (idempotency_cache Remote (snd first))
                   (key_of tool_name arguments user_id)
                 = Some (jsonable
                           (PDict (fst (calendar_adapter tool_name
                                          (Schemas.dict_ validated)
                                          (remote Remote self)))))).
  { rewrite Hcache. apply get_after_set. exact Hkeep. }
  assert (Htrue : truthy (jsonable
                            (PDict (fst (calendar_adapter tool_name
                                           (Schemas.dict_ validated)
                                           (remote Remote self))))) = true).
  { rewrite jsonable_truthy. simpl.
    destruct (fst (calendar_adapter tool_name (Schemas.dict_ validated)
                     (remote Remote self))); [contradiction | reflexivity]. }
  unfold second.
  rewrite (enqueue_hit now' later' (snd first) tool_name arguments user_id
             validated _ Hv Hhit Htrue).
  simpl. rewrite Hout. split; [reflexivity|].
  destruct (ensure_initialized_keeps (snd first)) as (_ & Ha & _).
  rewrite Ha. exact Hcalls.
Qed.

End RouterFacts.


(* ===================================================================== *)
(** * Further facts *)
(* ===================================================================== *)

(** ** adapters/retry.py: whole runs of the retry loop *)

Section RetryRuns.
Import Py Retry.
Context {A : Type}.
Variable py_int : string -> option Z.
Variable config : RetryConfig.
Variable func : nat -> result A.
Variable random : nat -> Q.

Lemma after_after (l1 l2 : list event) (r : run A) :
  after l1 (after l2 r) = after (l1 ++ l2)%list r.
Proof. unfold after. simpl. rewrite app_assoc. reflexivity. Qed.

Lemma after_nil (r : run A) : after [] r = r.
Proof. destruct r. reflexivity. Qed.

(** Within the float range the sleep after a failure is computed and
    logged without error. *)
Lemma delay_after_defined (attempt : nat) (e : exn) :
  func attempt = Raise e ->
  (Qabs (exponential_base config ^ Z.of_nat attempt) < float_limit)%Q ->
  (forall resp s n,
      e = HttpError resp ->
      dict_get "retry-after" (resp_headers resp) = Some s ->
      py_int s = Some n ->
      (Qabs (inject_Z n) < float_limit)%Q) ->
  exists d, delay_after py_int config func random attempt = Ok d.
Proof.
  intros Hf Hpow Hint. apply Qltb_true in Hpow.
  pose proof (backoff_delay_in_range config attempt (random attempt) Hpow)
    as Hback.
  unfold delay_after. rewrite Hf.
  destruct e as [| | | | | | | | |resp| |]; try (eexists; exact Hback).
  rewrite Hback. cbn [bind].
  unfold apply_retry_after.
  destruct (dict_get "retry-after" (resp_headers resp)) as [s|] eqn:Hh;
    [|eexists; reflexivity].
  destruct (str_truthy s); [|eexists; reflexivity].
  destruct (py_int s) as [n|] eqn:Hn; [|eexists; reflexivity].
  destruct (Qltb _ (inject_Z n)); [|eexists; reflexivity].
  pose proof (Hint resp s n eq_refl Hh Hn) as Hr.
  apply Qltb_true in Hr. cbn [format_delay]. unfold in_float_range.
  rewrite Hr. eexists. reflexivity.
Qed.

(** One failed round with attempts left. *)
Lemma retry_loop_round (remaining attempt : nat) (last : option exn)
    (e : exn) (d : Q) :
  func attempt = Raise e ->
  retried e = true ->
  (Z.of_nat attempt < max_retries config)%Z ->
  delay_after py_int config func random attempt = Ok d ->
  retry_loop py_int config func random (S remaining) attempt last
  = after [Called attempt; Slept d]
      (retry_loop py_int config func random remaining (S attempt) (Some e)).
Proof.
  intros Hf Hr Hlt. unfold delay_after. simpl. rewrite Hf.
  assert (Hge : (Z.of_nat attempt >=? max_retries config)%Z = false)
    by (rewrite Z.geb_leb; apply Z.leb_gt; exact Hlt).
  destruct e as [| | | | | | | | |resp| |]; simpl in Hr |- *; rewrite ?Hge;
    try (intros ->; reflexivity).
  apply andb_true_iff in Hr as [Hn Hy]. apply negb_true_iff in Hn.
  rewrite Hn, Hy.
  destruct (backoff_delay config attempt (random attempt)) as [c|err];
    [|discriminate].
  cbn [bind].
  destruct (format_delay (apply_retry_after py_int resp c)) as [[]|err];
    [|discriminate].
  cbn [bind]. intros Hd. injection Hd as <-. reflexivity.
Qed.

(** A failure at the last attempt allowed is raised as it is. *)
Lemma retry_loop_out_of_attempts (remaining attempt : nat)
    (last : option exn) (e : exn) :
  func attempt = Raise e ->
  retried e = true ->
  (max_retries config <= Z.of_nat attempt)%Z ->
  retry_loop py_int config func random (S remaining) attempt last
  = (Raise e, [Called attempt]).
Proof.
  intros Hf Hr Hle. simpl. rewrite Hf.
  assert (Hge : (Z.of_nat attempt >=? max_retries config)%Z = true)
    by (rewrite Z.geb_leb; apply Z.leb_le; exact Hle).
  destruct e; simpl in Hr |- *; rewrite ?Hge; try reflexivity.
  apply andb_true_iff in Hr as [Hn Hy]. apply negb_true_iff in Hn.
  rewrite Hn, Hy, ?Hge. reflexivity.
Qed.

(** A power out of the float range ends the loop with the
    [OverflowError] raised in the handler: the failure that was being
    handled is not raised, and no further attempt is made. *)
Lemma overflow_ends_the_loop (remaining attempt : nat) (last : option exn)
    (e : exn) :
  func attempt = Raise e ->
  retried e = true ->
  (Z.of_nat attempt < max_retries config)%Z ->
  (float_limit <= Qabs (exponential_base config ^ Z.of_nat attempt))%Q ->
  retry_loop py_int config func random (S remaining) attempt last
  = (Raise (OverflowError "(34, 'Numerical result out of range')"),
     [Called attempt]).
Proof.
  intros Hf Hr Hlt Hpow. apply Qltb_false in Hpow.
  pose proof (backoff_delay_out_of_range config attempt (random attempt) Hpow)
    as Hback.
  cbn [retry_loop]. rewrite Hf.
  assert (Hge : (Z.of_nat attempt >=? max_retries config)%Z = false)
    by (rewrite Z.geb_leb; apply Z.leb_gt; exact Hlt).
  destruct e; cbn [retried] in Hr; rewrite ?Hge, ?Hback; try reflexivity.
  apply andb_true_iff in Hr as [Hn Hy]. apply negb_true_iff in Hn.
  rewrite Hn, Hy, ?Hge, ?Hback. reflexivity.
Qed.

(** [count] failed rounds in a row. *)
Lemma retry_loop_rounds (count : nat) :
  forall (first remaining : nat) (last : option exn),
    (forall i, (first <= i < first + count)%nat ->
               exists e d, func i = Raise e /\ retried e = true
                           /\ delay_after py_int config func random i = Ok d) ->
    (Z.of_nat (first + count) <= max_retries config)%Z ->
    exists last' delays,
      length delays = count
      /\ (forall j d, nth_error delays j = Some d ->
                      delay_after py_int config func random (first + j) = Ok d)
      /\ retry_loop py_int config func random (count + remaining) first last
         = after (failed_rounds first delays)
             (retry_loop py_int config func random remaining (first + count)
                last').
Proof.
  induction count as [|count IH]; intros first remaining last Hfail Hle.
  - exists last, []. split; [reflexivity|]. split.
    + intros [|j] d Hd; discriminate.
    + rewrite Nat.add_0_r. simpl. rewrite after_nil. reflexivity.
  - destruct (Hfail first) as (e & d & Hf & Hr & Hd); [lia|].
    destruct (IH (S first) remaining (Some e)) as (last' & delays & Hlen & Hnth & Hrun).
    + intros i Hi. apply Hfail. lia.
    + lia.
    + exists last', (d :: delays). split; [simpl; congruence|]. split.
      * intros [|j] d' Hd'.
        -- simpl in Hd'. injection Hd' as <-. rewrite Nat.add_0_r. exact Hd.
        -- simpl in Hd'. replace (first + S j)%nat with (S first + j)%nat by lia.
           apply Hnth. exact Hd'.
      * simpl Nat.add.
        rewrite (retry_loop_round _ _ _ e d Hf Hr) by (lia || exact Hd).
        rewrite Hrun, after_after.
        replace (first + S count)%nat with (S first + count)%nat by lia.
        reflexivity.
Qed.

Lemma calls_failed_rounds (delays : list Q) (first : nat) (rest : list event) :
  calls (failed_rounds first delays ++ rest) = (length delays + calls rest)%nat
  /\ sleeps (failed_rounds first delays ++ rest)
     = (length delays + sleeps rest)%nat.
Proof.
  revert first. induction delays as [|d delays IH]; intros first.
  - split; reflexivity.
  - destruct (IH (S first)) as [Hc Hs].
    unfold calls, sleeps in *. simpl. rewrite Hc, Hs. split; reflexivity.
Qed.

(** X1.  The callable fails [k] times with failures the loop retries, then
    returns, [k] is within [max_retries], and the numbers the handlers
    work with stay within the float range ([exponential_base ** attempt]
    at each failed attempt, and every integer Retry-After): the engine
    returns that result after [k + 1] invocations and [k] sleeps, each
    sleep following the failure it answers and lasting what the handler
    of that failure computes. *)
Theorem success_after_failures (k : nat) (v : A) :
  (Z.of_nat k <= max_retries config)%Z ->
  (forall i, (i < k)%nat -> exists e, func i = Raise e /\ retried e = true) ->
  (forall i, (i < k)%nat ->
             (Qabs (exponential_base config ^ Z.of_nat i) < float_limit)%Q) ->
  (forall i resp s n,
      (i < k)%nat ->
      func i = Raise (HttpError resp) ->
      dict_get "retry-after" (resp_headers resp) = Some s ->
      py_int s = Some n ->
      (Qabs (inject_Z n) < float_limit)%Q) ->
  func k = Ok v ->
  exists delays : list Q,
    length delays = k
    /\ (forall i d, nth_error delays i = Some d ->
                    delay_after py_int config func random i = Ok d)
    /\ exponential_backoff_retry py_int config func random
       = (Ok v, (failed_rounds 0 delays ++ [Called k])%list)
    /\ calls (snd (exponential_backoff_retry py_int config func random)) = S k
    /\ sleeps (snd (exponential_backoff_retry py_int config func random)) = k.
Proof.
  intros Hk Hfail Hpow Hint Hok.
  destruct (retry_loop_rounds k 0 (S (Z.to_nat (max_retries config) - k)) None)
    as (last' & delays & Hlen & Hnth & Hrounds).
  { intros i Hi. destruct (Hfail i) as (e & Hf & Hr); [lia|].
    destruct (delay_after_defined i e Hf) as (d & Hd).
    - apply Hpow. lia.
    - intros resp s n -> Hh Hn. apply (Hint i resp s n); [lia | exact Hf | exact Hh | exact Hn].
    - exists e, d. split; [exact Hf|]. split; [exact Hr | exact Hd]. }
  { simpl. exact Hk. }
  exists delays. split; [exact Hlen|]. split; [exact Hnth|].
  assert (Hrun : exponential_backoff_retry py_int config func random
                 = (Ok v, (failed_rounds 0 delays ++ [Called k])%list)).
  { unfold exponential_backoff_retry.
    replace (Z.to_nat (max_retries config + 1))
      with (k + S (Z.to_nat (max_retries config) - k))%nat by lia.
    rewrite Hrounds. simpl. rewrite Hok. reflexivity. }
  rewrite Hrun. split; [reflexivity|]. simpl.
  destruct (calls_failed_rounds delays 0 [Called k]) as [Hc Hs].
  rewrite Hc, Hs, Hlen. unfold calls, sleeps. simpl. split; lia.
Qed.

(** X2.  Every attempt fails with a failure the loop retries, and the
    numbers the handlers work with stay within the float range
    ([exponential_base ** attempt] at each attempt before the last, and
    every integer Retry-After): the engine gives up after
    [max_retries + 1] invocations and [max_retries] sleeps, and raises
    the error of the last attempt. *)
Theorem retries_exhausted :
  (0 <= max_retries config)%Z ->
  (forall i, (i <= Z.to_nat (max_retries config))%nat ->
             exists e, func i = Raise e /\ retried e = true) ->
  (forall i, (i < Z.to_nat (max_retries config))%nat ->
             (Qabs (exponential_base config ^ Z.of_nat i) < float_limit)%Q) ->
  (forall i resp s n,
      (i < Z.to_nat (max_retries config))%nat ->
      func i = Raise (HttpError resp) ->
      dict_get "retry-after" (resp_headers resp) = Some s ->
      py_int s = Some n ->
      (Qabs (inject_Z n) < float_limit)%Q) ->
  exists (e : exn) (delays : list Q),
    func (Z.to_nat (max_retries config)) = Raise e
    /\ length delays = Z.to_nat (max_retries config)
    /\ (forall i d, nth_error delays i = Some d ->
                    delay_after py_int config func random i = Ok d)
    /\ exponential_backoff_retry py_int config func random
       = (Raise e,
          (failed_rounds 0 delays
           ++ [Called (Z.to_nat (max_retries config))])%list)
    /\ calls (snd (exponential_backoff_retry py_int config func random))
       = S (Z.to_nat (max_retries config))
    /\ sleeps (snd (exponential_backoff_retry py_int config func random))
       = Z.to_nat (max_retries config).
Proof.
  intros Hm Hfail Hpow Hint.
  set (m := Z.to_nat (max_retries config)) in *.
  destruct (Hfail m) as (e & Hf & Hr); [lia|].
  destruct (retry_loop_rounds m 0 1 None)
    as (last' & delays & Hlen & Hnth & Hrounds).
  { intros i Hi. destruct (Hfail i) as (e' & Hf' & Hr'); [lia|].
    destruct (delay_after_defined i e' Hf') as (d & Hd).
    - apply Hpow. lia.
    - intros resp s n -> Hh Hn. apply (Hint i resp s n); [lia | exact Hf' | exact Hh | exact Hn].
    - exists e', d. split; [exact Hf'|]. split; [exact Hr' | exact Hd]. }
  { simpl. lia. }
  exists e, delays. split; [exact Hf|]. split; [exact Hlen|].
  split; [exact Hnth|].
  assert (Hrun : exponential_backoff_retry py_int config func random
                 = (Raise e, (failed_rounds 0 delays ++ [Called m])%list)).
  { unfold exponential_backoff_retry.
    replace (Z.to_nat (max_retries config + 1)) with (m + 1)%nat by lia.
    rewrite Hrounds. simpl Nat.add.
    rewrite (retry_loop_out_of_attempts 0 m last' e Hf Hr) by lia.
    reflexivity. }
  rewrite Hrun. split; [reflexivity|]. simpl.
  destruct (calls_failed_rounds delays 0 [Called m]) as [Hc Hs].
  rewrite Hc, Hs, Hlen. unfold calls, sleeps. simpl. split; lia.
Qed.

End RetryRuns.

Lemma success_after_failures_witness :
  exists delays : list Q,
    length delays = 2%nat
    /\ Retry.exponential_backoff_retry Retry.ascii_int Retry.steady_config
         (Retry.flaky 2) (fun _ => 0%Q)
       = (Py.Ok (Py.PStr "success"),
          (Retry.failed_rounds 0 delays ++ [Retry.Called 2])%list).
Proof.
  destruct (success_after_failures Retry.ascii_int Retry.steady_config
              (Retry.flaky 2) (fun _ => 0%Q) 2 (Py.PStr "success"))
    as (delays & Hlen & _ & Hrun & _).
  - simpl. lia.
  - intros i Hi. exists (Py.HttpError Retry.unavailable).
    destruct i as [|[|i]]; [split; reflexivity | split; reflexivity | lia].
  - intros i Hi. destruct i as [|[|i]]; [reflexivity | reflexivity | lia].
  - intros i resp s n Hi Hf Hh Hn.
    destruct i as [|[|i]]; [| | lia];
      injection Hf as <-; discriminate Hh.
  - reflexivity.
  - exists delays. split; [exact Hlen | exact Hrun].
Defined.

Lemma retries_exhausted_witness :
  exists e,
    Retry.flaky 10 3 = Py.Raise e
    /\ Retry.calls (snd (Retry.exponential_backoff_retry Retry.ascii_int
                           Retry.steady_config
                           (Retry.flaky 10) (fun _ => 0%Q))) = 4%nat
    /\ Retry.sleeps (snd (Retry.exponential_backoff_retry Retry.ascii_int
                            Retry.steady_config
                            (Retry.flaky 10) (fun _ => 0%Q))) = 3%nat.
Proof.
  destruct (retries_exhausted Retry.ascii_int Retry.steady_config
              (Retry.flaky 10) (fun _ => 0%Q))
    as (e & delays & Hf & _ & _ & _ & Hc & Hs).
  - simpl. lia.
  - intros i Hi. exists (Py.HttpError Retry.unavailable).
    simpl in Hi.
    destruct i as [|[|[|[|i]]]]; try (split; reflexivity). lia.
  - intros i Hi. simpl in Hi.
    destruct i as [|[|[|i]]]; try reflexivity. lia.
  - intros i resp s n Hi Hf Hh Hn. simpl in Hi.
    destruct i as [|[|[|i]]]; [| | | lia];
      injection Hf as <-; discriminate Hh.
  - exists e. split; [exact Hf|]. split; [exact Hc | exact Hs].
Defined.

(** ** adapters/retry.py: delays, quota window, rate limiter *)

Section RetryTiming.
Import Py Retry.
Local Open Scope Q_scope.

Lemma py_min_le_r (a b : Q) : py_min a b <= b.
Proof.
  unfold py_min. destruct (Qltb b a) eqn:E.
  - apply Qle_refl.
  - apply Qltb_false in E. exact E.
Qed.

(** X3.  Whatever the attempt number and the jitter draw (a number from 0 to
    1), and provided [max_delay] is not negative, computing the backoff
    either raises [OverflowError], which it does exactly when
    [exponential_base ** attempt] is out of the float range, or yields a
    delay that does not exceed [max_delay]. *)
Theorem backoff_delay_capped (config : RetryConfig) (attempt : nat) (rnd : Q) :
  0 <= max_delay config -> 0 <= rnd -> rnd <= 1 ->
  match backoff_delay config attempt rnd with
  | Ok delay =>
      Qabs (exponential_base config ^ Z.of_nat attempt) < float_limit
      /\ delay <= max_delay config
  | Raise e =>
      float_limit <= Qabs (exponential_base config ^ Z.of_nat attempt)
      /\ e = OverflowError "(34, 'Numerical result out of range')"
  end.
Proof.
  intros Hmax H0 H1.
  destruct (in_float_range (exponential_base config ^ Z.of_nat attempt))
    eqn:Hr.
  - rewrite (backoff_delay_in_range config attempt rnd Hr).
    apply Qltb_true in Hr. split; [exact Hr|].
    pose proof (py_min_le_r
                  (base_delay config
                   * exponential_base config ^ Z.of_nat attempt)
                  (max_delay config)) as Hd.
    set (d := py_min _ _) in *.
    destruct (jitter config); [|exact Hd].
    nra.
  - rewrite (backoff_delay_out_of_range config attempt rnd Hr).
    apply Qltb_false in Hr. split; [exact Hr | reflexivity].
Qed.

Lemma backoff_delay_capped_witness :
  exists delay,
    backoff_delay adapter_config 10 (1 # 3) = Ok delay /\ delay <= 30.
Proof.
  pose proof (backoff_delay_capped adapter_config 10 (1 # 3)) as H.
  destruct (backoff_delay adapter_config 10 (1 # 3)) as [delay|e] eqn:E.
  - exists delay. split; [reflexivity|]. apply H; discriminate.
  - vm_compute in E. discriminate E.
Defined.

(** X4.  After [handle_quota_exceeded] has opened a window that ends at a
    positive clock value, [check_quota] refuses exactly the clock readings
    before the end of the window and admits every reading from then on,
    without any reset. *)
Theorem quota_window_gates (now t : Q) (retry_after : option Z)
    (qm : QuotaManager) :
  0 < now + quota_window retry_after ->
  (check_quota t (handle_quota_exceeded now retry_after qm) = false
   <-> t < now + quota_window retry_after).
Proof.
  intros Hpos. unfold check_quota.
  rewrite handle_quota_exceeded_marker.
  assert (Hnz : Qeq_bool (now + quota_window retry_after) 0 = false).
  { destruct (Qeq_bool (now + quota_window retry_after) 0) eqn:E; [|reflexivity].
    apply Qeq_bool_iff in E. rewrite E in Hpos. discriminate. }
  rewrite Hnz. simpl.
  destruct (Qltb t (now + quota_window retry_after)) eqn:E.
  - apply Qltb_true in E. split; [intros _; exact E | reflexivity].
  - apply Qltb_false in E. split; [discriminate|].
    intros Hlt. exfalso. exact (Qlt_not_le _ _ Hlt E).
Qed.

Lemma quota_window_gates_witness :
  check_quota 1059 (handle_quota_exceeded 1000 None new_quota_manager) = false
  /\ check_quota 1060 (handle_quota_exceeded 1000 None new_quota_manager) = true.
Proof.
  split.
  - apply (quota_window_gates 1000 1059 None new_quota_manager); reflexivity.
  - destruct (check_quota 1060
                (handle_quota_exceeded 1000 None new_quota_manager)) eqn:E;
      [reflexivity|].
    apply (quota_window_gates 1000 1060 None new_quota_manager) in E;
      [discriminate E | reflexivity].
Defined.



End RetryTiming.

(** ** adapters/workers.py: submission, lifecycle, execution *)

Section WorkerPoolFacts.
Import Py Workers.

Lemma put_room (item : WorkerTask) (q : Queue) :
  full q = false -> put item q = Finished (Ok (enqueue item q)).
Proof. unfold put, put_nowait. intros ->. reflexivity. Qed.

(** X6.  A submission to a pool whose queue has room succeeds at once: the
    task goes to the back of the queue whatever its priority, under the
    id the submitter gave (when one was given), and the pool is running
    afterwards. *)
Theorem submit_task_enqueues_last (pool : WorkerPool) (now func : string)
    (args : list pyval) (task_id : string) (priority : Z)
    (kwargs : dict pyval) :
  full (queue pool) = false ->
  task_id <> "" ->
  let submitted := submit_task pool now func args (Some task_id) priority kwargs in
  fst submitted = Finished (Ok task_id)
  /\ items (queue (snd submitted))
     = (items (queue pool)
        ++ [{| id := task_id; func := func; args := args; kwargs := kwargs;
               created_at := now; priority := priority |}])%list
  /\ is_running (snd submitted) = true.
Proof.
  intros Hroom Hid submitted. unfold submitted, submit_task.
  assert (Htid : str_truthy task_id = true)
    by (destruct task_id; [contradiction | reflexivity]).
  rewrite Htid.
  set (pool' := if negb (is_running pool) then start pool else pool).
  assert (Hq : queue pool' = queue pool).
  { unfold pool'. destruct (negb (is_running pool));
      [apply start_keeps_queue | reflexivity]. }
  assert (Hrun : is_running pool' = true).
  { unfold pool', start. destruct (is_running pool) eqn:E; simpl;
      [exact E | reflexivity]. }
  rewrite put_room by (rewrite Hq; exact Hroom).
  simpl. rewrite Hq. repeat split. exact Hrun.
Qed.

Lemma submit_task_enqueues_last_witness :
  fst (submit_task (pool_with_backlog 2) "2024-01-15T10:00:01" "api_call"
         [] (Some "urgent") 9 [])
  = Finished (Ok "urgent")
  /\ map id (items (queue (snd (submit_task (pool_with_backlog 2)
                                  "2024-01-15T10:00:01" "api_call"
                                  [] (Some "urgent") 9 []))))
     = ["task-0"; "task-1"; "urgent"].
Proof.
  destruct (submit_task_enqueues_last (pool_with_backlog 2)
              "2024-01-15T10:00:01" "api_call" [] "urgent" 9 [])
    as (Hout & Hitems & _).
  - reflexivity.
  - discriminate.
  - split; [exact Hout|]. rewrite Hitems. reflexivity.
Defined.

(** X7.  Starting a fresh pool creates one worker per slot, starting it again
    changes nothing, and stopping it drops the workers but leaves the
    queue, with whatever is waiting in it, untouched. *)
Theorem pool_lifecycle (pool : WorkerPool) :
  is_running pool = false ->
  workers pool = [] ->
  length (workers (start pool)) = Z.to_nat (max_workers pool)
  /\ start (start pool) = start pool
  /\ is_running (stop (start pool)) = false
  /\ workers (stop (start pool)) = []
  /\ queue (stop (start pool)) = queue pool
  /\ stop (stop (start pool)) = stop (start pool).
Proof.
  intros Hrun Hw. unfold start, stop. rewrite Hrun, Hw. simpl.
  rewrite length_map, length_seq. repeat split.
Qed.

Lemma pool_lifecycle_witness :
  length (workers (start (new_pool 2 100))) = 2%nat
  /\ workers (stop (start (new_pool 2 100))) = [].
Proof.
  destruct (pool_lifecycle (new_pool 2 100) eq_refl eq_refl)
    as (Hn & _ & _ & Hw & _).
  split; [exact Hn | exact Hw].
Defined.

(** X8.  A call that fails with an error whose text mentions quota or rate
    limit closes the pool for 60 seconds: every [execute_sync] whose quota
    check falls into that window is refused with "API quota exceeded"
    and its callable is not invoked. *)
Theorem quota_failure_blocks_next_call (pool : WorkerPool) (limits : Limits)
    (clock clock' : Readings) (e : exn) (outcome' : result pyval) :
  Retry.check_quota (at_check clock) (quota_manager limits) = true ->
  mentions_quota e = true ->
  (0 < at_failure clock + 60)%Q ->
  (at_check clock' < at_failure clock + 60)%Q ->
  let first := execute_sync pool limits clock (Raise e) in
  let second := execute_sync (pool_after first) (limits_of first) clock' outcome' in
  result_of first = Raise e
  /\ invoked first = true
  /\ result_of second = Raise (Exception "API quota exceeded")
  /\ invoked second = false.
Proof.
  intros Hok Hq Hpos Hin first second.
  assert (Hfirst : first
                   = {| result_of := Raise e;
                        pool_after :=
                          if negb (is_running pool) then start pool else pool;
                        limits_of := limits_after clock (@Raise pyval e) limits;
                        invoked := true |}).
  { unfold first, execute_sync. rewrite Hok. reflexivity. }
  assert (Hqm : quota_manager (limits_after clock (@Raise pyval e) limits)
                = Retry.handle_quota_exceeded (at_failure clock) None
                    (quota_manager limits)).
  { unfold limits_after. cbn [quota_manager]. rewrite Hq. reflexivity. }
  assert (Hclosed :
            Retry.check_quota (at_check clock')
              (Retry.handle_quota_exceeded (at_failure clock) None
                 (quota_manager limits)) = false).
  { unfold Retry.check_quota. rewrite handle_quota_exceeded_marker.
    cbn [Retry.quota_window].
    assert (Hnz : Qeq_bool (at_failure clock + 60) 0 = false).
    { destruct (Qeq_bool (at_failure clock + 60) 0) eqn:E; [|reflexivity].
      apply Qeq_bool_iff in E. rewrite E in Hpos. discriminate. }
    rewrite Hnz.
    replace (Retry.Qltb (at_check clock') (at_failure clock + 60)) with true
      by (symmetry; apply Qltb_true; exact Hin).
    reflexivity. }
  unfold second. rewrite Hfirst. cbn [result_of invoked pool_after limits_of].
  unfold execute_sync. rewrite Hqm, Hclosed. repeat split.
Qed.

Lemma quota_failure_blocks_next_call_witness :
  result_of
    (execute_sync
       (pool_after (execute_sync default_pool fresh_limits (readings 1000)
                      (Raise (Exception "Quota exceeded for quota metric"))))
       (limits_of (execute_sync default_pool fresh_limits (readings 1000)
                     (Raise (Exception "Quota exceeded for quota metric"))))
       (readings 1030) (Ok PNone))
  = Raise (Exception "API quota exceeded").
Proof.
  destruct (quota_failure_blocks_next_call default_pool fresh_limits
              (readings 1000) (readings 1030)
              (Exception "Quota exceeded for quota metric") (Ok PNone))
    as (_ & _ & Hsecond & _).
  - reflexivity.
  - reflexivity.
  - reflexivity.
  - reflexivity.
  - exact Hsecond.
Defined.

(** *** The pool at work *)

Lemma put_cases (item : WorkerTask) (q : Queue) :
  (full q = true /\ put item q = Parked FreeSlot)
  \/ (full q = false /\ put item q = Finished (Ok (enqueue item q))).
Proof.
  unfold put, put_nowait. destruct (full q); [left | right]; split; reflexivity.
Qed.

Lemma enqueue_within (item : WorkerTask) (q : Queue) :
  full q = false -> within_capacity q -> within_capacity (enqueue item q).
Proof.
  unfold full, within_capacity, enqueue, qsize. simpl.
  destruct (maxsize q <=? 0) eqn:E; intros Hf Hc.
  - left. apply Z.leb_le. exact E.
  - right. rewrite Z.geb_leb in Hf. apply Z.leb_gt in Hf.
    rewrite length_app. simpl. lia.
Qed.

Lemma dequeue_within (m : Z) (task : WorkerTask) (rest : list WorkerTask) :
  within_capacity {| maxsize := m; items := task :: rest |} ->
  within_capacity {| maxsize := m; items := rest |}.
Proof.
  unfold within_capacity, qsize. simpl. intros [H|H]; [left | right]; lia.
Qed.

Lemma hands_idle (n : nat) : flat_map in_hand (repeat Idle n) = [].
Proof. induction n as [|n IH]; [reflexivity | exact IH]. Qed.

(** Changing the state of one worker changes what the workers hold by
    what that worker holds. *)
Lemma hands_insert (l : list worker_state) (w : nat) (st st' : worker_state) :
  l !! w = Some st ->
  Permutation (flat_map in_hand (<[w := st']> l) ++ in_hand st)
              (flat_map in_hand l ++ in_hand st').
Proof.
  revert w. induction l as [|x l IH]; intros [|w] H; try discriminate.
  - simpl in H. injection H as ->. simpl. solve_Permutation.
  - simpl in H |- *. rewrite <- !app_assoc.
    apply Permutation_app_head. apply IH. exact H.
Qed.

(** What one action does to the tasks and the counters: the tasks pending
    afterwards and the one whose call has ended are those pending before
    and the one submitted; the counters have moved by one for a call that
    has ended; and the queue stays within its capacity. *)
Lemma step_conserves (act : action) (a : Activity) :
  Permutation (pending (fst (step act a)) ++ snd (step act a))
              (pending a ++ submitted [act])
  /\ completed_tasks (pool (fst (step act a)))
     + failed_tasks (pool (fst (step act a)))
     = completed_tasks (pool a) + failed_tasks (pool a)
       + Z.of_nat (length (snd (step act a)))
  /\ (within_capacity (queue (pool a)) ->
      within_capacity (queue (pool (fst (step act a))))).
Proof.
  destruct act as [task|i|w|w now|w|w outcome now|now retry_after];
    unfold step, pending, submitted; cbn [flat_map app].
  - (* Submit *)
    set (a0 := if negb (is_running (pool a)) then _ else a).
    assert (H0 : items (queue (pool a0)) = items (queue (pool a))
                 /\ submitters a0 = submitters a
                 /\ flat_map in_hand (states a0) = flat_map in_hand (states a)
                 /\ completed_tasks (pool a0) = completed_tasks (pool a)
                 /\ failed_tasks (pool a0) = failed_tasks (pool a)
                 /\ queue (pool a0) = queue (pool a)).
    { unfold a0. destruct (negb (is_running (pool a))) eqn:E;
        [|repeat split].
      cbn [pool submitters states]. unfold start.
      apply negb_true_iff in E. rewrite E. cbn.
      rewrite flat_map_app, hands_idle, app_nil_r. repeat split. }
    destruct H0 as (Hi & Hs & Hh & Hc & Hf & Hq).
    destruct (put_cases task (queue (pool a0))) as [[Hfull ->] | [Hfull ->]];
      cbn [fst snd pool submitters states with_pool with_queue queue items
           enqueue completed_tasks failed_tasks length].
    + rewrite Hi, Hs, Hh, Hc, Hf, Hq. split; [|split; [lia | tauto]].
      rewrite !app_nil_r. rewrite <- !app_assoc.
      apply Permutation_app_head. apply Permutation_app_head.
      apply Permutation_app_comm.
    + rewrite Hi, Hs, Hh, Hc, Hf. split; [|split; [lia|]].
      * rewrite !app_nil_r. rewrite <- !app_assoc.
        rewrite (Permutation_app_comm [task]). rewrite <- !app_assoc.
        reflexivity.
      * rewrite <- Hq. intros Hcap. apply enqueue_within; assumption.
  - (* SubmitterResumes *)
    destruct (submitters a !! i) as [task|] eqn:Hi;
      [|cbn [fst snd length]; rewrite !app_nil_r; split;
        [reflexivity | split; [lia | tauto]]].
    destruct (put_cases task (queue (pool a))) as [[Hfull ->] | [Hfull ->]];
      cbn [fst snd pool submitters states with_queue queue items enqueue
           completed_tasks failed_tasks length];
      [rewrite !app_nil_r; split; [reflexivity | split; [lia | tauto]]|].
    split; [|split; [lia | intros Hcap; apply enqueue_within; assumption]].
    rewrite !app_nil_r.
    assert (Hs : Permutation (submitters a)
                             (task :: base.delete i (submitters a))).
    { apply delete_Permutation. exact Hi. }
    rewrite Hs at 2. solve_Permutation.
  - (* Get *)
    destruct (states a !! w) as [[|t|t|t]|] eqn:Hw;
      try (cbn [fst snd length]; rewrite !app_nil_r; split;
           [reflexivity | split; [lia | tauto]]).
    destruct (items (queue (pool a))) as [|task rest] eqn:Hq;
      [cbn [fst snd length]; rewrite !app_nil_r, ?Hq; split;
       [reflexivity | split; [lia | tauto]]|].
    cbn [fst snd pool submitters states with_state with_pool with_queue queue
         items completed_tasks failed_tasks length].
    split; [|split; [lia|]].
    + rewrite !app_nil_r.
      pose proof (hands_insert (states a) w Idle (Holding task) Hw) as Hh.
      cbn [in_hand] in Hh. rewrite app_nil_r in Hh. rewrite Hh.
      simpl. rewrite !app_assoc. symmetry. apply Permutation_cons_append.
    + destruct (queue (pool a)) as [m its]. simpl in Hq. subst its.
      apply dequeue_within.
  - (* Proceed *)
    destruct (states a !! w) as [[|task|t|t]|] eqn:Hw;
      try (cbn [fst snd length]; rewrite !app_nil_r; split;
           [reflexivity | split; [lia | tauto]]).
    pose proof (hands_insert (states a) w (Holding task)) as Hh.
    destruct (negb (Retry.check_quota now (quota a))).
    + destruct (put_cases task (queue (pool a))) as [[Hfull ->] | [Hfull ->]];
        cbn [fst snd pool submitters states with_state with_pool with_queue
             queue items enqueue completed_tasks failed_tasks length].
      * specialize (Hh (Requeueing task) Hw). cbn [in_hand] in Hh.
        rewrite !app_nil_r. split; [|split; [lia | tauto]].
        apply Permutation_app_head. apply Permutation_app_head.
        apply (Permutation_app_inv_r _ _ _ Hh).
      * specialize (Hh Idle Hw). cbn [in_hand] in Hh.
        rewrite app_nil_r in Hh. rewrite !app_nil_r.
        split; [|split; [lia | intros Hcap; apply enqueue_within; assumption]].
        rewrite <- Hh. solve_Permutation.
    + cbn [fst snd pool submitters states with_state queue items
           completed_tasks failed_tasks length].
      specialize (Hh (Running task) Hw). cbn [in_hand] in Hh.
      rewrite !app_nil_r. split; [|split; [lia | tauto]].
      apply Permutation_app_head. apply Permutation_app_head.
      apply (Permutation_app_inv_r _ _ _ Hh).
  - (* PutterResumes *)
    destruct (states a !! w) as [[|t|task|t]|] eqn:Hw;
      try (cbn [fst snd length]; rewrite !app_nil_r; split;
           [reflexivity | split; [lia | tauto]]).
    pose proof (hands_insert (states a) w (Requeueing task) Idle Hw) as Hh.
    cbn [in_hand] in Hh. rewrite app_nil_r in Hh.
    destruct (put_cases task (queue (pool a))) as [[Hfull ->] | [Hfull ->]];
      cbn [fst snd pool submitters states with_state with_pool with_queue
           queue items enqueue completed_tasks failed_tasks length];
      [rewrite !app_nil_r; split; [reflexivity | split; [lia | tauto]]|].
    rewrite !app_nil_r.
    split; [|split; [lia | intros Hcap; apply enqueue_within; assumption]].
    rewrite <- Hh. solve_Permutation.
  - (* Returns *)
    destruct (states a !! w) as [[|t|t|task]|] eqn:Hw;
      try (cbn [fst snd length]; rewrite !app_nil_r; split;
           [reflexivity | split; [lia | tauto]]).
    pose proof (hands_insert (states a) w (Running task) Idle Hw) as Hh.
    cbn [in_hand] in Hh. rewrite app_nil_r in Hh.
    destruct outcome as [v|e];
      cbn [fst snd pool submitters states with_state with_pool with_counts
           queue items completed_tasks failed_tasks length];
      rewrite !app_nil_r; (split; [|split; [lia | tauto]]);
      rewrite <- Hh; solve_Permutation.
  - (* QuotaExceeded *)
    cbn [fst snd pool submitters states length]. rewrite !app_nil_r.
    split; [reflexivity | split; [lia | tauto]].
Qed.

Lemma submitted_cons (act : action) (acts : list action) :
  submitted (act :: acts) = (submitted [act] ++ submitted acts)%list.
Proof. unfold submitted. simpl. rewrite app_nil_r. reflexivity. Qed.

Lemma run_cons (act : action) (acts : list action) (a : Activity) :
  run (act :: acts) a
  = (fst (run acts (fst (step act a))),
     (snd (step act a) ++ snd (run acts (fst (step act a))))%list).
Proof.
  cbn [run]. destruct (step act a) as [a1 ended1]. cbn [fst snd].
  destruct (run acts a1) as [a2 ended2]. reflexivity.
Qed.

(** X9.  The pool never loses a task and never counts one twice, whatever
    the order in which workers and submitters get to run: after any
    sequence of actions on a queue within its capacity, the tasks still
    pending (waiting in the queue, parked with a submitter, or in a
    worker's hand) together with those whose call has ended are exactly
    the tasks pending before and those submitted since; the counters of
    completed and failed tasks have advanced, together, by the number of
    calls that have ended; and the queue is still within its capacity. *)
Theorem tasks_neither_lost_nor_repeated (acts : list action) (a : Activity) :
  within_capacity (queue (pool a)) ->
  Permutation (pending (fst (run acts a)) ++ snd (run acts a))
              (pending a ++ submitted acts)
  /\ completed_tasks (pool (fst (run acts a)))
     + failed_tasks (pool (fst (run acts a)))
     = completed_tasks (pool a) + failed_tasks (pool a)
       + Z.of_nat (length (snd (run acts a)))
  /\ within_capacity (queue (pool (fst (run acts a)))).
Proof.
  revert a. induction acts as [|act acts IH]; intros a Hcap.
  - cbn [run fst snd submitted flat_map length]. rewrite !app_nil_r.
    split; [reflexivity | split; [lia | exact Hcap]].
  - rewrite run_cons. cbn [fst snd].
    destruct (step_conserves act a) as (Hp1 & Hc1 & Hq1).
    destruct (IH (fst (step act a)) (Hq1 Hcap)) as (Hp2 & Hc2 & Hq2).
    split; [|split; [|exact Hq2]].
    + rewrite submitted_cons, (app_assoc (pending a)), <- Hp1.
      transitivity ((pending (fst (run acts (fst (step act a))))
                     ++ snd (run acts (fst (step act a))))
                    ++ snd (step act a))%list; [solve_Permutation|].
      rewrite Hp2. solve_Permutation.
    + rewrite Hc2, Hc1, length_app. lia.
Qed.

Lemma tasks_neither_lost_nor_repeated_witness :
  Permutation (pending (fst (run squeeze crowded)) ++ snd (run squeeze crowded))
              (pending crowded ++ submitted squeeze)
  /\ within_capacity (queue (pool (fst (run squeeze crowded)))).
Proof.
  destruct (tasks_neither_lost_nor_repeated squeeze crowded) as (Hp & _ & Hq).
  - right. vm_compute. discriminate.
  - split; [exact Hp | exact Hq].
Defined.

Lemma idle_not_running (n : nat) :
  Forall (fun st => running st = false) (repeat Idle n).
Proof. induction n as [|n IH]; constructor; [reflexivity | exact IH]. Qed.

(** A closed window refuses every clock reading before its end. *)
Lemma closed_window (now T until : Q) (qm : Retry.QuotaManager) :
  Retry.quota_exceeded_until qm = Some until ->
  (0 < T)%Q -> (T <= until)%Q -> (now < T)%Q ->
  Retry.check_quota now qm = false.
Proof.
  intros Hm H0 HT Hnow. unfold Retry.check_quota. rewrite Hm.
  assert (Hnz : Qeq_bool until 0 = false).
  { destruct (Qeq_bool until 0) eqn:E; [|reflexivity].
    apply Qeq_bool_iff in E. rewrite E in HT. exfalso.
    apply (Qlt_not_le _ _ H0). exact HT. }
  rewrite Hnz.
  replace (Retry.Qltb now until) with true; [reflexivity|].
  symmetry. apply Qltb_true. apply Qlt_le_trans with (y := T); assumption.
Qed.

(** One action while the window is closed until [T] at least: no call
    starts, so none ends. *)
Lemma step_under_closed_window (T until : Q) (act : action) (a : Activity) :
  Forall (fun st => running st = false) (states a) ->
  Retry.quota_exceeded_until (quota a) = Some until ->
  (0 < T)%Q -> (T <= until)%Q ->
  (forall w now, act = Proceed w now -> (now < T)%Q) ->
  (forall now retry_after,
      act = QuotaExceeded now retry_after ->
      (T <= now + Retry.quota_window retry_after)%Q) ->
  snd (step act a) = []
  /\ Forall (fun st => running st = false) (states (fst (step act a)))
  /\ exists until',
       Retry.quota_exceeded_until (quota (fst (step act a))) = Some until'
       /\ (T <= until')%Q.
Proof.
  intros Hrun Hm H0 HT Hproceed Hquota.
  destruct act as [task|i|w|w now|w|w outcome now|now retry_after];
    unfold step.
  - (* Submit *)
    set (a0 := if negb (is_running (pool a)) then _ else a).
    assert (H : Forall (fun st => running st = false) (states a0)
                /\ quota a0 = quota a).
    { unfold a0. destruct (negb (is_running (pool a))); [|split; [exact Hrun | reflexivity]].
      cbn [states quota]. split; [|reflexivity].
      apply Forall_app. split; [exact Hrun | apply idle_not_running]. }
    destruct H as [Hr Hq].
    destruct (put_cases task (queue (pool a0))) as [[_ ->] | [_ ->]];
      cbn [fst snd states quota with_pool]; rewrite Hq;
      (split; [reflexivity | split; [exact Hr | eauto]]).
  - (* SubmitterResumes *)
    destruct (submitters a !! i) as [task|];
      [|cbn [fst snd]; split; [reflexivity | split; [exact Hrun | eauto]]].
    destruct (put_cases task (queue (pool a))) as [[_ ->] | [_ ->]];
      cbn [fst snd states quota];
      (split; [reflexivity | split; [exact Hrun | eauto]]).
  - (* Get *)
    destruct (states a !! w) as [[|t|t|t]|];
      try (cbn [fst snd]; split; [reflexivity | split; [exact Hrun | eauto]]).
    destruct (items (queue (pool a))) as [|task rest];
      cbn [fst snd states quota with_state with_pool];
      [split; [reflexivity | split; [exact Hrun | eauto]]|].
    split; [reflexivity | split; [|eauto]].
    apply Forall_insert; [exact Hrun | reflexivity].
  - (* Proceed *)
    destruct (states a !! w) as [[|task|t|t]|];
      try (cbn [fst snd]; split; [reflexivity | split; [exact Hrun | eauto]]).
    rewrite (closed_window now T until (quota a) Hm H0 HT
               (Hproceed w now eq_refl)).
    cbn [negb].
    destruct (put_cases task (queue (pool a))) as [[_ ->] | [_ ->]];
      cbn [fst snd states quota with_state with_pool];
      (split; [reflexivity | split; [|eauto]]);
      (apply Forall_insert; [exact Hrun | reflexivity]).
  - (* PutterResumes *)
    destruct (states a !! w) as [[|t|task|t]|];
      try (cbn [fst snd]; split; [reflexivity | split; [exact Hrun | eauto]]).
    destruct (put_cases task (queue (pool a))) as [[_ ->] | [_ ->]];
      cbn [fst snd states quota with_state with_pool];
      [split; [reflexivity | split; [exact Hrun | eauto]]|].
    split; [reflexivity | split; [|eauto]].
    apply Forall_insert; [exact Hrun | reflexivity].
  - (* Returns *)
    destruct (states a !! w) as [[|t|t|task]|] eqn:Hw;
      try (cbn [fst snd]; split; [reflexivity | split; [exact Hrun | eauto]]).
    exfalso. pose proof (Forall_lookup_1 _ _ _ _ Hrun Hw) as H.
    discriminate H.
  - (* QuotaExceeded *)
    cbn [fst snd states quota].
    split; [reflexivity | split; [exact Hrun|]].
    rewrite handle_quota_exceeded_marker. eexists. split; [reflexivity|].
    apply (Hquota now retry_after eq_refl).
Qed.

(** An action in which no call ends leaves the counters alone. *)
Lemma step_keeps_counters (act : action) (a : Activity) :
  snd (step act a) = [] ->
  completed_tasks (pool (fst (step act a))) = completed_tasks (pool a)
  /\ failed_tasks (pool (fst (step act a))) = failed_tasks (pool a).
Proof.
  destruct act as [task|i|w|w now|w|w outcome now|now ra]; unfold step.
  - destruct (is_running (pool a)) eqn:E; cbn [negb];
      match goal with
      | |- context [put ?t ?q] => destruct (put_cases t q) as [[_ ->] | [_ ->]]
      end; intros _; cbn; unfold start; rewrite ?E; split; reflexivity.
  - destruct (submitters a !! i) as [task|]; [|split; reflexivity].
    destruct (put_cases task (queue (pool a))) as [[_ ->] | [_ ->]];
      split; reflexivity.
  - destruct (states a !! w) as [[|t|t|t]|]; try (split; reflexivity).
    destruct (items (queue (pool a))); split; reflexivity.
  - destruct (states a !! w) as [[|task|t|t]|]; try (split; reflexivity).
    destruct (negb (Retry.check_quota now (quota a))); [|split; reflexivity].
    destruct (put_cases task (queue (pool a))) as [[_ ->] | [_ ->]];
      split; reflexivity.
  - destruct (states a !! w) as [[|t|task|t]|]; try (split; reflexivity).
    destruct (put_cases task (queue (pool a))) as [[_ ->] | [_ ->]];
      split; reflexivity.
  - destruct (states a !! w) as [[|t|t|task]|]; try (split; reflexivity).
    destruct outcome; discriminate.
  - split; reflexivity.
Qed.

(** X10.  While the quota window is closed no task is run, and none is
    dropped.  Take a moment when no worker is in a call and the marker
    stands at [T] or later: whatever workers and submitters do, in
    whatever order, as long as the workers' clock readings are before [T]
    and every marker written meanwhile is [T] or later, no call ends, the
    counters stay as they are, no worker gets into a call, and every task
    pending before or submitted since is still pending: in the queue,
    parked with its submitter, or in the hand of a worker (which waits to
    put it back when the queue has no room). *)
Theorem closed_window_holds_tasks_back (T until : Q) (acts : list action)
    (a : Activity) :
  Forall (fun st => running st = false) (states a) ->
  Retry.quota_exceeded_until (quota a) = Some until ->
  (0 < T)%Q -> (T <= until)%Q ->
  (forall w now, In (Proceed w now) acts -> (now < T)%Q) ->
  (forall now retry_after,
      In (QuotaExceeded now retry_after) acts ->
      (T <= now + Retry.quota_window retry_after)%Q) ->
  snd (run acts a) = []
  /\ completed_tasks (pool (fst (run acts a))) = completed_tasks (pool a)
  /\ failed_tasks (pool (fst (run acts a))) = failed_tasks (pool a)
  /\ Forall (fun st => running st = false) (states (fst (run acts a)))
  /\ Permutation (pending (fst (run acts a))) (pending a ++ submitted acts).
Proof.
  revert a until. induction acts as [|act acts IH];
    intros a until Hrun Hm H0 HT Hproceed Hquota.
  - cbn [run fst snd submitted flat_map]. rewrite app_nil_r.
    repeat split; [exact Hrun | reflexivity].
  - rewrite run_cons. cbn [fst snd].
    destruct (step_under_closed_window T until act a Hrun Hm H0 HT)
      as (He & Hr1 & until' & Hm1 & HT1).
    { intros w now ->. apply (Hproceed w now). left. reflexivity. }
    { intros now ra ->. apply (Hquota now ra). left. reflexivity. }
    destruct (IH (fst (step act a)) until' Hr1 Hm1 H0 HT1)
      as (He2 & Hc2 & Hf2 & Hr2 & Hp2).
    { intros w now Hin. apply (Hproceed w now). right. exact Hin. }
    { intros now ra Hin. apply (Hquota now ra). right. exact Hin. }
    destruct (step_conserves act a) as (Hp1 & Hc1 & _).
    rewrite He in Hp1, Hc1 |- *. rewrite app_nil_r in Hp1.
    cbn [length app] in Hc1 |- *.
    destruct (step_keeps_counters act a He) as [Hcc Hcf].
    split; [exact He2|]. split; [congruence|]. split; [congruence|].
    split; [exact Hr2|].
    rewrite (submitted_cons act acts), Hp2, Hp1, (app_assoc (pending a)).
    reflexivity.
Qed.

Lemma closed_window_holds_tasks_back_witness :
  snd (run squeeze crowded) = []
  /\ Permutation (pending (fst (run squeeze crowded)))
                 (pending crowded ++ submitted squeeze).
Proof.
  destruct (closed_window_holds_tasks_back 1060 (1000 + 60) squeeze crowded)
    as (He & _ & _ & _ & Hp).
  - repeat constructor.
  - reflexivity.
  - reflexivity.
  - discriminate.
  - intros w now Hin. simpl in Hin.
    destruct Hin as [H|[H|[H|[H|[H|[]]]]]]; try discriminate H.
    injection H as _ <-. reflexivity.
  - intros now ra Hin. simpl in Hin.
    destruct Hin as [H|[H|[H|[H|[H|[]]]]]]; discriminate H.
  - split; [exact He | exact Hp].
Defined.

End WorkerPoolFacts.

(** ** adapters/calendar.py: what the builders put into a body *)

Section CalendarBodies.
Import Py Calendar.

Lemma dict_contains_set (k k' : string) (v : pyval) (d : dict pyval) :
  dict_contains k (dict_set k' v d) = String.eqb k k' || dict_contains k d.
Proof.
  unfold dict_contains. destruct (String.eqb_spec k k') as [->|Hne].
  - rewrite dict_get_set_eq. reflexivity.
  - rewrite dict_get_set_ne by exact Hne. reflexivity.
Qed.

Lemma truthy_get_contains (k : string) (d : dict pyval) :
  truthy (dict_get_or_none k d) = true -> dict_contains k d = true.
Proof.
  unfold dict_get_or_none, dict_contains.
  destruct (dict_get k d); [reflexivity | discriminate].
Qed.

Lemma truthy_contains_keys (k : string) (d : dict pyval) :
  dict_contains k d = true -> In k (dict_keys d).
Proof.
  unfold dict_contains. induction d as [|[k' v] d IH]; simpl; [discriminate|].
  destruct (String.eqb_spec k k') as [->|_]; [left; reflexivity|].
  intros H. right. apply IH. exact H.
Qed.

(** X11.  On a dict [_convert_datetime] never fails.  A dateTime that is given
    (and not empty) wins over a date; a date is forwarded only without
    it; and the time zone travels with a dateTime only, so an all-day
    value loses its time zone. *)
Theorem convert_datetime_shape (d : dict pyval) :
  exists converted,
    _convert_datetime (PDict d) = Ok converted
    /\ dict_contains "dateTime" converted = truthy (dict_get_or_none "dateTime" d)
    /\ dict_contains "date" converted
       = negb (truthy (dict_get_or_none "dateTime" d))
         && truthy (dict_get_or_none "date" d)
    /\ dict_contains "timeZone" converted
       = truthy (dict_get_or_none "dateTime" d)
         && truthy (dict_get_or_none "timeZone" d)
    /\ (forall k, dict_contains k converted = true ->
                  In k ["dateTime"; "date"; "timeZone"]).
Proof.
  unfold _convert_datetime. cbn [method_get bind].
  destruct (truthy (dict_get_or_none "dateTime" d)) eqn:Edt.
  - destruct (truthy (dict_get_or_none "timeZone" d)) eqn:Etz;
      eexists; (split; [reflexivity|]); repeat split; try reflexivity;
      intros k Hk; apply truthy_contains_keys in Hk;
      unfold dict_keys in Hk; simpl in Hk |- *; tauto.
  - destruct (truthy (dict_get_or_none "date" d)) eqn:Ed;
      eexists; (split; [reflexivity|]); repeat split; try reflexivity;
      intros k Hk; apply truthy_contains_keys in Hk;
      unfold dict_keys in Hk; simpl in Hk |- *; tauto.
Qed.

(** *** The update body *)

Lemma copy_field_contains (key : string) (arguments body : dict pyval) (k : string) :
  dict_contains k (copy_field key arguments body)
  = (String.eqb k key && dict_contains key arguments) || dict_contains k body.
Proof.
  unfold copy_field, dict_contains at 2.
  destruct (dict_get key arguments).
  - rewrite dict_contains_set, andb_true_r. reflexivity.
  - rewrite andb_false_r. reflexivity.
Qed.

Lemma copy_datetime_contains (key : string) (arguments body body' : dict pyval)
    (k : string) :
  copy_datetime key arguments body = Ok body' ->
  dict_contains k body'
  = (String.eqb k key && dict_contains key arguments) || dict_contains k body.
Proof.
  unfold copy_datetime, dict_contains at 2.
  destruct (dict_get key arguments) as [v|].
  - destruct (_convert_datetime v); simpl; [|discriminate].
    intros H. injection H as <-.
    rewrite dict_contains_set, andb_true_r. reflexivity.
  - intros H. injection H as <-. rewrite andb_false_r. reflexivity.
Qed.

Lemma copy_attendees_contains (arguments body body' : dict pyval) (k : string) :
  copy_attendees arguments body = Ok body' ->
  dict_contains k body'
  = (String.eqb k "attendees" && dict_contains "attendees" arguments)
    || dict_contains k body.
Proof.
  unfold copy_attendees, dict_contains at 2.
  destruct (dict_get "attendees" arguments) as [v|].
  - destruct (iterate v) as [items|]; simpl; [|discriminate].
    destruct (mapM attendee_entry items); simpl; [|discriminate].
    intros H. injection H as <-.
    rewrite dict_contains_set, andb_true_r. reflexivity.
  - intros H. injection H as <-. rewrite andb_false_r. reflexivity.
Qed.

Lemma copy_recurrence_contains (arguments body body' : dict pyval) (k : string) :
  copy_recurrence arguments body = Ok body' ->
  dict_contains k body'
  = (String.eqb k "recurrence" && dict_contains "recurrence" arguments)
    || dict_contains k body.
Proof.
  unfold copy_recurrence, dict_contains at 2.
  destruct (dict_get "recurrence" arguments) as [r|].
  - destruct (subscript r "rrule") as [rrule|]; simpl; [|discriminate].
    destruct (method_get r "exdate") as [exdate|]; simpl; [|discriminate].
    destruct (truthy exdate).
    + destruct rrule; try discriminate.
      destruct (iterate exdate); simpl; [|discriminate].
      intros H. injection H as <-.
      rewrite !dict_contains_set, andb_true_r.
      destruct (String.eqb k "recurrence"); reflexivity.
    + intros H. injection H as <-.
      rewrite dict_contains_set, andb_true_r. reflexivity.
  - intros H. injection H as <-. rewrite andb_false_r. reflexivity.
Qed.

(** X12.  Called on an argument dict of the caller's making, the update builder
    keeps presence as it finds it: a key is in the body exactly when it
    is one of the eleven event fields and a key of the arguments.
    [calendarId], [eventId] and keys it does not know never get in, and a
    field given as empty or [None] does. *)
Theorem update_body_keeps_presence (arguments body : dict pyval) (k : string) :
  _build_update_body arguments = Ok body ->
  dict_contains k body
  = existsb (String.eqb k) event_fields && dict_contains k arguments.
Proof.
  unfold _build_update_body.
  destruct (copy_datetime "start" arguments _) as [b1|] eqn:E1;
    simpl; [|discriminate].
  destruct (copy_datetime "end" arguments b1) as [b2|] eqn:E2;
    simpl; [|discriminate].
  destruct (copy_attendees arguments _) as [b3|] eqn:E3;
    simpl; [|discriminate].
  destruct (copy_recurrence arguments _) as [b4|] eqn:E4;
    simpl; [|discriminate].
  intros H. injection H as <-.
  rewrite !copy_field_contains.
  rewrite (copy_recurrence_contains _ _ _ k E4), !copy_field_contains.
  rewrite (copy_attendees_contains _ _ _ k E3), !copy_field_contains.
  rewrite (copy_datetime_contains _ _ _ _ k E2).
  rewrite (copy_datetime_contains _ _ _ _ k E1), !copy_field_contains.
  unfold event_fields. cbn [existsb].
  replace (dict_contains k (@nil (string * pyval))) with false by reflexivity.
  repeat (match goal with
          | |- context [String.eqb k ?lit] =>
              destruct (String.eqb_spec k lit) as [->|?]
          end; cbn [andb orb];
          try (destruct (dict_contains _ arguments); reflexivity)).
  reflexivity.
Qed.

Lemma update_body_keeps_presence_witness :
  dict_contains "location"
    match _build_update_body hand_made_patch with Ok b => b | Raise _ => [] end
  = true
  /\ dict_contains "colorId"
       match _build_update_body hand_made_patch with Ok b => b | Raise _ => [] end
     = false.
Proof.
  split.
  - rewrite (update_body_keeps_presence hand_made_patch
               match _build_update_body hand_made_patch with
               | Ok b => b | Raise _ => [] end
               "location" eq_refl).
    reflexivity.
  - rewrite (update_body_keeps_presence hand_made_patch
               match _build_update_body hand_made_patch with
               | Ok b => b | Raise _ => [] end
               "colorId" eq_refl).
    reflexivity.
Defined.

(** *** The create body *)

Lemma take_field_contains (key : string) (arguments body : dict pyval) (k : string) :
  dict_contains k (take_field key arguments body)
  = (String.eqb k key && truthy (dict_get_or_none key arguments))
    || dict_contains k body.
Proof.
  unfold take_field. destruct (truthy (dict_get_or_none key arguments)).
  - rewrite dict_contains_set, andb_true_r. reflexivity.
  - rewrite andb_false_r. reflexivity.
Qed.

Lemma guarded_attendees_contains (arguments body body' : dict pyval) (k : string) :
  (if truthy (dict_get_or_none "attendees" arguments)
   then copy_attendees arguments body else Ok body) = Ok body' ->
  dict_contains k body'
  = (String.eqb k "attendees" && truthy (dict_get_or_none "attendees" arguments))
    || dict_contains k body.
Proof.
  destruct (truthy (dict_get_or_none "attendees" arguments)) eqn:T.
  - intros E. rewrite (copy_attendees_contains _ _ _ k E).
    rewrite (truthy_get_contains _ _ T). reflexivity.
  - intros E. injection E as <-. rewrite andb_false_r. reflexivity.
Qed.

Lemma guarded_recurrence_contains (arguments body body' : dict pyval) (k : string) :
  (if truthy (dict_get_or_none "recurrence" arguments)
   then copy_recurrence arguments body else Ok body) = Ok body' ->
  dict_contains k body'
  = (String.eqb k "recurrence" && truthy (dict_get_or_none "recurrence" arguments))
    || dict_contains k body.
Proof.
  destruct (truthy (dict_get_or_none "recurrence" arguments)) eqn:T.
  - intros E. rewrite (copy_recurrence_contains _ _ _ k E).
    rewrite (truthy_get_contains _ _ T). reflexivity.
  - intros E. injection E as <-. rewrite andb_false_r. reflexivity.
Qed.

(** X13.  A create body always has summary, start and end; of the optional
    fields it has exactly those whose value in the arguments is true in
    Python's sense, so a field given as [None], as an empty string or as
    an empty list is left out; and it has no other key. *)
Theorem event_body_fields (arguments body : dict pyval) (k : string) :
  _build_event_body arguments = Ok body ->
  dict_contains k body
  = existsb (String.eqb k) required_event_fields
    || (existsb (String.eqb k) optional_event_fields
        && truthy (dict_get_or_none k arguments)).
Proof.
  unfold _build_event_body.
  do 5 (match goal with
        | |- bind ?m _ = Ok _ -> _ =>
            destruct m eqn:?; cbn [bind]; [|discriminate]
        end).
  match goal with
  | |- bind ?m _ = Ok _ -> _ =>
      destruct m as [b1|] eqn:E1; cbn [bind]; [|discriminate]
  end.
  match goal with
  | |- bind ?m _ = Ok _ -> _ =>
      destruct m as [b2|] eqn:E2; cbn [bind]; [|discriminate]
  end.
  intros H. injection H as <-.
  rewrite !take_field_contains.
  rewrite (guarded_recurrence_contains _ _ _ k E2), !take_field_contains.
  rewrite (guarded_attendees_contains _ _ _ k E1), !take_field_contains.
  unfold required_event_fields, optional_event_fields, dict_contains.
  cbn [existsb dict_get].
  repeat (match goal with
          | |- context [String.eqb k ?lit] =>
              destruct (String.eqb_spec k lit) as [->|?]
          end; simpl;
          try (destruct (truthy (dict_get_or_none _ arguments)); reflexivity);
          try reflexivity).
  all: apply orb_false_r.
Qed.

Lemma event_body_fields_witness :
  dict_contains "description"
    match _build_event_body standup_arguments with Ok b => b | Raise _ => [] end
  = false
  /\ dict_contains "location"
       match _build_event_body standup_arguments with Ok b => b | Raise _ => [] end
     = true.
Proof.
  split.
  - rewrite (event_body_fields standup_arguments
               match _build_event_body standup_arguments with
               | Ok b => b | Raise _ => [] end
               "description" eq_refl).
    reflexivity.
  - rewrite (event_body_fields standup_arguments
               match _build_event_body standup_arguments with
               | Ok b => b | Raise _ => [] end
               "location" eq_refl).
    reflexivity.
Defined.

End CalendarBodies.

(** ** tools/schemas.py, tools/validators.py: what validation rejects and
    what it hands on *)

Section ValidationFacts.
Import Py Schemas.
Variable parse_datetime : pyval -> option string.

(** Errors are only ever added. *)
Lemma validate_field_keeps_error (raw : dict pyval) (st : dict pyval * errors)
    (f : Field) (err : string * string) :
  In err (snd st) -> In err (snd (validate_field raw st f)).
Proof.
  destruct st as [values errs]. unfold validate_field. simpl. intros Hin.
  destruct (dict_get (name f) raw) as [x|].
  - destruct (annotation f x) as [v|]; simpl.
    + destruct (run_validators (validators f) v values); simpl;
        [exact Hin | apply in_or_app; left; exact Hin].
    + apply in_or_app. left. exact Hin.
  - destruct (required f); simpl; [apply in_or_app; left|]; exact Hin.
Qed.

Lemma validate_fields_keep_error (raw : dict pyval) (fields : list Field)
    (err : string * string) :
  forall st, In err (snd st) ->
             In err (snd (fold_left (validate_field raw) fields st)).
Proof.
  induction fields as [|f fields IH]; simpl; intros st Hin; [exact Hin|].
  apply IH. apply validate_field_keeps_error. exact Hin.
Qed.

(** A field that is turned down, whatever has been accepted before it,
    makes the whole model fail, and its error is reported. *)
Lemma rejected_field_rejects_model (raw : dict pyval) (fields : list Field)
    (f : Field) (err : string * string) :
  In f fields ->
  (forall st, In err (snd (validate_field raw st f))) ->
  exists errs,
    validate_fields fields raw = Raise (ValidationError errs) /\ In err errs.
Proof.
  intros Hin Hrej. unfold validate_fields.
  apply in_split in Hin as (pre & post & ->).
  rewrite fold_left_app. simpl.
  pose proof (validate_fields_keep_error raw post err _
                (Hrej (fold_left (validate_field raw) pre ([], [])))) as Herr.
  destruct (fold_left (validate_field raw) post _) as [values errs].
  simpl in Herr. destruct errs as [|e errs]; [contradiction|].
  eexists. split; [reflexivity | exact Herr].
Qed.

Lemma validate_tool_args_rejects (tool_name : string) (schema : list Field)
    (raw : dict pyval) (errs : errors) :
  dict_get tool_name (SCHEMA_MAP parse_datetime) = Some schema ->
  validate_fields schema raw = Raise (ValidationError errs) ->
  validate_tool_args parse_datetime tool_name raw
  = Raise (ValidationException
             ("Validation failed for tool '" +:+ tool_name +:+ "'")).
Proof.
  intros Hs Hv. unfold validate_tool_args, construct. rewrite Hs, Hv.
  reflexivity.
Qed.

(** X14.  A call that leaves out a required field of its tool's schema is
    rejected, whatever else it carries; the missing field is among the
    errors of the model. *)
Theorem missing_required_field_rejected (tool_name : string)
    (schema : list Field) (f : Field) (raw : dict pyval) :
  dict_get tool_name (SCHEMA_MAP parse_datetime) = Some schema ->
  In f schema ->
  required f = true ->
  dict_get (name f) raw = None ->
  validate_tool_args parse_datetime tool_name raw
  = Raise (ValidationException
             ("Validation failed for tool '" +:+ tool_name +:+ "'"))
  /\ exists errs,
       validate_fields schema raw = Raise (ValidationError errs)
       /\ In (name f, "Field required") errs.
Proof.
  intros Hs Hin Hreq Habsent.
  destruct (rejected_field_rejects_model raw schema f
              (name f, "Field required") Hin) as (errs & Hv & Herr).
  - intros [values errs]. unfold validate_field. rewrite Habsent, Hreq. simpl.
    apply in_or_app. right. left. reflexivity.
  - split; [exact (validate_tool_args_rejects _ _ _ _ Hs Hv)|].
    exists errs. split; assumption.
Qed.

Lemma all_some_same (t : pyval -> option pyval) (items out : list pyval) :
  (forall x y, t x = Some y -> y = x) ->
  all_some (map t items) = Some out -> out = items.
Proof.
  intros Ht. revert out. induction items as [|x items IH]; simpl; intros out.
  - intros H. injection H as <-. reflexivity.
  - destruct (t x) as [y|] eqn:E; [|discriminate].
    destruct (all_some (map t items)) as [ys|]; simpl; [|discriminate].
    intros H. injection H as <-. rewrite (Ht x y E), (IH ys eq_refl).
    reflexivity.
Qed.

Lemma t_dict_str_same (x y : pyval) : t_dict_str x = Some y -> y = x.
Proof.
  unfold t_dict_str. destruct x; try discriminate.
  destruct (forallb _ entries); [|discriminate].
  intros H. injection H as <-. reflexivity.
Qed.

(** X15.  A free/busy query whose [items] is an empty list, or has an entry
    that is not a dict with an [id], is rejected, whatever its other
    arguments. *)
Theorem freebusy_items_checked (raw : dict pyval) (items : list pyval) :
  dict_get "items" raw = Some (PList items) ->
  items = [] \/ (exists item, In item items /\ has_id item = false) ->
  validate_tool_args parse_datetime "freebusy_query" raw
  = Raise (ValidationException
             "Validation failed for tool 'freebusy_query'").
Proof.
  intros Hitems Hbad.
  assert (Hrej : forall st,
             exists err,
               snd (validate_field raw st
                      {| name := "items"; required := true; default := PNone;
                         annotation := t_list t_dict_str;
                         validators := [validate_items] |})
               = (snd st ++ [("items", err)])%list).
  { intros [values errs]. unfold validate_field. cbn [name]. rewrite Hitems.
    cbn [annotation validators t_list].
    destruct (all_some (map t_dict_str items)) as [out|] eqn:E; simpl;
      [|eexists; reflexivity].
    apply (all_some_same _ _ _ t_dict_str_same) in E. subst out.
    unfold validate_items.
    destruct Hbad as [->|(item & Hin & Hid)]; simpl; [eexists; reflexivity|].
    destruct items as [|i items]; [contradiction|]. cbn [negb].
    replace (forallb (fun item0 => match item0 with
                                   | PDict d => dict_contains "id" d
                                   | _ => false
                                   end) (i :: items)) with false.
    - simpl. eexists. reflexivity.
    - symmetry. apply not_true_is_false. intros Hall.
      rewrite forallb_forall in Hall. specialize (Hall item Hin).
      unfold has_id in Hid. congruence. }
  assert (Hex : exists errs,
             validate_fields (FreeBusyQuerySchema parse_datetime) raw
             = Raise (ValidationError errs)).
  { unfold validate_fields, FreeBusyQuerySchema. cbn [fold_left].
    match goal with
    | |- context [validate_field raw ?st {| name := "items"; required := _;
                                            default := _; annotation := _;
                                            validators := _ |}] =>
        destruct (Hrej st) as (err & Herr);
        destruct (validate_field raw st _) as [values errs]
    end.
    simpl in Herr. subst errs.
    match goal with
    | |- context [(?l ++ [?e])%list] => destruct (l ++ [e])%list eqn:E
    end.
    - apply app_eq_nil in E as [_ E]. discriminate.
    - eexists. reflexivity. }
  destruct Hex as (errs & Hv).
  exact (validate_tool_args_rejects "freebusy_query" _ raw errs eq_refl Hv).
Qed.

(** *** The fields of an accepted model *)

Lemma dict_keys_set_new (k : string) (v : pyval) (d : dict pyval) :
  ~ In k (dict_keys d) -> dict_keys (dict_set k v d) = (dict_keys d ++ [k])%list.
Proof.
  induction d as [|[k' v'] d IH]; simpl; intros Hn; [reflexivity|].
  destruct (String.eqb_spec k k') as [->|Hne].
  - exfalso. apply Hn. left. reflexivity.
  - simpl. rewrite IH; [reflexivity|]. intros H. apply Hn. right. exact H.
Qed.

Lemma validate_field_keys (raw : dict pyval) (st : dict pyval * errors)
    (f : Field) :
  snd (validate_field raw st f) = [] ->
  ~ In (name f) (dict_keys (fst st)) ->
  dict_keys (fst (validate_field raw st f)) = (dict_keys (fst st) ++ [name f])%list.
Proof.
  destruct st as [values errs]. unfold validate_field. simpl.
  destruct (dict_get (name f) raw) as [x|].
  - destruct (annotation f x) as [v|]; simpl.
    + destruct (run_validators (validators f) v values); simpl.
      * intros _. apply dict_keys_set_new.
      * intros H. apply app_eq_nil in H as [_ H]. discriminate.
    + intros H. apply app_eq_nil in H as [_ H]. discriminate.
  - destruct (required f); simpl.
    + intros H. apply app_eq_nil in H as [_ H]. discriminate.
    + intros _. apply dict_keys_set_new.
Qed.

Lemma validate_fields_keys (raw : dict pyval) (fields : list Field) :
  forall st,
    List.NoDup (dict_keys (fst st) ++ map name fields) ->
    snd (fold_left (validate_field raw) fields st) = [] ->
    dict_keys (fst (fold_left (validate_field raw) fields st))
    = (dict_keys (fst st) ++ map name fields)%list.
Proof.
  induction fields as [|f fields IH]; simpl; intros st Hnd Herr.
  - rewrite app_nil_r. reflexivity.
  - pose proof (validate_fields_errors raw fields _ Herr) as Hstep.
    assert (Hfresh : ~ In (name f) (dict_keys (fst st))).
    { intros Hin. apply NoDup_remove_2 in Hnd. apply Hnd.
      apply in_or_app. left. exact Hin. }
    pose proof (validate_field_keys raw st f Hstep Hfresh) as Hkeys.
    rewrite (IH (validate_field raw st f)).
    + rewrite Hkeys, <- app_assoc. reflexivity.
    + rewrite Hkeys, <- app_assoc. exact Hnd.
    + exact Herr.
Qed.

(** X16.  What an accepted tool call is handed on as: a dict with exactly the
    fields of the tool's schema, in the order of their declaration.  Keys
    of the call that the schema does not know are gone, and fields the
    call left out are there. *)
Theorem validated_arguments_have_schema_fields (tool_name : string)
    (schema : list Field) (raw : dict pyval) (validated : BaseModel) :
  dict_get tool_name (SCHEMA_MAP parse_datetime) = Some schema ->
  validate_tool_args parse_datetime tool_name raw = Ok validated ->
  dict_keys (dict_ validated) = map name schema.
Proof.
  intros Hs. unfold validate_tool_args, construct. rewrite Hs.
  destruct (validate_fields schema raw) as [values|e] eqn:Hv; simpl;
    [|destruct e; discriminate].
  intros H. injection H as <-. unfold dict_. simpl.
  assert (Hnd : List.NoDup (map name schema)).
  { unfold SCHEMA_MAP in Hs. simpl in Hs.
    repeat match type of Hs with
           | (if ?c then _ else _) = _ => destruct c
           end;
      try discriminate; injection Hs as <-; simpl;
      repeat constructor; simpl; intuition discriminate. }
  unfold validate_fields in Hv.
  destruct (fold_left (validate_field raw) schema ([], [])) as [vals errs] eqn:E.
  destruct errs; [|discriminate]. injection Hv as <-.
  pose proof (validate_fields_keys raw schema ([], []) Hnd) as Hkeys.
  rewrite E in Hkeys. apply Hkeys. reflexivity.
Qed.

End ValidationFacts.

Lemma missing_required_field_rejected_witness :
  Schemas.validate_tool_args Schemas.no_parse "delete_event"
    [("calendarId", Py.PStr "cal1")]
  = Py.Raise (Py.ValidationException
                "Validation failed for tool 'delete_event'").
Proof.
  apply (missing_required_field_rejected Schemas.no_parse "delete_event"
           (Schemas.DeleteEventSchema) (Schemas.req "eventId" Schemas.t_str)
           [("calendarId", Py.PStr "cal1")]).
  - reflexivity.
  - simpl. tauto.
  - reflexivity.
  - reflexivity.
Defined.

Lemma freebusy_items_checked_witness :
  Schemas.validate_tool_args Schemas.no_parse "freebusy_query"
    [("timeMin", Py.PDateTime "2024-01-15T00:00:00");
     ("timeMax", Py.PDateTime "2024-01-16T00:00:00");
     ("items", Py.PList [])]
  = Py.Raise (Py.ValidationException
                "Validation failed for tool 'freebusy_query'").
Proof.
  apply (freebusy_items_checked Schemas.no_parse _ []).
  - reflexivity.
  - left. reflexivity.
Defined.

Lemma validated_arguments_have_schema_fields_witness :
  Py.dict_keys (Schemas.dict_ Calendar.summary_only_validated)
  = ["calendarId"; "eventId"; "summary"; "description"; "start"; "end";
     "location"; "attendees"; "visibility"; "status"; "recurrence";
     "reminders"; "conferenceData"].
Proof.
  apply (validated_arguments_have_schema_fields Schemas.no_parse
           "update_event" (Schemas.UpdateEventSchema Schemas.no_parse)
           (Calendar.summary_only "cal1" "evt1" "Standup")
           Calendar.summary_only_validated); reflexivity.
Defined.

(** ** router/idempotency.py: the cache *)

Section CacheFacts.
Import Py Idempotency.

Lemma get_after_set_other (now later : Z) (cache : IdempotencyCache)
    (key key' : string) (result : pyval) (ttl : option Z) :
  key <> key' ->
  get now (snd (set later cache key result ttl)) key' = get now cache key'.
Proof.
  intros Hne. unfold get, set.
  destruct cache as [[reachable entries | data] dttl]; simpl.
  - destruct reachable; simpl; [|reflexivity].
    destruct (match ttl with
              | Some t => if t =? 0 then dttl else t
              | None => dttl
              end <=? 0); simpl; [reflexivity|].
    rewrite lookup_insert_ne by exact Hne. reflexivity.
  - rewrite lookup_insert_ne by exact Hne. reflexivity.
Qed.

(** X17.  What is stored under a key is read back under that key for as long
    as the store keeps it (its JSON form: values JSON cannot carry come
    back as strings), and storing under one key leaves every other key as
    it was. *)
Theorem cache_round_trip (now later : Z) (cache : IdempotencyCache)
    (key : string) (result : pyval) :
  keeps_until now later cache ->
  get now (snd (set later cache key result None)) key = Some (jsonable result)
  /\ (forall key', key <> key' ->
        get now (snd (set later cache key result None)) key'
        = get now cache key').
Proof.
  intros Hkeep. split.
  - apply get_after_set. exact Hkeep.
  - intros key' Hne. apply get_after_set_other. exact Hne.
Qed.

Lemma cache_round_trip_witness :
  get 299 (snd (set 0 redis_cache "k"
                  (PDict [("at", PDateTime "2024-01-15T10:00:00")]) None)) "k"
  = Some (PDict [("at", PStr "2024-01-15 10:00:00")]).
Proof.
  apply (cache_round_trip 299 0 redis_cache "k"
           (PDict [("at", PDateTime "2024-01-15T10:00:00")])).
  simpl. repeat split; reflexivity.
Defined.

(** X18.  An entry written to a Redis server with a lifetime is gone from the
    moment the lifetime has passed, while the in-process stand-in ignores
    the lifetime and returns the entry at any later time. *)
Theorem cache_expiry (now later ttl : Z) (key : string) (result : pyval)
    (dttl : Z) :
  0 < ttl ->
  (forall entries,
      later + ttl <= now ->
      get now (snd (set later {| redis_client := Redis true entries;
                                 default_ttl := dttl |}
                      key result (Some ttl))) key = None)
  /\ (forall data,
        get now (snd (set later {| redis_client := MockRedisClient data;
                                   default_ttl := dttl |}
                        key result (Some ttl))) key = Some (jsonable result)).
Proof.
  intros Hpos. split.
  - intros entries Hdead. unfold get, set. simpl.
    replace (ttl =? 0) with false by (symmetry; apply Z.eqb_neq; lia).
    replace (ttl <=? 0) with false by (symmetry; apply Z.leb_gt; lia).
    simpl. rewrite lookup_insert_eq.
    replace (now <? later + ttl) with false by (symmetry; apply Z.ltb_ge; lia).
    reflexivity.
  - intros data. unfold get, set. simpl. rewrite lookup_insert_eq. reflexivity.
Qed.

Lemma cache_expiry_witness :
  get 300 (snd (set 0 redis_cache "k" (PStr "v") (Some 300))) "k" = None
  /\ get 300 (snd (set 0 mock_cache "k" (PStr "v") (Some 300))) "k"
     = Some (PStr "v").
Proof.
  destruct (cache_expiry 300 0 300 "k" (PStr "v") 300) as [Hredis Hmock].
  - reflexivity.
  - split.
    + apply Hredis. discriminate.
    + apply Hmock.
Defined.

(** X19.  When the server is out of reach no cache operation fails or changes
    anything: a lookup finds nothing, a write and a delete report
    [False], and [check_and_set] answers [None]. *)
Theorem cache_degrades (now : Z) (entries : gmap string (pyval * Z))
    (dttl : Z) (key : string) (result : pyval) (ttl : option Z) :
  let cache := {| redis_client := Redis false entries; default_ttl := dttl |} in
  get now cache key = None
  /\ set now cache key result ttl = (false, cache)
  /\ check_and_set now cache key result ttl = (None, cache)
  /\ delete cache key = (false, cache).
Proof. repeat split. Qed.

(** X20.  [check_and_set] lets the first writer win: once it has stored a
    non-empty result under a key that had none, a second call under that
    key, while the store keeps the entry, returns the first result and
    writes nothing. *)
Theorem check_and_set_first_writer_wins (now later : Z)
    (cache : IdempotencyCache) (key : string) (first second : pyval) :
  get later cache key = None ->
  in_reach cache ->
  truthy first = true ->
  keeps_until now later cache ->
  let stored := snd (check_and_set later cache key first None) in
  fst (check_and_set later cache key first None) = None
  /\ check_and_set now stored key second None = (Some (jsonable first), stored).
Proof.
  intros Hmiss Hreach Htrue Hkeep stored.
  unfold stored, check_and_set, get, in_reach, keeps_until in *.
  destruct cache as [[reachable entries | data] dttl]; simpl in *.
  - subst reachable. destruct Hkeep as (_ & Hpos & Hlive). simpl in *.
    assert (Hnone : match entries !! key with
                    | Some (document, expires_at) =>
                        if later <? expires_at then Ok (Some document)
                        else Ok None
                    | None => Ok None
                    end = Ok None).
    { destruct (entries !! key) as [[doc exp]|]; [|reflexivity].
      destruct (later <? exp); [discriminate | reflexivity]. }
    rewrite Hnone, Htrue.
    replace (dttl <=? 0) with false by (symmetry; apply Z.leb_gt; exact Hpos).
    simpl. rewrite lookup_insert_eq.
    replace (now <? later + dttl) with true
      by (symmetry; apply Z.ltb_lt; exact Hlive).
    split; reflexivity.
  - destruct (data !! key) eqn:E; [discriminate|].
    rewrite Htrue. simpl. rewrite lookup_insert_eq. split; reflexivity.
Qed.

Lemma check_and_set_first_writer_wins_witness :
  check_and_set 10 (snd (check_and_set 0 redis_cache "k" (PStr "first") None))
    "k" (PStr "second") None
  = (Some (PStr "first"),
     snd (check_and_set 0 redis_cache "k" (PStr "first") None)).
Proof.
  apply (check_and_set_first_writer_wins 10 0 redis_cache "k"
           (PStr "first") (PStr "second")).
  - reflexivity.
  - reflexivity.
  - reflexivity.
  - simpl. repeat split; reflexivity.
Defined.

(** X21.  Deleting a key from a store that answers removes its entry for every
    later lookup and leaves the other keys alone. *)
Theorem delete_removes (now : Z) (cache : IdempotencyCache) (key : string) :
  in_reach cache ->
  fst (delete cache key) = true
  /\ get now (snd (delete cache key)) key = None
  /\ (forall key', key <> key' ->
        get now (snd (delete cache key)) key' = get now cache key').
Proof.
  unfold in_reach, delete, get.
  destruct cache as [[reachable entries | data] dttl]; simpl.
  - intros ->. simpl. rewrite lookup_delete_eq. repeat split.
    intros key' Hne. rewrite lookup_delete_ne by exact Hne. reflexivity.
  - intros _. rewrite lookup_delete_eq. repeat split.
    intros key' Hne. rewrite lookup_delete_ne by exact Hne. reflexivity.
Qed.

Lemma delete_removes_witness :
  get 10 (snd (delete (snd (set 0 mock_cache "k" (PStr "v") None)) "k")) "k"
  = None.
Proof.
  apply (delete_removes 10 (snd (set 0 mock_cache "k" (PStr "v") None)) "k").
  exact I.
Defined.

End CacheFacts.

(** ** router/queue.py: the paths around the cache hit *)

Section RouterPaths.
Import Py Router.
Variable parse_datetime : pyval -> option string.
Variable encode_string : string -> string.
Variable sha256_hexdigest : string -> string.
Variable Remote : Type.
Variable calendar_adapter : string -> dict pyval -> Remote -> dict pyval * Remote.

#[local] Abbreviation enqueue' :=
  (enqueue_tool_call parse_datetime encode_string sha256_hexdigest
     Remote calendar_adapter).
#[local] Abbreviation key_of' :=
  (Idempotency.generate_key encode_string sha256_hexdigest).

(** X22.  A call that fails validation (an unknown tool, a missing or malformed
    argument) is answered with one error envelope, [success] false and
    the reason in [error]; no adapter method is invoked for it, and the
    remote calendar and the cache stay as they were. *)
Theorem invalid_call_never_reaches_adapter (now later : Z)
    (self : CommandQueue Remote) (tool_name : string)
    (arguments : dict pyval) (user_id : option string) (e : exn) :
  Schemas.validate_tool_args parse_datetime tool_name arguments = Raise e ->
  let out := enqueue' now later self tool_name arguments user_id in
  (exists message,
      fst out = [PDict (Schemas.ToolResponse false message PNone
                          (PStr (exn_str e)))])
  /\ adapter_calls Remote (snd out) = adapter_calls Remote self
  /\ remote Remote (snd out) = remote Remote self
  /\ idempotency_cache Remote (snd out) = idempotency_cache Remote self.
Proof.
  intros Hv out. unfold out, enqueue_tool_call. rewrite Hv.
  destruct (ensure_initialized_keeps Remote self) as (Hc & Ha & Hr).
  destruct e; simpl; (split; [eexists; reflexivity|]);
    repeat split; assumption.
Qed.

(** X23.  With the cache server out of reach nothing is deduplicated, yet every
    valid call is still served: the adapter is invoked and its answer
    returned, and the cache is left as it was. *)
Theorem unreachable_store_still_serves (now later : Z)
    (self : CommandQueue Remote) (tool_name : string)
    (arguments : dict pyval) (user_id : option string)
    (validated : Schemas.BaseModel) (entries : gmap string (pyval * Z)) :
  Schemas.validate_tool_args parse_datetime tool_name arguments = Ok validated ->
  Idempotency.redis_client (idempotency_cache Remote self)
  = Idempotency.Redis false entries ->
  let out := enqueue' now later self tool_name arguments user_id in
  fst out
  = [PDict (fst (calendar_adapter tool_name (Schemas.dict_ validated)
                   (remote Remote self)))]
  /\ adapter_calls Remote (snd out)
     = (adapter_calls Remote self ++ [(tool_name, Schemas.dict_ validated)])%list
  /\ idempotency_cache Remote (snd out) = idempotency_cache Remote self.
Proof.
  intros Hv Hdown out. unfold out, enqueue_tool_call.
  destruct (ensure_initialized_keeps Remote self) as (Hc & Ha & Hr).
  rewrite Hv, Hc.
  assert (Hget : forall key,
             Idempotency.get now (idempotency_cache Remote self) key = None).
  { intros key. unfold Idempotency.get. rewrite Hdown. reflexivity. }
  rewrite Hget. unfold dispatch.
  rewrite (process_job_validated parse_datetime Remote calendar_adapter
             _ _ arguments _ validated Hv).
  unfold invoke_adapter. rewrite Hr.
  destruct (calendar_adapter tool_name (Schemas.dict_ validated)
              (remote Remote self)) as [resp remote'].
  assert (Hset : forall key result,
             snd (Idempotency.set later (idempotency_cache Remote self)
                    key result None)
             = idempotency_cache Remote self).
  { intros key result. unfold Idempotency.set. rewrite Hdown. reflexivity. }
  destruct (truthy (PDict resp)); simpl; rewrite ?Hc, ?Hset, Ha;
    repeat split; reflexivity.
Qed.

End RouterPaths.

Lemma invalid_call_never_reaches_adapter_witness :
  (exists message,
      fst (Router.enqueue_tool_call Router.no_parse Router.quote_only
             Router.text_as_digest unit Router.constant_adapter
             0 1 (Router.new_queue unit Idempotency.mock_cache tt)
             "rename_event" Router.delete_request None)
      = [Py.PDict (Schemas.ToolResponse false message Py.PNone
                     (Py.PStr "Unknown tool: rename_event"))])
  /\ Router.adapter_calls unit
       (snd (Router.enqueue_tool_call Router.no_parse Router.quote_only
               Router.text_as_digest unit Router.constant_adapter
               0 1 (Router.new_queue unit Idempotency.mock_cache tt)
               "rename_event" Router.delete_request None))
     = [].
Proof.
  destruct (invalid_call_never_reaches_adapter Router.no_parse
              Router.quote_only Router.text_as_digest unit
              Router.constant_adapter 0 1
              (Router.new_queue unit Idempotency.mock_cache tt)
              "rename_event" Router.delete_request None
              (Py.ValidationException "Unknown tool: rename_event") eq_refl)
    as (Hout & Hcalls & _).
  split; [exact Hout | exact Hcalls].
Defined.

Lemma unreachable_store_still_serves_witness :
  fst (Router.enqueue_tool_call Router.no_parse Router.quote_only
         Router.text_as_digest unit Router.constant_adapter
         0 1 (Router.new_queue unit Idempotency.unreachable_cache tt)
         "delete_event" Router.delete_request (Some "alice"))
  = [Py.PDict Router.deleted_envelope].
Proof.
  destruct (unreachable_store_still_serves Router.no_parse
              Router.quote_only Router.text_as_digest unit
              Router.constant_adapter 0 1
              (Router.new_queue unit Idempotency.unreachable_cache tt)
              "delete_event" Router.delete_request (Some "alice")
              Router.delete_validated ∅ eq_refl eq_refl)
    as (Hout & _).
  exact Hout.
Defined.

Lemma repeated_call_served_from_cache_witness :
  fst (Router.enqueue_tool_call Router.no_parse Router.quote_only
         Router.text_as_digest unit Router.constant_adapter 100 101
         (snd (Router.enqueue_tool_call Router.no_parse Router.quote_only
                 Router.text_as_digest unit Router.constant_adapter 0 1
                 (Router.new_queue unit Idempotency.redis_cache tt)
                 "delete_event" Router.delete_request (Some "alice")))
         "delete_event" Router.delete_request (Some "alice"))
  = [Py.PDict Router.deleted_envelope]
  /\ Router.adapter_calls unit
       (snd (Router.enqueue_tool_call Router.no_parse Router.quote_only
               Router.text_as_digest unit Router.constant_adapter 100 101
               (snd (Router.enqueue_tool_call Router.no_parse Router.quote_only
                       Router.text_as_digest unit Router.constant_adapter 0 1
                       (Router.new_queue unit Idempotency.redis_cache tt)
                       "delete_event" Router.delete_request (Some "alice")))
               "delete_event" Router.delete_request (Some "alice")))
     = [("delete_event", Schemas.dict_ Router.delete_validated)].
Proof.
  apply (repeated_call_served_from_cache Router.no_parse Router.quote_only
           Router.text_as_digest unit Router.constant_adapter 0 1 100 101
           (Router.new_queue unit Idempotency.redis_cache tt)
           "delete_event" Router.delete_request (Some "alice")
           Router.delete_validated).
  - reflexivity.
  - vm_compute. reflexivity.
  - discriminate.
  - simpl. repeat split; reflexivity.
Defined.

(** ** transport/auth.py: the two header checks *)

Section HeaderChecks.
Import Py TransportAuth.

Lemma startswith_split (p : string) :
  forall s, startswith p s = true -> exists rest, s = p +:+ rest.
Proof.
  unfold startswith. induction p as [|a p IH]; intros s H.
  - exists s. reflexivity.
  - destruct s as [|b s]; simpl in H; [discriminate|].
    destruct (ascii_dec a b) as [->|_]; [|discriminate].
    destruct (IH s H) as (rest & ->). exists rest. reflexivity.
Qed.

Lemma split_on_nonempty (c : ascii) (s : string) : split_on c s <> [].
Proof.
  induction s as [|a s IH]; simpl; [discriminate|].
  destruct (Ascii.eqb a c); [discriminate|].
  destruct (split_on c s); [contradiction | discriminate].
Qed.

Lemma split_on_word (c : ascii) (w rest : string) :
  no_char c w = true ->
  split_on c (w +:+ String c rest) = w :: split_on c rest.
Proof.
  induction w as [|a w IH]; simpl; intros H.
  - rewrite Ascii.eqb_refl. reflexivity.
  - apply andb_true_iff in H as [Ha Hw]. apply negb_true_iff in Ha.
    rewrite Ha, (IH Hw). reflexivity.
Qed.

Lemma bearer_has_token (h : string) :
  startswith "Bearer " h = true ->
  exists token, nth_error (split_on " " h) 1 = Some token.
Proof.
  intros H. destruct (startswith_split _ _ H) as (rest & ->).
  change ("Bearer " +:+ rest) with ("Bearer" +:+ String " " rest).
  rewrite split_on_word by reflexivity.
  destruct (split_on " " rest) as [|token pieces] eqn:E.
  - exfalso. exact (split_on_nonempty _ _ E).
  - exists token. reflexivity.
Qed.

(** X25.  With a token configured, [verify_bearer_token] lets a request through
    only with that very token, which it returns; and whatever the request
    and the configuration, the only way it fails is an HTTP 401. *)
Theorem configured_token_enforced (settings : Settings) (request : Request) :
  (forall configured token,
      bearer_token settings = Some configured -> configured <> "" ->
      verify_bearer_token settings request = Ok token -> token = configured)
  /\ (forall e, verify_bearer_token settings request = Raise e ->
                exists detail, e = HTTPException 401 detail).
Proof.
  unfold verify_bearer_token. split.
  - intros configured token Hcfg Hne.
    destruct (headers_get "authorization" request) as [h|]; [|discriminate].
    destruct (negb (str_truthy h)); [discriminate|].
    destruct (negb (startswith "Bearer " h)); [discriminate|].
    destruct (nth_error (split_on " " h) 1) as [t|]; [|discriminate].
    unfold token_mismatch. rewrite Hcfg.
    replace (str_truthy configured) with true
      by (destruct configured; [contradiction | reflexivity]).
    simpl. destruct (String.eqb_spec t configured) as [->|_]; simpl;
      [|discriminate].
    intros H. injection H as <-. reflexivity.
  - intros e.
    destruct (headers_get "authorization" request) as [h|];
      [|intros H; injection H as <-; eexists; reflexivity].
    destruct (negb (str_truthy h));
      [intros H; injection H as <-; eexists; reflexivity|].
    destruct (startswith "Bearer " h) eqn:Hp; cbn [negb];
      [|intros H; injection H as <-; eexists; reflexivity].
    destruct (bearer_has_token h Hp) as (token & ->).
    destruct (token_mismatch settings token);
      [intros H; injection H as <-; eexists; reflexivity | discriminate].
Qed.

Lemma configured_token_enforced_witness :
  verify_bearer_token secured_settings (bearer_request "s3cret") = Ok "s3cret"
  /\ exists detail,
       HTTPException 401 "Invalid bearer token" = HTTPException 401 detail.
Proof.
  destruct (configured_token_enforced secured_settings (bearer_request "guess"))
    as [_ Hfail].
  split; [reflexivity|].
  apply Hfail. reflexivity.
Defined.

(** X26.  Only the word after [Bearer ] counts: whatever follows the token
    after another blank is ignored, so a header with trailing words is
    accepted like the bare token. *)
Theorem words_after_token_ignored (settings : Settings) (request : Request)
    (token rest : string) :
  no_char " " token = true ->
  headers_get "authorization" request
  = Some ("Bearer " +:+ token +:+ " " +:+ rest) ->
  verify_bearer_token settings request
  = verify_bearer_token settings (bearer_request token).
Proof.
  intros Htok Hh. unfold verify_bearer_token. rewrite Hh.
  replace (headers_get "authorization" (bearer_request token))
    with (Some ("Bearer " +:+ token)) by reflexivity.
  cbn [str_truthy String.append negb].
  rewrite !startswith_append. cbn [negb].
  rewrite (split_bearer token Htok).
  change ("Bearer " +:+ token +:+ " " +:+ rest)
    with ("Bearer" +:+ String " " (token +:+ String " " rest)).
  rewrite split_on_word by reflexivity.
  rewrite (split_on_word " " token rest Htok). reflexivity.
Qed.

Lemma words_after_token_ignored_witness :
  verify_bearer_token secured_settings
    {| headers := [("authorization", "Bearer s3cret and more")] |}
  = Ok "s3cret".
Proof.
  rewrite (words_after_token_ignored secured_settings
             {| headers := [("authorization", "Bearer s3cret and more")] |}
             "s3cret" "and more" eq_refl eq_refl).
  reflexivity.
Defined.

(** X27.  [verify_protocol_version] returns a version exactly when the request
    carries the header, non-empty and equal to the configured version; in
    every other case it fails with an HTTP 400. *)
Theorem protocol_version_checked (settings : Settings) (request : Request) :
  (forall v,
      verify_protocol_version settings request = Ok v
      <-> headers_get "MCP-Protocol-Version" request = Some v
          /\ v = mcp_protocol_version settings /\ v <> "")
  /\ (forall e, verify_protocol_version settings request = Raise e ->
                exists detail, e = HTTPException 400 detail).
Proof.
  unfold verify_protocol_version. split.
  - intros v. destruct (headers_get "MCP-Protocol-Version" request) as [h|].
    + destruct h as [|a h]; cbn [str_truthy negb].
      * split; [discriminate|]. intros (H & _ & Hne). injection H as <-.
        contradiction.
      * destruct (String.eqb_spec (String a h) (mcp_protocol_version settings))
          as [Heq|Hne]; simpl.
        -- split.
           ++ intros H. injection H as <-. repeat split; [exact Heq|discriminate].
           ++ intros (H & _ & _). exact (f_equal Ok (Some_inj _ _ H)).
        -- split; [discriminate|].
           intros (H & Hv & _). injection H as <-. contradiction.
    + split; [discriminate|]. intros (H & _). discriminate.
  - intros e. destruct (headers_get "MCP-Protocol-Version" request) as [h|];
      [|intros H; injection H as <-; eexists; reflexivity].
    destruct (negb (str_truthy h));
      [intros H; injection H as <-; eexists; reflexivity|].
    destruct (negb (String.eqb h (mcp_protocol_version settings)));
      [intros H; injection H as <-; eexists; reflexivity | discriminate].
Qed.

End HeaderChecks.

Lemma protocol_version_checked_witness :
  TransportAuth.verify_protocol_version TransportAuth.secured_settings
    (TransportAuth.versioned_request "2025-06-18")
  = Py.Ok "2025-06-18".
Proof.
  apply (proj1 (protocol_version_checked TransportAuth.secured_settings
                  (TransportAuth.versioned_request "2025-06-18"))).
  repeat split. discriminate.
Defined.

(** ** From validation to the create body *)

Section CreatePath.
Import Py Schemas Calendar.
Variable parse_datetime : pyval -> option string.

(** Where the value of an accepted field comes from: its default, when
    the input left an optional field out, or else the annotation's
    reading of the input, passed through the field's validators. *)
Lemma validate_field_value (raw : dict pyval) (st : dict pyval * errors)
    (f : Field) (v : pyval) :
  snd (validate_field raw st f) = [] ->
  dict_get (name f) (fst (validate_field raw st f)) = Some v ->
  (required f = false /\ v = default f)
  \/ (exists x v0, dict_get (name f) raw = Some x
                   /\ annotation f x = Some v0
                   /\ run_validators (validators f) v0 (fst st) = Ok v).
Proof.
  destruct st as [values errs]. unfold validate_field.
  destruct (dict_get (name f) raw) as [x|].
  - destruct (annotation f x) as [v0|] eqn:Ea; simpl.
    + destruct (run_validators (validators f) v0 values) as [v'|] eqn:Ev; simpl.
      * intros _. rewrite dict_get_set_eq. intros H. injection H as <-.
        right. exists x, v0. repeat split; assumption.
      * intros H. apply app_eq_nil in H as [_ H]. discriminate.
    + intros H. apply app_eq_nil in H as [_ H]. discriminate.
  - destruct (required f) eqn:Er; simpl.
    + intros H. apply app_eq_nil in H as [_ H]. discriminate.
    + intros _. rewrite dict_get_set_eq. intros H. injection H as <-.
      left. split; reflexivity.
Qed.

Lemma validate_fields_value (raw : dict pyval) (fields : list Field) :
  List.NoDup (map name fields) ->
  forall st f v,
    In f fields ->
    snd (fold_left (validate_field raw) fields st) = [] ->
    dict_get (name f) (fst (fold_left (validate_field raw) fields st)) = Some v ->
    (required f = false /\ v = default f)
    \/ (exists x v0 values,
          dict_get (name f) raw = Some x
          /\ annotation f x = Some v0
          /\ run_validators (validators f) v0 values = Ok v).
Proof.
  induction fields as [|g fields IH]; simpl; intros Hnd st f v Hin Herr Hget;
    [contradiction|].
  inversion Hnd as [|? ? Hg Hnd']; subst.
  destruct Hin as [->|Hin].
  - pose proof (validate_fields_errors raw fields _ Herr) as Hstep.
    rewrite (validate_fields_other raw fields (name f) Hg) in Hget.
    destruct (validate_field_value raw st f v Hstep Hget)
      as [Hd | (x & v0 & Hx & Ha & Hv)]; [left; exact Hd|].
    right. exists x, v0, (fst st). repeat split; assumption.
  - apply (IH Hnd' _ f v Hin Herr Hget).
Qed.

Lemma accepted_value (fields : list Field) (raw values : dict pyval)
    (f : Field) (v : pyval) :
  List.NoDup (map name fields) ->
  In f fields ->
  validate_fields fields raw = Ok values ->
  dict_get (name f) values = Some v ->
  (required f = false /\ v = default f)
  \/ (exists x v0 vals,
        dict_get (name f) raw = Some x
        /\ annotation f x = Some v0
        /\ run_validators (validators f) v0 vals = Ok v).
Proof.
  intros Hnd Hin. unfold validate_fields.
  destruct (fold_left (validate_field raw) fields ([], [])) as [vals errs] eqn:E.
  destruct errs; [|discriminate]. intros H. injection H as <-. intros Hget.
  pose proof (validate_fields_value raw fields Hnd ([], []) f v Hin) as Hval.
  rewrite E in Hval. apply Hval; [reflexivity | exact Hget].
Qed.

(** The shapes the annotations produce. *)
Lemma t_model_shape (fields : list Field) (x v : pyval) :
  t_model fields x = Some v ->
  exists raw values, x = PDict raw /\ v = PDict values
                     /\ validate_fields fields raw = Ok values.
Proof.
  unfold t_model. destruct x; try discriminate.
  destruct (validate_fields fields entries) as [values|] eqn:E; [|discriminate].
  intros H. injection H as <-. exists entries, values. repeat split. exact E.
Qed.

Lemma all_some_forall (t : pyval -> option pyval) (P : pyval -> Prop)
    (items out : list pyval) :
  (forall x y, t x = Some y -> P y) ->
  all_some (map t items) = Some out -> Forall P out.
Proof.
  intros Ht. revert out. induction items as [|x items IH]; simpl; intros out.
  - intros H. injection H as <-. constructor.
  - destruct (t x) as [y|] eqn:E; [|discriminate].
    destruct (all_some (map t items)) as [ys|]; simpl; [|discriminate].
    intros H. injection H as <-. constructor; [exact (Ht x y E) | apply IH; reflexivity].
Qed.

Lemma t_list_shape (t : pyval -> option pyval) (P : pyval -> Prop) (x v : pyval) :
  (forall a b, t a = Some b -> P b) ->
  t_list t x = Some v -> exists items, v = PList items /\ Forall P items.
Proof.
  intros Ht. unfold t_list. destruct x; try discriminate.
  destruct (all_some (map t items)) as [out|] eqn:E; simpl; [|discriminate].
  intros H. injection H as <-. exists out. split; [reflexivity|].
  exact (all_some_forall t P items out Ht E).
Qed.

Lemma t_optional_shape (t : pyval -> option pyval) (x v : pyval) :
  t_optional t x = Some v -> v = PNone \/ t x = Some v.
Proof.
  unfold t_optional. destruct x; auto. intros H. injection H as <-. auto.
Qed.

Lemma attendee_shape (x v : pyval) :
  t_model Attendee x = Some v -> is_attendee v.
Proof.
  intros H. apply t_model_shape in H as (raw & a & _ & -> & Hv).
  exists a. split; [reflexivity|].
  apply (accepted_model_holds_every_field Attendee raw a (req "email" t_str)).
  - simpl. repeat constructor; simpl; intuition discriminate.
  - simpl. tauto.
  - exact Hv.
Qed.

Lemma attendee_entry_succeeds (v : pyval) :
  is_attendee v -> exists entry, attendee_entry v = Ok entry.
Proof.
  intros (a & -> & Hemail). unfold attendee_entry, subscript, dict_contains in *.
  destruct (dict_get "email" a); [|discriminate]. simpl. eexists. reflexivity.
Qed.

Lemma attendee_entries_succeed (items : list pyval) :
  Forall is_attendee items -> exists entries, mapM attendee_entry items = Ok entries.
Proof.
  induction 1 as [|v items Hv _ IH]; simpl.
  - eexists. reflexivity.
  - destruct (attendee_entry_succeeds v Hv) as (entry & ->).
    destruct IH as (entries & ->). eexists. reflexivity.
Qed.

Lemma str_list_shape (x v : pyval) :
  t_list t_str x = Some v -> exists items, v = PList items.
Proof.
  intros H. apply (t_list_shape t_str (fun _ => True)) in H as (items & -> & _);
    [eexists; reflexivity | trivial].
Qed.

Lemma convert_datetime_dict_ok (d : dict pyval) :
  exists converted, _convert_datetime (PDict d) = Ok converted.
Proof.
  unfold _convert_datetime. cbn [method_get bind].
  destruct (truthy (dict_get_or_none "dateTime" d)).
  - destruct (truthy (dict_get_or_none "timeZone" d)); eexists; reflexivity.
  - destruct (truthy (dict_get_or_none "date" d)); eexists; reflexivity.
Qed.

Lemma guarded_attendees_ok (arguments body : dict pyval) (v : pyval) :
  dict_get "attendees" arguments = Some v ->
  v = PNone \/ (exists items, v = PList items /\ Forall is_attendee items) ->
  exists body',
    (if truthy (dict_get_or_none "attendees" arguments)
     then copy_attendees arguments body else Ok body) = Ok body'.
Proof.
  intros Hget Hshape. unfold dict_get_or_none, copy_attendees. rewrite Hget.
  destruct Hshape as [->|(items & -> & Hall)]; [eexists; reflexivity|].
  destruct items as [|i items]; [eexists; reflexivity|].
  cbn [truthy iterate bind].
  destruct (attendee_entries_succeed _ Hall) as (entries & ->).
  eexists. reflexivity.
Qed.

Lemma recurrence_shape (x v : pyval) :
  t_model (Recurrence) x = Some v ->
  exists r rules,
    v = PDict r
    /\ dict_get "rrule" r = Some (PList rules)
    /\ (dict_get_or_none "exdate" r = PNone
        \/ exists dates, dict_get_or_none "exdate" r = PList dates).
Proof.
  intros H. apply t_model_shape in H as (raw & r & _ & -> & Hv).
  assert (Hnd : List.NoDup (map name Recurrence))
    by (simpl; repeat constructor; simpl; intuition discriminate).
  destruct (accepted_model_holds_every_field Recurrence raw r
              (req "rrule" (t_list t_str)) Hnd) as [Hc _];
    [simpl; tauto | exact Hv |].
  unfold dict_contains in Hc. simpl in Hc.
  destruct (dict_get "rrule" r) as [rrule|] eqn:Er; [|discriminate].
  destruct (accepted_value Recurrence raw r (req "rrule" (t_list t_str)) rrule
              Hnd) as [[Hreq _] | (x0 & v0 & vals & _ & Ha & Hrun)];
    [simpl; tauto | exact Hv | exact Er | discriminate Hreq |].
  simpl in Ha, Hrun. injection Hrun as <-.
  destruct (str_list_shape _ _ Ha) as (rules & ->).
  exists r, rules. split; [reflexivity|]. split; [exact Er|].
  destruct (accepted_model_holds_every_field Recurrence raw r
              (opt "exdate" (t_list t_str) PNone) Hnd) as [Hce _];
    [simpl; tauto | exact Hv |].
  unfold dict_contains in Hce. simpl in Hce. unfold dict_get_or_none.
  destruct (dict_get "exdate" r) as [e|] eqn:Ee; [|discriminate].
  destruct (accepted_value Recurrence raw r (opt "exdate" (t_list t_str) PNone)
              e Hnd) as [[_ ->] | (x' & v1 & vals' & _ & Ha' & Hrun')];
    [simpl; tauto | exact Hv | exact Ee | left; reflexivity |].
  simpl in Ha', Hrun'. injection Hrun' as <-.
  destruct (t_optional_shape _ _ _ Ha') as [->|Hl]; [left; reflexivity|].
  right. exact (str_list_shape _ _ Hl).
Qed.

Lemma guarded_recurrence_ok (arguments body : dict pyval) (v : pyval) :
  dict_get "recurrence" arguments = Some v ->
  v = PNone
  \/ (exists r rules,
        v = PDict r
        /\ dict_get "rrule" r = Some (PList rules)
        /\ (dict_get_or_none "exdate" r = PNone
            \/ exists dates, dict_get_or_none "exdate" r = PList dates)) ->
  exists body',
    (if truthy (dict_get_or_none "recurrence" arguments)
     then copy_recurrence arguments body else Ok body) = Ok body'.
Proof.
  intros Hget Hshape. unfold dict_get_or_none at 1, copy_recurrence.
  rewrite Hget.
  destruct Hshape as [->|(r & rules & -> & Hrule & Hex)]; [eexists; reflexivity|].
  destruct (truthy (PDict r)); [|eexists; reflexivity].
  unfold subscript. rewrite Hrule. cbn [bind method_get].
  destruct Hex as [->|(dates & ->)]; [eexists; reflexivity|].
  destruct dates; cbn [truthy iterate bind]; eexists; reflexivity.
Qed.

(** X28.  Every [create_event] call that passes validation can be translated:
    on the argument dict the router builds from it, [_build_event_body]
    returns a body and raises nothing, whatever optional fields the call
    gave or left out. *)
Theorem validated_create_builds_body (raw : dict pyval) (validated : BaseModel) :
  validate_tool_args parse_datetime "create_event" raw = Ok validated ->
  exists body, _build_event_body (dict_ validated) = Ok body.
Proof.
  intros Hv.
  assert (Hf : validate_fields (CreateEventSchema parse_datetime) raw
               = Ok (dict_ validated)).
  { revert Hv. unfold validate_tool_args. simpl. unfold construct.
    destruct (validate_fields (CreateEventSchema parse_datetime) raw)
      as [values|e]; simpl.
    - intros H. injection H as <-. reflexivity.
    - destruct e; discriminate. }
  set (arguments := dict_ validated) in *.
  assert (Hnd : List.NoDup (map name (CreateEventSchema parse_datetime)))
    by (simpl; repeat constructor; simpl; intuition discriminate).
  assert (Hhas : forall f, In f (CreateEventSchema parse_datetime) ->
                           exists v, dict_get (name f) arguments = Some v).
  { intros f Hin.
    destruct (accepted_model_holds_every_field _ raw arguments f Hnd Hin Hf)
      as [Hc _].
    unfold dict_contains in Hc.
    destruct (dict_get (name f) arguments) as [v|]; [|discriminate].
    exists v. reflexivity. }
  assert (Htime : forall key,
             In (req key (t_model (EventDateTime parse_datetime)))
                (CreateEventSchema parse_datetime) ->
             exists d, dict_get key arguments = Some (PDict d)).
  { intros key Hin. destruct (Hhas _ Hin) as (v & Hget). simpl in Hget.
    destruct (accepted_value _ raw arguments _ v Hnd Hin Hf Hget)
      as [[Hreq _] | (x & v0 & vals & _ & Ha & Hrun)]; [discriminate Hreq|].
    simpl in Ha, Hrun. injection Hrun as <-.
    apply t_model_shape in Ha as (_ & d & _ & -> & _).
    exists d. exact Hget. }
  destruct (Hhas (req "summary" t_str)) as (summary & Hsummary); [simpl; tauto|].
  destruct (Htime "start") as (ds & Hstart); [simpl; tauto|].
  destruct (Htime "end") as (de & Hend); [simpl; tauto|].
  simpl in Hsummary.
  unfold _build_event_body, subscript.
  rewrite Hsummary, Hstart, Hend. cbn [bind].
  destruct (convert_datetime_dict_ok ds) as (cs & ->).
  destruct (convert_datetime_dict_ok de) as (ce & ->). cbn [bind].
  (* attendees *)
  destruct (Hhas (opt "attendees"
                    (t_list (t_model Attendee)) PNone))
    as (va & Hva); [simpl; tauto|]. simpl in Hva.
  assert (Hsa : va = PNone
                \/ exists items, va = PList items /\ Forall is_attendee items).
  { destruct (accepted_value _ raw arguments
                (opt "attendees" (t_list (t_model Attendee)) PNone) va Hnd)
      as [[_ ->] | (x & v0 & vals & _ & Ha & Hrun)];
      [simpl; tauto | exact Hf | exact Hva | left; reflexivity |].
    simpl in Ha, Hrun. injection Hrun as <-.
    destruct (t_optional_shape _ _ _ Ha) as [->|Hl]; [left; reflexivity|].
    right. exact (t_list_shape _ is_attendee _ _ attendee_shape Hl). }
  match goal with
  | |- context [if truthy (dict_get_or_none "attendees" arguments)
                then copy_attendees arguments ?b else Ok ?b] =>
      destruct (guarded_attendees_ok arguments b va Hva Hsa) as (b1 & ->)
  end.
  cbn [bind].
  (* recurrence *)
  destruct (Hhas (opt "recurrence" (t_model Recurrence) PNone))
    as (vr & Hvr); [simpl; tauto|]. simpl in Hvr.
  assert (Hsr : vr = PNone
                \/ (exists r rules,
                      vr = PDict r
                      /\ dict_get "rrule" r = Some (PList rules)
                      /\ (dict_get_or_none "exdate" r = PNone
                          \/ exists dates,
                               dict_get_or_none "exdate" r = PList dates))).
  { destruct (accepted_value _ raw arguments
                (opt "recurrence" (t_model Recurrence) PNone) vr Hnd)
      as [[_ ->] | (x & v0 & vals & _ & Ha & Hrun)];
      [simpl; tauto | exact Hf | exact Hvr | left; reflexivity |].
    simpl in Ha, Hrun. injection Hrun as <-.
    destruct (t_optional_shape _ _ _ Ha) as [->|Hm]; [left; reflexivity|].
    right. exact (recurrence_shape _ _ Hm). }
  match goal with
  | |- context [if truthy (dict_get_or_none "recurrence" arguments)
                then copy_recurrence arguments ?b else Ok ?b] =>
      destruct (guarded_recurrence_ok arguments b vr Hvr Hsr) as (b2 & ->)
  end.
  cbn [bind]. eexists. reflexivity.
Qed.

End CreatePath.

Lemma validated_create_builds_body_witness :
  exists body,
    Calendar._build_event_body (Schemas.dict_ Calendar.standup_validated)
    = Py.Ok body.
Proof.
  apply (validated_create_builds_body Schemas.no_parse
           Calendar.standup_request Calendar.standup_validated).
  reflexivity.
Defined.

(* ===================================================================== *)
(** * mcp_server.py: the message handler *)
(* ===================================================================== *)

Section StdioFacts.
Import Py StdioServer.
Variable parse_datetime : pyval -> option string.
Variable str_of : pyval -> string.
Variable input_schema : string -> pyval.

#[local] Abbreviation handle :=
  (handle_message parse_datetime str_of input_schema).

Lemma is_none_false (v : pyval) : v <> PNone -> is_none v = false.
Proof. destruct v; intros H; try reflexivity. contradiction. Qed.

(** Every answer of the handler to a request with an id, whatever the
    method: it is one of the two envelopes, with the id of the request; a
    result is only given by an initialized server or by a successful
    [initialize], and only the latter changes the state. *)
Lemma handle_with_id (components_ok initialized : bool) (d : dict pyval) :
  dict_get_or_none "id" d <> PNone ->
  let opened := components_ok && is_initialize_request (PDict d) in
  exists (response : pyval),
    handle components_ok initialized (PDict d)
    = Ok (Some response, initialized || opened)
    /\ ((exists result,
           response = rpc_result (dict_get_or_none "id" d) result
           /\ initialized || opened = true)
        \/ exists code message,
             response = rpc_error (dict_get_or_none "id" d) code message).
Proof.
  intros Hid. unfold handle_message. cbn [method_get bind].
  rewrite (is_none_false _ Hid).
  unfold is_initialize_request. rewrite (is_none_false _ Hid).
  cbn [negb]. rewrite andb_true_r.
  set (method := dict_get_or_none "method" d).
  set (msg_id := dict_get_or_none "id" d).
  destruct (is_method method "initialize") eqn:Ei.
  { destruct components_ok; cbn [negb andb].
    - rewrite orb_true_r. eexists. split; [reflexivity|]. left. eauto.
    - rewrite orb_false_r. eexists. split; [reflexivity|]. right. eauto. }
  rewrite andb_false_r, orb_false_r.
  destruct (is_method method "tools/list") eqn:El.
  { destruct initialized; cbn [negb];
      (eexists; split; [reflexivity|]); [left|right]; eauto. }
  destruct (is_method method "tools/call") eqn:Ec.
  { destruct initialized; cbn [negb].
    - destruct (call_tool parse_datetime str_of d) as [result|e];
        (eexists; split; [reflexivity|]); [left|right]; eauto.
    - eexists; split; [reflexivity|]. right; eauto. }
  eexists; split; [reflexivity|]. right; eauto.
Qed.

(** X29.  What the handler answers to a JSON object, whatever its method
    and whatever the state of the server.  A message without an id (absent
    or null) is dropped: nothing is answered and the state is unchanged,
    also when the method is a request such as [tools/call].  A message
    with an id gets exactly one response, a JSON object that carries
    [jsonrpc = 2.0], the id of the request, and exactly one of [result]
    and [error]; the handler never raises on it, and an initialized
    server stays initialized. *)
Theorem handle_message_answers (components_ok initialized : bool)
    (d : dict pyval) :
  let msg_id := dict_get_or_none "id" d in
  (msg_id = PNone ->
   handle components_ok initialized (PDict d) = Ok (None, initialized))
  /\ (msg_id <> PNone ->
      exists (r : dict pyval) (initialized' : bool),
        handle components_ok initialized (PDict d)
        = Ok (Some (PDict r), initialized')
        /\ dict_get "jsonrpc" r = Some (PStr "2.0")
        /\ dict_get "id" r = Some msg_id
        /\ dict_contains "result" r = negb (dict_contains "error" r)
        /\ (initialized = true -> initialized' = true)).
Proof.
  intros msg_id. split.
  - intros Hid. unfold handle_message. cbn [method_get bind].
    fold msg_id. rewrite Hid. reflexivity.
  - intros Hid.
    destruct (handle_with_id components_ok initialized d Hid)
      as (response & Hrun & [(result & -> & _) | (code & message & ->)]);
      (eexists _, _; split; [exact Hrun|]);
      (repeat split; try reflexivity); intros ->; reflexivity.
Qed.

Lemma handle_all_cons (components_ok initialized : bool) (message : pyval)
    (rest : list pyval) (response : option pyval) (initialized' : bool) :
  handle components_ok initialized message = Ok (response, initialized') ->
  handle_all parse_datetime str_of input_schema components_ok initialized
    (message :: rest)
  = (match response with
     | Some r => [r]
     | None => []
     end
     ++ fst (handle_all parse_datetime str_of input_schema components_ok
               initialized' rest),
     snd (handle_all parse_datetime str_of input_schema components_ok
            initialized' rest))%list.
Proof.
  intros H. cbn [handle_all]. rewrite H.
  destruct (handle_all parse_datetime str_of input_schema components_ok
              initialized' rest) as [responses final].
  destruct response; reflexivity.
Qed.

(** X30.  In a session that starts uninitialized, as the process does,
    no request gets a result until an [initialize] request has been
    handled with the components in place: as long as the messages hold no
    such request, every response printed is an error response, and the
    server is still uninitialized at the end, whatever the messages are
    (notifications, list and call requests, unknown methods, or values
    that are no JSON objects, at which the loop ends). *)
Theorem no_result_before_initialize (components_ok : bool)
    (messages : list pyval) :
  Forall (fun message =>
            components_ok && is_initialize_request message = false)
         messages ->
  let session := handle_all parse_datetime str_of input_schema components_ok
                   false messages in
  Forall (fun response => is_error_response response = true) (fst session)
  /\ snd session = false.
Proof.
  intros Hall. cbn zeta.
  induction Hall as [|message rest Hm Hrest IH].
  - split; [constructor | reflexivity].
  - destruct message as [| | | | | |l|d];
      try (cbn; split; [constructor | reflexivity]).
    destruct (is_none (dict_get_or_none "id" d)) eqn:Eid.
    + assert (Hrun : handle components_ok false (PDict d) = Ok (None, false)).
      { unfold handle_message. cbn [method_get bind]. rewrite Eid.
        reflexivity. }
      rewrite (handle_all_cons _ _ _ _ _ _ Hrun). cbn [app fst snd].
      exact IH.
    + assert (Hid : dict_get_or_none "id" d <> PNone).
      { intros E. rewrite E in Eid. discriminate. }
      destruct (handle_with_id components_ok false d Hid)
        as (response & Hrun & Hshape).
      rewrite Hm in Hrun, Hshape. cbn [orb] in Hrun, Hshape.
      rewrite (handle_all_cons _ _ _ _ _ _ Hrun). cbn [app fst snd].
      destruct IH as [IH1 IH2]. split; [|exact IH2].
      constructor; [|exact IH1].
      destruct Hshape as [(result & _ & E) | (code & message & ->)];
        [discriminate E | reflexivity].
Qed.

End StdioFacts.

Lemma no_result_before_initialize_witness :
  Forall (fun response => StdioServer.is_error_response response = true)
         (fst (StdioServer.handle_all Schemas.no_parse Py.py_repr
                 StdioServer.no_schema true false StdioServer.eager_session))
  /\ snd (StdioServer.handle_all Schemas.no_parse Py.py_repr
            StdioServer.no_schema true false StdioServer.eager_session)
     = false.
Proof.
  apply (no_result_before_initialize Schemas.no_parse Py.py_repr
           StdioServer.no_schema true StdioServer.eager_session).
  repeat constructor.
Defined.

Lemma handle_message_answers_witness :
  exists (r : Py.dict Py.pyval) (initialized' : bool),
    StdioServer.handle_message Schemas.no_parse Py.py_repr
      StdioServer.no_schema true true (StdioServer.call_request (Py.PInt 2))
    = Py.Ok (Some (Py.PDict r), initialized')
    /\ Py.dict_get "jsonrpc" r = Some (Py.PStr "2.0")
    /\ Py.dict_get "id" r = Some (Py.PInt 2)
    /\ Py.dict_contains "result" r = negb (Py.dict_contains "error" r)
    /\ (true = true -> initialized' = true).
Proof.
  apply (proj2 (handle_message_answers Schemas.no_parse Py.py_repr
                  StdioServer.no_schema true true
                  [("jsonrpc", Py.PStr "2.0"); ("id", Py.PInt 2);
                   ("method", Py.PStr "tools/call");
                   ("params", Py.PDict StdioServer.call_params)])).
  discriminate.
Defined.
